(** * The news-feed pipeline of google-apps-scripts, embedded in Rocq

    Sources: [news_feed.js] (appended to [src/utils_network.js]),
    [utils.js] and [utils_google_drive.js].

    JavaScript strings are sequences of UTF-16 code units, and every
    length test of the pipeline ([.length > 500], [.length < 30]) counts
    code units.  A string is therefore a [list N]; literals are written as
    UTF-8 text and decoded by [js]. *)

From Stdlib Require Import String Ascii DecimalString NArith ZArith Arith Bool Lia List.
Import ListNotations.

(* ===================================================================== *)
(** ** JavaScript strings *)
(* ===================================================================== *)

Definition jsstring := list N.

Fixpoint bytes_of (s : string) : list N :=
  match s with
  | EmptyString => []
  | String a r => N_of_ascii a :: bytes_of r
  end.

(** UTF-8 bytes to UTF-16 code units (a code point above the BMP becomes a
    surrogate pair). *)
Fixpoint utf16_of_utf8 (bs : list N) : jsstring :=
  match bs with
  | [] => []
  | b0 :: r0 =>
    if (b0 <? 128)%N then b0 :: utf16_of_utf8 r0
    else if (b0 <? 224)%N then
      match r0 with
      | b1 :: r1 => ((b0 - 192) * 64 + (b1 - 128))%N :: utf16_of_utf8 r1
      | [] => [65533%N]
      end
    else if (b0 <? 240)%N then
      match r0 with
      | b1 :: b2 :: r2 =>
        ((b0 - 224) * 4096 + (b1 - 128) * 64 + (b2 - 128))%N :: utf16_of_utf8 r2
      | _ => [65533%N]
      end
    else
      match r0 with
      | b1 :: b2 :: b3 :: r3 =>
        let cp := ((b0 - 240) * 262144 + (b1 - 128) * 4096
                   + (b2 - 128) * 64 + (b3 - 128))%N in
        let v := (cp - 65536)%N in
        (55296 + v / 1024)%N :: (56320 + v mod 1024)%N :: utf16_of_utf8 r3
      | _ => [65533%N]
      end
  end.

Definition js (s : string) : jsstring := utf16_of_utf8 (bytes_of s).

Definition ch (a : ascii) : N := N_of_ascii a.

Definition LF : N := 10%N.
Definition COMMA : N := ch ",".
Definition DQUOTE : N := 34%N.

Fixpoint jseq (a b : jsstring) : bool :=
  match a, b with
  | [], [] => true
  | x :: a', y :: b' => (x =? y)%N && jseq a' b'
  | _, _ => false
  end.

(** [!s] on a string: only the empty string is falsy. *)
Definition isEmpty (s : jsstring) : bool :=
  match s with [] => true | _ => false end.

(** [a || b] on strings. *)
Definition orElse (a b : jsstring) : jsstring :=
  if isEmpty a then b else a.

(** ECMAScript WhiteSpace and LineTerminator code units, the set that
    [String.prototype.trim] strips. *)
Definition whiteSpaceUnits : list N :=
  [9; 10; 11; 12; 13; 32; 160; 5760;
   8192; 8193; 8194; 8195; 8196; 8197; 8198; 8199; 8200; 8201; 8202;
   8232; 8233; 8239; 8287; 12288; 65279]%N.

Definition isWhiteSpace (c : N) : bool := existsb (N.eqb c) whiteSpaceUnits.

Fixpoint trimStart (s : jsstring) : jsstring :=
  match s with
  | [] => []
  | c :: r => if isWhiteSpace c then trimStart r else s
  end.

Definition trimEnd (s : jsstring) : jsstring := rev (trimStart (rev s)).

Definition trim (s : jsstring) : jsstring := trimEnd (trimStart s).

(** [s && s.trim().length > 0] *)
Definition nonBlank (s : jsstring) : bool :=
  negb (isEmpty s) && (0 <? length (trim s)).

Fixpoint startsWith (pat s : jsstring) : bool :=
  match pat, s with
  | [], _ => true
  | p :: pr, c :: sr => (p =? c)%N && startsWith pr sr
  | _ :: _, [] => false
  end.

(** [s.includes(pat)] *)
Fixpoint includes (s pat : jsstring) : bool :=
  startsWith pat s
  || match s with
     | [] => false
     | _ :: r => includes r pat
     end.

(** [s.split(sep)] for a one-unit separator. *)
Fixpoint split (sep : N) (s : jsstring) : list jsstring :=
  match s with
  | [] => [[]]
  | c :: r =>
    if (c =? sep)%N then [] :: split sep r
    else match split sep r with
         | h :: t => (c :: h) :: t
         | [] => [[c]]
         end
  end.

(** [parts.join(sep)] *)
Fixpoint join (sep : jsstring) (parts : list jsstring) : jsstring :=
  match parts with
  | [] => []
  | [p] => p
  | p :: rest => p ++ sep ++ join sep rest
  end.

(** [s] between double quotes. *)
Definition quoted (s : jsstring) : jsstring := DQUOTE :: s ++ [DQUOTE].

(** [s.substring(0, n)] *)
Definition substring0 (n : nat) (s : jsstring) : jsstring := firstn n s.

(** [s.replace(/pat/g, '')] for a literal, non-empty pattern: scanning left
    to right, each occurrence found is skipped and the scan resumes after
    it.  [skip] counts the units of the current occurrence still to drop. *)
Fixpoint removeAllFrom (pat : jsstring) (skip : nat) (s : jsstring) : jsstring :=
  match s with
  | [] => []
  | c :: r =>
    match skip with
    | S k => removeAllFrom pat k r
    | O => if startsWith pat s then removeAllFrom pat (length pat - 1) r
           else c :: removeAllFrom pat 0 r
    end
  end.

Definition removeAll (pat s : jsstring) : jsstring := removeAllFrom pat 0 s.

(** Matching under the [i] flag against a pattern of ASCII characters:
    without the [u] flag the canonical form is the upper-case one and no
    non-ASCII unit folds into ASCII, so a pattern letter matches exactly
    its two cases. *)
Definition isAsciiLower (c : N) : bool := (97 <=? c)%N && (c <=? 122)%N.
Definition isAsciiUpper (c : N) : bool := (65 <=? c)%N && (c <=? 90)%N.

Definition eqCI (p c : N) : bool :=
  (p =? c)%N
  || (isAsciiLower p && (c =? p - 32)%N)
  || (isAsciiUpper p && (c =? p + 32)%N).

Fixpoint startsWithCI (pat s : jsstring) : bool :=
  match pat, s with
  | [], _ => true
  | p :: pr, c :: sr => eqCI p c && startsWithCI pr sr
  | _ :: _, [] => false
  end.

(** Number of units of [s] up to the end of the first occurrence of [pat]
    (matched case-insensitively). *)
Fixpoint endOfFirstCI (pat s : jsstring) : option nat :=
  if startsWithCI pat s then Some (length pat)
  else match s with
       | [] => None
       | _ :: r => option_map S (endOfFirstCI pat r)
       end.

(** [s.replace(/OPEN[\s\S]*?CLOSE/gi, '')]: at each position where OPEN
    matches and a CLOSE follows, everything up to the first such CLOSE is
    dropped and the scan resumes after it. *)
Fixpoint stripPairedFrom (op cl : jsstring) (skip : nat) (s : jsstring) : jsstring :=
  match s with
  | [] => []
  | c :: r =>
    match skip with
    | S k => stripPairedFrom op cl k r
    | O =>
      if startsWithCI op s then
        match endOfFirstCI cl (skipn (length op) s) with
        | Some n => stripPairedFrom op cl (length op + n - 1) r
        | None => c :: stripPairedFrom op cl 0 r
        end
      else c :: stripPairedFrom op cl 0 r
    end
  end.

Definition stripPaired (op cl s : jsstring) : jsstring := stripPairedFrom op cl 0 s.

(* ===================================================================== *)
(** ** Effects: exceptions, the log, Drive and the outside world *)
(* ===================================================================== *)

(** A JavaScript [Error], identified by its message. *)
Definition JsError := jsstring.

Inductive outcome (A : Type) : Type :=
| Ok (a : A)
| Throw (e : JsError).

Arguments Ok {A} a.
Arguments Throw {A} e.

(** A computation over a mutable state [S] that returns or throws.  The
    state reached when an exception is thrown is kept: what was logged or
    written before a [throw] stays logged and written. *)
Definition M (S A : Type) : Type := S -> outcome A * S.

Definition ret {S A} (a : A) : M S A := fun s => (Ok a, s).

Definition bind {S A B} (m : M S A) (k : A -> M S B) : M S B :=
  fun s =>
    match m s with
    | (Ok a, s') => k a s'
    | (Throw e, s') => (Throw e, s')
    end.

Definition throw {S A} (e : JsError) : M S A := fun s => (Throw e, s).

(** [try { body } catch (error) { handler }] *)
Definition try_catch {S A} (body : M S A) (handler : JsError -> M S A) : M S A :=
  fun s =>
    match body s with
    | (Ok a, s') => (Ok a, s')
    | (Throw e, s') => handler e s'
    end.

Declare Scope js_scope.
Delimit Scope js_scope with js.
Notation "x <- m ;; k" := (bind m (fun x => k))
  (at level 61, m at next level, right associativity) : js_scope.
Notation "m ;; k" := (bind m (fun _ => k))
  (at level 61, right associativity) : js_scope.
Local Open Scope js_scope.

(** [array.forEach(callback)]: an exception thrown by the callback leaves
    the loop. *)
Fixpoint forEach {S A} (l : list A) (callback : A -> M S unit) : M S unit :=
  match l with
  | [] => ret tt
  | x :: rest => callback x ;; forEach rest callback
  end.

(** The counters of one group run, as the closing log line reports them. *)
Record RunSummary : Type := mkSummary {
  seen : nat;
  saved : nat;
  skipped : nat;
  errored : nat
}.

(** What [Logger.log] receives, by the helper of [utils.js] that wrote it:
    [Utils.logAction] prints the action and the [subject], [title] or [name]
    of its details; [Utils.logError] prints the context and the message. *)
Inductive LogEntry : Type :=
| LogStart (scriptName : jsstring)
| LogEnd (scriptName : jsstring) (summary : RunSummary)
| LogAction (action : jsstring) (shown : option jsstring)
| LogScanRange (itemType : jsstring) (totalCount : nat)
| LogError (context : jsstring) (message : JsError)
| LogLine (text : jsstring).

Record DriveFile : Type := mkFile {
  fileName : jsstring;
  fileContent : jsstring
}.

(** The mutable world of one run: a clock counting the calls made to
    external services, the log, and the files of the news folder (Drive
    lets several files of one folder carry the same name, so the folder is
    a list). *)
Record World : Type := mkWorld {
  tick : nat;
  logs : list LogEntry;
  drive : list DriveFile
}.

Definition advance (w : World) : World :=
  mkWorld (S (tick w)) (logs w) (drive w).

Definition setDrive (w : World) (d : list DriveFile) : World :=
  mkWorld (tick w) (logs w) d.

Definition logged (e : LogEntry) (w : World) : World :=
  mkWorld (tick w) (logs w ++ [e]) (drive w).

Definition log (e : LogEntry) : M World unit :=
  fun w => (Ok tt, logged e w).

Inductive FeedType : Type := rss | atom.

(** One parsed feed entry.  A field the feed format does not provide is
    [undefined] in the source; every test made on these fields treats
    [undefined] and the empty string alike, so it is the empty string
    here. *)
Record Entry : Type := mkEntry {
  title : jsstring;
  link : jsstring;
  description : jsstring;
  content_encoded : jsstring;
  content : jsstring;
  summary : jsstring
}.

Record DetailPageConfig : Type := mkDetailPageConfig {
  enabled : option bool;
  selectors : list jsstring;
  excludeSelectors : list jsstring;
  timeout : option N
}.

Record Feed : Type := mkFeed {
  url : jsstring;
  name : jsstring;
  type : FeedType;
  processGroup : N;
  maxEntriesPerFeed : option nat;
  detailPageConfig : option DetailPageConfig
}.

(** The collaborators the pipeline reaches outside itself.  Answers of
    services depend on the instant of the call (the clock of [World]), so
    that any sequence of answers and failures can be represented. *)
Record Env : Type := mkEnv {
  (** [typeof UtilsAI !== 'undefined' && typeof UtilsAI.askGroq === 'function'] *)
  hasUtilsAI : bool;
  (** [UtilsAI.askGroq(prompt, model)]: a non-empty reply, or an exception *)
  askGroq : nat -> jsstring -> jsstring -> outcome jsstring;
  (** [typeof UtilsGoogleDrive !== 'undefined' && ...] *)
  hasUtilsGoogleDrive : bool;
  (** whether the Drive call made at this instant throws *)
  driveFails : nat -> bool;
  (** [UrlFetchApp.fetch(link, options)]: response code and content text *)
  urlFetch : nat -> jsstring -> outcome (N * jsstring);
  (** [Utils.extractElement(html, selector, {handleNesting: true, maxDepth: 100})] *)
  extractElement : jsstring -> jsstring -> outcome jsstring;
  (** [Utils.removeHtmlElementsBySelector(html, selectors)] *)
  removeHtmlElementsBySelector : jsstring -> list jsstring -> jsstring;
  (** [Utils.cleanHtmlContent(html, {keepParagraphs: true, removeImages: true, allowedTags})] *)
  cleanHtmlContent : jsstring -> list jsstring -> outcome jsstring;
  (** [typeof UtilsNetwork !== 'undefined' && ...] *)
  hasUtilsNetwork : bool;
  (** [UtilsNetwork.fetchXml], [XmlService.parse] and the walk of the
      parsed document by [parseRSS] or [parseAtom]: the entries of the
      feed, or the exception any of these steps throws *)
  readFeed : nat -> jsstring -> FeedType -> outcome (list Entry);
  (** [UtilsGoogleDrive.ensureNestedFolderExists(folderPath)]: the name of
      the innermost folder, or [null] *)
  ensureNestedFolderExists : nat -> jsstring -> outcome (option jsstring)
}.

(** A call to an external service: it is answered according to the clock,
    which then advances. *)
Definition external {A} (answer : nat -> outcome A) : M World A :=
  fun w => (answer (tick w), advance w).

(* ===================================================================== *)
(** ** utils.js *)
(* ===================================================================== *)

Module Utils.

(** The units [safeFileName] strips: backslash, slash, colon, star,
    question mark, double quote, angle brackets and bar. *)
Definition illegalFileNameUnits : list N :=
  [ch "\"; ch "/"; ch ":"; ch "*"; ch "?"; DQUOTE; ch "<"; ch ">"; ch "|"].

Definition isIllegalFileNameUnit (c : N) : bool :=
  existsb (N.eqb c) illegalFileNameUnits.

Definition safeFileName (text : jsstring) (maxLength : nat) : jsstring :=
  let safe := filter (fun c => negb (isIllegalFileNameUnit c)) text in
  let safe := if maxLength <? length safe then substring0 maxLength safe else safe in
  trim safe.

Definition logStart (scriptName : jsstring) : M World unit :=
  log (LogStart scriptName).

Definition logAction (action : jsstring) (shown : option jsstring) : M World unit :=
  log (LogAction action shown).

Definition logError (error : JsError) (context : jsstring) : M World unit :=
  log (LogError context error).

Definition logScanRange (itemType : jsstring) (totalCount : nat) : M World unit :=
  log (LogScanRange itemType totalCount).

End Utils.

(** [title.substring(0, 50) + (title.length > 50 ? '...' : '')] *)
Definition shortTitle (t : jsstring) : jsstring :=
  substring0 50 t ++ (if 50 <? length t then js "..." else []).

(* ===================================================================== *)
(** ** utils_google_drive.js *)
(* ===================================================================== *)

Module UtilsGoogleDrive.

(** A Drive call: it throws when the service fails at that instant, and
    otherwise acts on the folder. *)
Definition driveCall {A} (env : Env) (op : list DriveFile -> A * list DriveFile)
  : M World A :=
  fun w =>
    if driveFails env (tick w) then (Throw (js "Drive service error"), advance w)
    else let (a, d) := op (drive w) in (Ok a, setDrive (advance w) d).

(** [folder.getFilesByName(fileName)], in the order of the folder. *)
Definition getFilesByName (env : Env) (fileName' : jsstring) : M World (list DriveFile) :=
  driveCall env (fun d => (filter (fun f => jseq (fileName f) fileName') d, d)).

(** [files.next().setContent(content)]: the first file of that name. *)
Fixpoint setFirst (fileName' content' : jsstring) (d : list DriveFile) : list DriveFile :=
  match d with
  | [] => []
  | f :: r =>
    if jseq (fileName f) fileName' then mkFile (fileName f) content' :: r
    else f :: setFirst fileName' content' r
  end.

Definition setContent (env : Env) (fileName' content' : jsstring) : M World unit :=
  driveCall env (fun d => (tt, setFirst fileName' content' d)).

(** [folder.createFile(fileName, content)] *)
Definition createFile (env : Env) (fileName' content' : jsstring) : M World unit :=
  driveCall env (fun d => (tt, d ++ [mkFile fileName' content'])).

(** [folder.getName()] *)
Definition getName (env : Env) (folder : jsstring) : M World jsstring :=
  driveCall env (fun d => (folder, d)).

(** [saveOrUpdateFile(folder, fileName, content)]; a [null] folder is
    [None]. *)
Definition saveOrUpdateFile (env : Env) (folder : option jsstring)
           (fileName' content' : jsstring) : M World bool :=
  try_catch
    (match folder with
     | None =>
       log (LogLine (js "错误：无效参数，folder=false, fileName=" ++ quoted fileName')) ;;
       ret false
     | Some folder' =>
       if isEmpty fileName' || (length (trim fileName') =? 0) then
         log (LogLine (js "错误：无效参数，folder=true, fileName=" ++ quoted fileName')) ;;
         ret false
       else
         try_catch
           (files <- getFilesByName env fileName' ;;
            match files with
            | _ :: _ =>
              setContent env fileName' content' ;;
              folderName <- getName env folder' ;;
              log (LogLine (js "更新文件: " ++ quoted fileName'
                            ++ js " (在文件夹 " ++ quoted folderName ++ js ")"))
            | [] =>
              createFile env fileName' content' ;;
              folderName <- getName env folder' ;;
              log (LogLine (js "创建文件: " ++ quoted fileName'
                            ++ js " (在文件夹 " ++ quoted folderName ++ js ")"))
            end ;;
            ret true)
           (fun e =>
              log (LogLine (js "文件操作失败 " ++ quoted fileName' ++ js ": " ++ e)) ;;
              ret false)
     end)
    (fun error =>
       log (LogLine (js "saveOrUpdateFile 失败 " ++ quoted fileName' ++ js ": " ++ error)) ;;
       ret false).

(** What [folder.getFilesByName(fileName)] iterates over. *)
Definition filesNamed (fileName' : jsstring) (d : list DriveFile) : list DriveFile :=
  filter (fun f => jseq (fileName f) fileName') d.

(** The files of the folder under other names. *)
Definition filesNotNamed (fileName' : jsstring) (d : list DriveFile) : list DriveFile :=
  filter (fun f => negb (jseq (fileName f) fileName')) d.

(** The folder after the update-or-create step went through. *)
Definition stored (fileName' content' : jsstring) (d : list DriveFile) : list DriveFile :=
  match filesNamed fileName' d with
  | _ :: _ => setFirst fileName' content' d
  | [] => d ++ [mkFile fileName' content']
  end.

End UtilsGoogleDrive.

(* ===================================================================== *)
(** ** news_feed.js: configuration *)
(* ===================================================================== *)

Record ContentConfig : Type := mkContentConfig {
  minContentLength : nat;
  maxContentLength : nat;
  detailPageTimeout : N;
  detailPageEnabled : bool
}.

Definition CONTENT_CONFIG : ContentConfig :=
  mkContentConfig 30 500 30000 true.

Record PerformanceConfig : Type := mkPerformanceConfig {
  defaultMaxEntriesPerFeed : nat;
  requestTimeout : N;
  aiRequestTimeout : N
}.

Definition PERFORMANCE_CONFIG : PerformanceConfig :=
  mkPerformanceConfig 50 30000 60000.

Definition STORAGE_rootFolder : jsstring := js "app_data".
Definition STORAGE_subFolder : jsstring := js "news_feed/text".

Definition RSS_FEEDS : list Feed :=
  [ mkFeed (js "https://www.chinanews.com.cn/rss/importnews.xml") (js "中新网") rss 1
           (Some 50)
           (Some (mkDetailPageConfig (Some true) [js ".left_zw"]
                                     [js ".adEditor"; js ".pictext"] None));
    mkFeed (js "https://rss.cnbeta.com.tw") (js "cnbeta") rss 2
           (Some 50)
           (Some (mkDetailPageConfig (Some true) [js "#artibody"]
                                     [js ".google-anno-skip"; js ".otherContent_01"] None)) ].

Definition AI_MODEL : jsstring := js "qwen/qwen3-32b".

Definition AI_CLASSIFICATION_PROMPT : jsstring :=
  js "给定一条新闻标题，判断它属于哪类新闻，并输出保存标记。

请严格按照以下if...else逻辑执行判断：

第一步：确定新闻分类
从以下类别中选择最匹配的一项：政治新闻、财经新闻、军事新闻、科技新闻、社会新闻、娱乐新闻、体育新闻、天气新闻、其他新闻

第二步：根据分类确定保存标记
IF 分类是 体育新闻 OR 军事新闻 OR 娱乐新闻：
  保存标记 = 0
ELSE IF 分类是 政治新闻：
  IF 标题涉及日本、韩国或台湾，且仅涉及这些国家或地区的内部政治，与其他国家无关联：
    保存标记 = 0
  ELSE IF 标题涉及国家公职人员或国企、事业单位高管贪污腐败违纪的相关处置：
    保存标记 = 0
  ELSE：
    保存标记 = 1
ELSE IF 分类是 科技新闻：
  IF 标题主要关于某款具体的电子产品发布或软件更新：
    保存标记 = 0
  ELSE：
    保存标记 = 1
ELSE：
  保存标记 = 1

最终输出格式：保存标记,分类
例如：1,政治新闻 或 0,体育新闻

新闻标题如下：".

Definition AI_SUMMARIZATION_PROMPT : jsstring :=
  js "请将以下新闻内容总结为不超过400字的简洁版本。要求：
1. 保留新闻的核心事实和关键信息
2. 保持逻辑清晰，语句通顺
3. 不要添加个人观点或评论
4. 不要使用" ++ quoted (js "记者") ++ js "、"
  ++ quoted (js "监制") ++ js "、"
  ++ quoted (js "作者") ++ js "等词汇
5. 直接输出总结内容，不要任何前缀或解释

新闻内容如下：".

(** The category of a failed classification. *)
Definition CLASSIFICATION_FAILED : jsstring := js "分类失败".

Record Classification : Type := mkClassification {
  shouldSave : bool;
  category : jsstring
}.

(* ===================================================================== *)
(** ** news_feed.js: NewsUtils.RSS *)
(* ===================================================================== *)

Module RSS.

Definition fetchAndParse (env : Env) (url' : jsstring) (feedType : FeedType)
  : M World (list Entry) :=
  try_catch
    (if negb (hasUtilsNetwork env)
     then throw (js "UtilsNetwork对象或fetchXml函数不可用，请确保已部署utils_network.js文件")
     else
       entries <- external (fun t => readFeed env t url' feedType) ;;
       Utils.logAction (js "解析RSS内容") None ;;
       ret entries)
    (fun error =>
       Utils.logError error (js "获取或解析RSS: " ++ url') ;;
       ret []).

End RSS.

(* ===================================================================== *)
(** ** news_feed.js: NewsUtils.Content *)
(* ===================================================================== *)

Module Content.

Definition linesToCheck : Z := 10.

(** [['记者', '监制', '作者', '仅供参考', '版权所有']] *)
Definition keywordsToRemove : list jsstring :=
  [js "记者"; js "监制"; js "作者"; js "仅供参考"; js "版权所有"].

Definition END_MARK : jsstring := js "(完)".

(** The [map] callback of [cleanFooterContent]. *)
Definition processLine (line : jsstring) : jsstring :=
  let processedLine := trim line in
  if includes processedLine END_MARK then trim (removeAll END_MARK processedLine)
  else processedLine.

(** The [filter] callback of [cleanFooterContent]. *)
Definition keepLine (line : jsstring) : bool :=
  negb (existsb (fun keyword => includes line keyword) keywordsToRemove).

Definition processLines (linesToProcess : list jsstring) : list jsstring :=
  filter keepLine (map processLine linesToProcess).

(** [Math.max(0, lines.length - linesToCheck - 1)] *)
Definition startIndexOf (lines : list jsstring) : nat :=
  Z.to_nat (Z.max 0 (Z.of_nat (length lines) - linesToCheck - 1)).

Definition cleanFooterContent (content' : jsstring) : jsstring :=
  if isEmpty content' || (length (trim content') =? 0) then content'
  else
    let lines := split LF content' in
    if length lines =? 0 then content'
    else
      let startIndex := startIndexOf lines in
      let linesToProcess := skipn startIndex lines in
      let remainingLines := firstn startIndex lines in
      let processedLines := processLines linesToProcess in
      let resultLines := remainingLines ++ processedLines in
      trim (join [LF] resultLines).

Definition defaultSelectors : list jsstring :=
  [js "article"; js ".content";
   js "div[class*=" ++ quoted (js "content") ++ js "]";
   js "div[class*=" ++ quoted (js "main") ++ js "]";
   js "div[class*=" ++ quoted (js "article") ++ js "]";
   js "div[class*=" ++ quoted (js "post") ++ js "]"].

(** The selector loop of [fetchDetailPageContent]: the first extracted
    fragment whose trimmed length exceeds 100, or the empty string. *)
Fixpoint selectContent (env : Env) (html : jsstring) (selectors' : list jsstring)
  : outcome jsstring :=
  match selectors' with
  | [] => Ok []
  | selector :: rest =>
    match extractElement env html selector with
    | Throw e => Throw e
    | Ok extractedContent =>
      if nonBlank extractedContent && (100 <? length (trim extractedContent))
      then Ok extractedContent
      else selectContent env html rest
    end
  end.

(** The character class of the body pattern, as written in the regular
    expression literal: [[\\s\\S]] holds an escaped backslash, [s], an
    escaped backslash again and [S]. *)
Definition inBodyClass (c : N) : bool :=
  (c =? ch "\")%N || eqCI (ch "s") c || eqCI (ch "S") c.

(** [([\\s\\S]*?)<\/body>] from the current position: the shortest run of
    class units that [</body>] follows. *)
Fixpoint bodyCapture (s : jsstring) : option jsstring :=
  if startsWithCI (js "</body>") s then Some []
  else match s with
       | c :: r => if inBodyClass c then option_map (cons c) (bodyCapture r) else None
       | [] => None
       end.

(** [[^>]*>] and then the rest of the pattern. *)
Fixpoint afterBodyOpen (s : jsstring) : option jsstring :=
  match s with
  | [] => None
  | c :: r => if (c =? ch ">")%N then bodyCapture r else afterBodyOpen r
  end.

(** [html.match(/<body[^>]*>([\\s\\S]*?)<\/body>/i)]: the first capture
    group of the leftmost match, [None] for [null]. *)
Fixpoint bodyMatch (html : jsstring) : option jsstring :=
  match (if startsWithCI (js "<body") html then afterBodyOpen (skipn 5 html) else None) with
  | Some g => Some g
  | None => match html with
            | [] => None
            | _ :: r => bodyMatch r
            end
  end.

(** Lines 688-696: the content taken when no selector was accepted. *)
Definition fallbackContent (html : jsstring) : jsstring :=
  match bodyMatch html with
  | Some g => if isEmpty g then html else g
  | None => html
  end.

Definition liftOutcome {A} (o : outcome A) : M World A := fun w => (o, w).

Definition fetchDetailPageContent (env : Env) (link' : jsstring)
           (detailPageConfig' : option DetailPageConfig) : M World jsstring :=
  if isEmpty link' || (length (trim link') =? 0) then ret []
  else
    try_catch
      (response <- external (fun t => urlFetch env t link') ;;
       let (responseCode, html) := response in
       if negb (responseCode =? 200)%N then
         Utils.logAction (js "详情页抓取失败") None ;; ret []
       else
         let selectors' :=
             match detailPageConfig' with
             | Some c => if 0 <? length (selectors c) then selectors c else defaultSelectors
             | None => defaultSelectors
             end in
         content0 <- liftOutcome (selectContent env html selectors') ;;
         let content1 := if isEmpty content0 then fallbackContent html else content0 in
         let contentAfterExclusion :=
             match detailPageConfig' with
             | Some c =>
               if 0 <? length (excludeSelectors c)
               then removeHtmlElementsBySelector env content1 (excludeSelectors c)
               else content1
             | None => content1
             end in
         liftOutcome
           (cleanHtmlContent env contentAfterExclusion
              [js "p"; js "br"; js "strong"; js "em"; js "h1"; js "h2"; js "h3"; js "h4"]))
      (fun error => Utils.logError error (js "抓取详情页: " ++ link') ;; ret []).

(** [feedConfig.detailPageConfig.enabled !== false] *)
Definition notDisabled (c : option DetailPageConfig) : bool :=
  match c with
  | Some c' => match enabled c' with Some false => false | _ => true end
  | None => true
  end.

Definition extractNewsContent (env : Env) (entry : Entry) (feedConfig : Feed)
  : M World jsstring :=
  let shouldFetchDetailPage :=
      detailPageEnabled CONTENT_CONFIG && nonBlank (link entry)
      && notDisabled (detailPageConfig feedConfig) in
  detailPageContent <-
    (if shouldFetchDetailPage
     then fetchDetailPageContent env (link entry) (detailPageConfig feedConfig)
     else ret []) ;;
  let finalContent0 := if nonBlank detailPageContent then detailPageContent else [] in
  let scrub (finalContent : jsstring) : M World jsstring :=
      ret (orElse (cleanFooterContent finalContent) (js "【内容为空】")) in
  if isEmpty finalContent0 then
    let contentSources :=
        [content_encoded entry; content entry; description entry; summary entry] in
    match find nonBlank contentSources with
    | None =>
      if nonBlank detailPageContent then scrub detailPageContent
      else ret (js "【内容提取失败】")
    | Some rawContent =>
      cleaned <-
        try_catch
          (c <- liftOutcome
                  (cleanHtmlContent env rawContent [js "p"; js "br"; js "strong"; js "em"]) ;;
           ret (Some c))
          (fun error =>
             Utils.logError error (js "RSS HTML内容清理") ;;
             if nonBlank detailPageContent then ret (Some detailPageContent)
             else ret None) ;;
      match cleaned with
      | Some finalContent => scrub finalContent
      | None => ret (js "【内容清理失败】")
      end
    end
  else scrub finalContent0.

End Content.

(* ===================================================================== *)
(** ** news_feed.js: NewsUtils.AI *)
(* ===================================================================== *)

Module AI.

Definition cleanThinkingTags (rawResponse : jsstring) : jsstring :=
  trim (stripPaired (js "<thinking>") (js "</thinking>")
          (stripPaired (js "<think>") (js "</think>") rawResponse)).

(** The dependency check and the call [UtilsAI.askGroq(prompt, model)]. *)
Definition callGroq (env : Env) (prompt : jsstring) : M World jsstring :=
  if negb (hasUtilsAI env)
  then throw (js "UtilsAI对象不可用，请确保已部署utils_ai.js文件")
  else external (fun t => askGroq env t prompt AI_MODEL).

(** [response.split(',').map(s => s.trim())] *)
Definition responseParts (response : jsstring) : list jsstring :=
  map trim (split COMMA response).

Definition failedClassification : Classification :=
  mkClassification false CLASSIFICATION_FAILED.

Definition classifyNewsByTitle (env : Env) (title' : jsstring) : M World Classification :=
  let prompt := AI_CLASSIFICATION_PROMPT ++ title' in
  try_catch
    (rawResponse <- callGroq env prompt ;;
     let response := cleanThinkingTags rawResponse in
     let parts := responseParts response in
     if length parts <? 2 then throw (js "AI响应格式错误: " ++ response)
     else
       let shouldSaveStr := hd [] parts in
       let category' := join [COMMA] (tl parts) in
       if negb (jseq shouldSaveStr (js "0")) && negb (jseq shouldSaveStr (js "1"))
       then throw (js "AI响应中的保存标志无效: " ++ shouldSaveStr)
       else
         let shouldSave' := jseq shouldSaveStr (js "1") in
         Utils.logAction (js "AI分类结果") (Some (shortTitle title')) ;;
         ret (mkClassification shouldSave' category'))
    (fun error =>
       Utils.logError error (js "AI分类标题: " ++ substring0 50 title' ++ js "...") ;;
       ret failedClassification).

Definition summarizeContent (env : Env) (content' : jsstring) : M World jsstring :=
  let prompt := AI_SUMMARIZATION_PROMPT ++ content' in
  try_catch
    (rawResponse <- callGroq env prompt ;;
     let response := cleanThinkingTags rawResponse in
     ret response)
    (fun error =>
       Utils.logError error (js "AI内容总结失败，返回原内容") ;;
       ret content').

End AI.

(* ===================================================================== *)
(** ** news_feed.js: NewsUtils.Storage *)
(* ===================================================================== *)

Module Storage.

Definition createNewsDateFolder (env : Env) (rootFolder subFolder : jsstring)
  : M World (option jsstring) :=
  let folderPath := rootFolder ++ js "/" ++ subFolder in
  try_catch
    (if negb (hasUtilsGoogleDrive env)
     then throw (js "UtilsGoogleDrive对象或ensureNestedFolderExists函数不可用，请确保已部署utils_google_drive.js文件")
     else
       dateFolder <- external (fun t => ensureNestedFolderExists env t folderPath) ;;
       match dateFolder with
       | None => throw (js "无法创建文件夹路径: " ++ folderPath)
       | Some folder =>
         Utils.logAction (js "创建新闻文件夹") None ;;
         ret (Some folder)
       end)
    (fun error =>
       Utils.logError error (js "创建新闻文件夹: " ++ folderPath) ;;
       ret None).

Definition formatNewsContent (source category' title' content' : jsstring)
           (isAISummarized : bool) : jsstring :=
  let contentPrefix :=
      if isAISummarized then js "AI总结：" ++ [LF] else js "新闻原文：" ++ [LF] in
  let finalContent := contentPrefix ++ orElse content' (js "【内容为空】") in
  js "来源：" ++ orElse source (js "未知") ++ [LF]
  ++ js "分类：" ++ orElse category' (js "未分类") ++ [LF]
  ++ [LF]
  ++ orElse title' (js "【无标题】") ++ [LF]
  ++ [LF]
  ++ finalContent.

(** The key a title is stored under. *)
Definition safeKey (title' : jsstring) : jsstring :=
  Utils.safeFileName title' 100 ++ js ".txt".

Definition saveNewsToDrive (env : Env) (folder : option jsstring)
           (title' content' : jsstring) : M World bool :=
  try_catch
    (if negb (hasUtilsGoogleDrive env)
     then throw (js "UtilsGoogleDrive对象或saveOrUpdateFile函数不可用，请确保已部署utils_google_drive.js文件")
     else
       let safeFileName := safeKey title' in
       success <- UtilsGoogleDrive.saveOrUpdateFile env folder safeFileName content' ;;
       (if success : bool then
          match folder with
          | Some folder' =>
            _ <- UtilsGoogleDrive.getName env folder' ;;
            Utils.logAction (js "保存新闻到Drive") (Some (shortTitle title'))
          | None => throw (js "TypeError: Cannot read properties of null")
          end
        else
          Utils.logError (js "保存文件失败: " ++ safeFileName) (js "saveNewsToDrive")) ;;
       ret success)
    (fun error =>
       Utils.logError error (js "保存新闻到Drive: " ++ substring0 50 title' ++ js "...") ;;
       ret false).

End Storage.

(* ===================================================================== *)
(** ** news_feed.js: processNewsFeedsByGroup *)
(* ===================================================================== *)

(** The functions the main loop looks up on the [NewsUtils] namespace
    object at each call.  Any of them may throw as far as the loop is
    concerned. *)
Record Namespace : Type := mkNamespace {
  fetchAndParse : jsstring -> FeedType -> M World (list Entry);
  classifyNewsByTitle : jsstring -> M World Classification;
  extractNewsContent : Entry -> Feed -> M World jsstring;
  summarizeContent : jsstring -> M World jsstring;
  saveNewsToDrive : option jsstring -> jsstring -> jsstring -> M World bool
}.

(** The namespace object of the repository. *)
Definition NewsUtils (env : Env) : Namespace :=
  mkNamespace
    (RSS.fetchAndParse env)
    (AI.classifyNewsByTitle env)
    (Content.extractNewsContent env)
    (AI.summarizeContent env)
    (Storage.saveNewsToDrive env).

(** The state of the main loop: the world and the three counters, which
    only the loop itself updates. *)
Record RunState : Type := mkRun {
  world : World;
  totalProcessed : nat;
  totalSaved : nat;
  totalErrors : nat
}.

Definition liftW {A} (m : M World A) : M RunState A :=
  fun s =>
    let (r, w) := m (world s) in
    (r, mkRun w (totalProcessed s) (totalSaved s) (totalErrors s)).

Definition incProcessed : M RunState unit :=
  fun s => (Ok tt, mkRun (world s) (S (totalProcessed s)) (totalSaved s) (totalErrors s)).

Definition incSaved : M RunState unit :=
  fun s => (Ok tt, mkRun (world s) (totalProcessed s) (S (totalSaved s)) (totalErrors s)).

Definition incErrors : M RunState unit :=
  fun s => (Ok tt, mkRun (world s) (totalProcessed s) (totalSaved s) (S (totalErrors s))).

Section MainLoop.

Variable nu : Namespace.
Variable newsFolder : jsstring.

(** Lines 1057-1069: the final content and the AI-summary flag. *)
Definition finalContentOf (extractedContent : jsstring) : M RunState (jsstring * bool) :=
  if maxContentLength CONTENT_CONFIG <? length extractedContent then
    summarizedContent <- liftW (summarizeContent nu extractedContent) ;;
    ret (summarizedContent, true)
  else ret (extractedContent, false).

(** Lines 1076-1089: format the record and save it. *)
Definition persist (feed : Feed) (entry : Entry) (classification : Classification)
           (finalContent : jsstring) (isAISummarized : bool) : M RunState unit :=
  let newsContent :=
      Storage.formatNewsContent (name feed) (category classification) (title entry)
                                finalContent isAISummarized in
  saved' <- liftW (saveNewsToDrive nu (Some newsFolder) (title entry) newsContent) ;;
  if saved' : bool then incSaved else ret tt.

(** The body of the inner [try] (lines 1051-1095). *)
Definition entryBody (feed : Feed) (entry : Entry) : M RunState unit :=
  classification <- liftW (classifyNewsByTitle nu (title entry)) ;;
  if shouldSave classification then
    extractedContent <- liftW (extractNewsContent nu entry feed) ;;
    r <- finalContentOf extractedContent ;;
    let (finalContent, isAISummarized) := r : jsstring * bool in
    if length finalContent <? minContentLength CONTENT_CONFIG then ret tt
    else persist feed entry classification finalContent isAISummarized
  else
    liftW (Utils.logAction (js "跳过新闻") (Some (shortTitle (title entry)))).

Definition validTitle (entry : Entry) : bool :=
  negb (isEmpty (title entry) || (length (trim (title entry)) =? 0)).

(** The callback of [limitedEntries.forEach] (lines 1041-1101). *)
Definition processEntry (feed : Feed) (entry : Entry) : M RunState unit :=
  if negb (validTitle entry) then
    liftW (Utils.logAction (js "跳过无效标题") None)
  else
    incProcessed ;;
    try_catch
      (entryBody feed entry)
      (fun error =>
         liftW (Utils.logError error
                  (js "处理新闻: " ++ substring0 50 (title entry) ++ js "...")) ;;
         incErrors).

(** [feed.maxEntriesPerFeed || PERFORMANCE_CONFIG.maxEntriesPerFeed] *)
Definition maxEntriesOf (feed : Feed) : nat :=
  match maxEntriesPerFeed feed with
  | Some (S n) => S n
  | _ => defaultMaxEntriesPerFeed PERFORMANCE_CONFIG
  end.

(** The body of the outer [try] (lines 1029-1101). *)
Definition feedBody (feed : Feed) : M RunState unit :=
  let maxEntries := maxEntriesOf feed in
  liftW (Utils.logAction (js "处理RSS源") (Some (name feed))) ;;
  entries <- liftW (fetchAndParse nu (url feed) (type feed)) ;;
  let limitedEntries := firstn maxEntries entries in
  liftW (Utils.logScanRange (js "新闻条目") (length entries)) ;;
  forEach limitedEntries (processEntry feed).

(** The callback of [targetFeeds.forEach] (lines 1027-1108). *)
Definition processFeed (feed : Feed) : M RunState unit :=
  try_catch
    (feedBody feed)
    (fun error =>
       liftW (Utils.logError error (js "处理RSS源: " ++ name feed)) ;;
       incErrors).

Definition processFeeds (targetFeeds : list Feed) : M RunState unit :=
  forEach targetFeeds processFeed.

End MainLoop.

Definition summaryOf (s : RunState) : RunSummary :=
  mkSummary (totalProcessed s) (totalSaved s)
            (totalProcessed s - totalSaved s) (totalErrors s).

Definition groupScriptName (groupNumber : N) : jsstring :=
  js "新闻源收集 - 组" ++ js (NilEmpty.string_of_uint (N.to_uint groupNumber)).

(** [processNewsFeedsByGroup(groupNumber)] over the configured [feeds];
    the summary logged at the end is also returned. *)
Definition processNewsFeedsByGroup (env : Env) (nu : Namespace) (feeds : list Feed)
           (groupNumber : N) : M World RunSummary :=
  Utils.logStart (groupScriptName groupNumber) ;;
  let targetFeeds := filter (fun feed => (processGroup feed =? groupNumber)%N) feeds in
  if length targetFeeds =? 0 then
    Utils.logAction (js "分组过滤") None ;;
    log (LogEnd (groupScriptName groupNumber) (mkSummary 0 0 0 0)) ;;
    ret (mkSummary 0 0 0 0)
  else
    Utils.logAction (js "分组过滤") None ;;
    newsFolder <- Storage.createNewsDateFolder env STORAGE_rootFolder STORAGE_subFolder ;;
    match newsFolder with
    | None =>
      Utils.logError (js "无法创建新闻文件夹")
                     (js "processNewsFeedsGroup"
                      ++ js (NilEmpty.string_of_uint (N.to_uint groupNumber))) ;;
      ret (mkSummary 0 0 0 0)
    | Some folder =>
      fun w =>
        match processFeeds nu folder targetFeeds (mkRun w 0 0 0) with
        | (Throw e, s) => (Throw e, world s)
        | (Ok _, s) =>
          (Utils.logAction (js "性能统计") None ;;
           log (LogEnd (groupScriptName groupNumber) (summaryOf s)) ;;
           ret (summaryOf s)) (world s)
        end
    end.

(* ===================================================================== *)
(** ** The classification contract in the words of the specification *)
(* ===================================================================== *)

Module Spec.

(** The text before the first comma and the remainder after it. *)
Fixpoint cutAtFirstComma (s : jsstring) : option (jsstring * jsstring) :=
  match s with
  | [] => None
  | c :: r =>
    if (c =? COMMA)%N then Some ([], r)
    else match cutAtFirstComma r with
         | Some (flag, rest) => Some (c :: flag, rest)
         | None => None
         end
  end.

(** "Parses the remaining text as flag,category (flag is exactly the
    literal 0 or 1; category is the remainder after the first comma);
    malformed response or flag not in {0,1} gives the failure
    classification." *)
Definition parseClassification (response : jsstring) : Classification :=
  match cutAtFirstComma response with
  | None => AI.failedClassification
  | Some (flag, rest) =>
    if jseq flag (js "1") then mkClassification true rest
    else if jseq flag (js "0") then mkClassification false rest
    else AI.failedClassification
  end.

End Spec.

(* ===================================================================== *)
(** ** Observations on runs *)
(* ===================================================================== *)

(** A computation that never writes to the folder. *)
Definition keepsDrive {A} (m : M World A) : Prop :=
  forall w, drive (snd (m w)) = drive w.

(** A computation of the loop that leaves the processed counter alone. *)
Definition keepsProcessed {A} (m : M RunState A) : Prop :=
  forall s, totalProcessed (snd (m s)) = totalProcessed s.

(** The state of the loop once the entry is counted and its content
    resolved. *)
Definition counted (s : RunState) (w : World) : RunState :=
  mkRun w (S (totalProcessed s)) (totalSaved s) (totalErrors s).

(** The state in which the inner [try] is entered. *)
Definition entered (s : RunState) : RunState :=
  mkRun (world s) (S (totalProcessed s)) (totalSaved s) (totalErrors s).

(** The state the [catch] of the loop leaves: the error logged and
    counted. *)
Definition caught (context : jsstring) (e : JsError) (s : RunState) : RunState :=
  mkRun (logged (LogError context e) (world s))
        (totalProcessed s) (totalSaved s) (S (totalErrors s)).

(* ===================================================================== *)
(** ** Concrete worlds used to exercise the model *)
(* ===================================================================== *)

Module Scenario.

Definition w0 : World := mkWorld 0 [] [].

(** The HTML cleaner replaced by the identity, no selector ever matching,
    a Drive that fails exactly when [driveDown] says so. *)
Definition envOf (oracle : nat -> jsstring -> outcome jsstring)
           (page : outcome (N * jsstring)) (driveDown : nat -> bool)
           (entries : outcome (list Entry)) : Env :=
  mkEnv true (fun t prompt _ => oracle t prompt)
        true driveDown
        (fun _ _ => page)
        (fun _ _ => Ok [])
        (fun html _ => html)
        (fun html _ => Ok html)
        true
        (fun _ _ _ => entries)
        (fun _ _ => Ok (Some (js "text"))).

(** An oracle that always replies [raw]. *)
Definition answering (raw : jsstring) : Env :=
  envOf (fun _ _ => Ok raw) (Throw (js "offline")) (fun _ => false) (Ok []).

(** An oracle that always fails. *)
Definition failing : Env :=
  envOf (fun _ _ => Throw (js "quota")) (Throw (js "offline")) (fun _ => false) (Ok []).

End Scenario.

Definition s0 : RunState := mkRun Scenario.w0 0 0 0.

(** A twenty-line article: a byline fifteen lines from the end, and again
    five lines from the end. *)
Definition sampleArticle : jsstring :=
  join [LF]
       [js "l1"; js "l2"; js "l3"; js "l4"; js "l5";
        js "新华社记者报道"; js "l7"; js "l8"; js "l9"; js "l10";
        js "l11"; js "l12"; js "l13"; js "l14"; js "l15";
        js "本报记者 张三"; js "l17"; js "l18"; js "l19 (完)"; js "l20"].


(** A page with a head and a body, and no element any selector matches. *)
Definition samplePage : jsstring :=
  js "<html><head><title>T</title></head><body><p>hello world</p></body></html>".

Definition servingSamplePage : Env :=
  Scenario.envOf (fun _ _ => Ok (js "1,finance")) (Ok (200%N, samplePage))
                 (fun _ => false) (Ok []).

(** A feed without detail-page configuration and two of its entries: one
    with a short description, one with a description of 600 units. *)
Definition plainFeed : Feed :=
  mkFeed (js "https://example.com/rss") (js "Example") rss 1 None None.

Definition shortEntry : Entry :=
  mkEntry (js "Central bank cuts rates") [] (js "short note") [] [] [].

Definition longEntry : Entry :=
  mkEntry (js "Central bank cuts rates") [] (repeat (ch "a") 600) [] [] [].

(** The oracle answers [1,finance] to the first call and a summary to the
    later ones. *)
Definition summarizing : Env :=
  Scenario.envOf
    (fun t _ => if t =? 0 then Ok (js "1,finance")
                else Ok (js "<think>condense</think>The central bank cut its policy rate."))
    (Throw (js "offline")) (fun _ => false) (Ok [shortEntry; longEntry]).

(** The oracle answers [1,finance] to the first call and fails afterwards. *)
Definition summarizerDown : Env :=
  Scenario.envOf
    (fun t _ => if t =? 0 then Ok (js "1,finance") else Throw (js "quota"))
    (Throw (js "offline")) (fun _ => false) (Ok [shortEntry; longEntry]).

(** A namespace whose reader fails on the feed [bad] and whose extractor
    fails on the entry [boom]. *)
Definition brittle : Namespace :=
  mkNamespace
    (fun url' _ =>
       if jseq url' (js "bad") then throw (js "dead feed")
       else ret [mkEntry (js "boom") [] [] [] [] [];
                 mkEntry [] [] [] [] [] [];
                 mkEntry (js "fine") [] [] [] [] []])
    (fun _ => ret (mkClassification true (js "finance")))
    (fun entry _ =>
       if jseq (title entry) (js "boom") then throw (js "boom")
       else ret (js "forty units of perfectly ordinary content"))
    (fun content' => ret content')
    (fun _ _ _ => ret true).

Definition badFeed : Feed := mkFeed (js "bad") (js "Bad") rss 1 None None.
Definition goodFeed : Feed := mkFeed (js "good") (js "Good") rss 1 None None.

(** An extractor that finds twenty units under [.meta] and a long article
    under [.body]. *)
Definition twoFragments : Env :=
  mkEnv true (fun _ _ _ => Ok []) true (fun _ => false) (fun _ _ => Throw [])
        (fun _ selector =>
           if jseq selector (js ".meta") then Ok (repeat (ch "m") 20)
           else if jseq selector (js ".body") then Ok (repeat (ch "b") 150)
           else Ok [])
        (fun html _ => html) (fun html _ => Ok html) true
        (fun _ _ _ => Ok []) (fun _ _ => Ok None).

(** The counters only grow from [s] to [s'], and the saved counter by no
    more than the processed one. *)
Definition grows (s s' : RunState) : Prop :=
  totalProcessed s <= totalProcessed s'
  /\ totalSaved s <= totalSaved s'
  /\ totalErrors s <= totalErrors s'
  /\ totalSaved s' + totalProcessed s <= totalSaved s + totalProcessed s'.

(** A namespace whose saves all fail. *)
Definition readOnly : Namespace :=
  mkNamespace
    (fun _ _ => ret [mkEntry (js "fine") [] [] [] [] []])
    (fun _ => ret (mkClassification true (js "finance")))
    (fun _ _ => ret (js "forty units of perfectly ordinary content"))
    (fun content' => ret content')
    (fun _ _ _ => ret false).

(* ===================================================================== *)
(** ** utils_network.js *)
(* ===================================================================== *)

(** [`${n}`] for a non-negative integer. *)
Definition decimal (n : N) : jsstring := js (NilEmpty.string_of_uint (N.to_uint n)).

Module UtilsNetwork.

(** A headers object: the value stored under each key, if any. *)
Definition Headers : Type := jsstring -> option jsstring.

(** [{}] *)
Definition noHeaders : Headers := fun _ => None.

(** [{ [key]: value, ...overrides }]: a key of [overrides] wins. *)
Definition withDefault (key value : jsstring) (overrides : option Headers) : Headers :=
  fun k =>
    match match overrides with Some h => h k | None => None end with
    | Some v => Some v
    | None => if jseq k key then Some value else None
    end.

(** The options object handed to [fetchWithRetry] by its callers and the
    configuration object handed on to [UrlFetchApp.fetch]: a property that
    is absent is [None]. *)
Record Options : Type := mkOptions {
  muteHttpExceptions : option bool;
  followRedirects : option bool;
  maxRedirects : option nat;
  maximumRedirects : option nat;
  timeout : option N;
  method : option jsstring;
  payload : option jsstring;
  contentType : option jsstring;
  headers : option Headers
}.

(** [{}] *)
Definition noOptions : Options :=
  mkOptions None None None None None None None None None.

Record HTTPResponse : Type := mkResponse {
  getResponseCode : N;
  getContentText : jsstring;
  getHeaders : Headers
}.

(** [UrlFetchApp.fetch(url, options)] at a given instant. *)
Definition Fetcher : Type := nat -> jsstring -> Options -> outcome HTTPResponse.

(** [x !== false] *)
Definition notFalse (x : option bool) : bool :=
  match x with Some false => false | _ => true end.

(** [n || d] on numbers: [undefined] and [0] are falsy. *)
Definition natOr (n : option nat) (d : nat) : nat :=
  match n with Some (S k) => S k | _ => d end.

Definition numOr (n : option N) (d : N) : N :=
  match n with Some 0%N | None => d | Some k => k end.

(** [s || d] on strings. *)
Definition strOr (s : option jsstring) (d : jsstring) : jsstring :=
  match s with Some (c :: r) => c :: r | _ => d end.

(** [a || b] on header values: the first one that is a non-empty string. *)
Definition firstTruthy (a b : option jsstring) : option jsstring :=
  match a with
  | Some (c :: r) => Some (c :: r)
  | _ => match b with Some (c :: r) => Some (c :: r) | _ => None end
  end.

Definition USER_AGENT : jsstring :=
  js "Mozilla/5.0 (Windows NT 10.0; Win64; x64) AppleWebKit/537.36 (KHTML, like Gecko) Chrome/131.0.0.0 Safari/537.36".

(** The configuration [fetchWithRetry] builds from its options. *)
Definition configOf (options : Options) : Options :=
  mkOptions
    (Some (notFalse (muteHttpExceptions options)))
    (Some (notFalse (followRedirects options)))
    None
    (Some (natOr (maxRedirects options) 5))
    (Some (numOr (timeout options) 30000))
    (Some (strOr (method options) (js "get")))
    (payload options)
    (contentType options)
    (Some (withDefault (js "User-Agent") USER_AGENT (headers options))).

(** [responseCode === 301 || ... === 302 || ... === 307 || ... === 308] *)
Definition isRedirect (responseCode : N) : bool :=
  (responseCode =? 301)%N || (responseCode =? 302)%N
  || (responseCode =? 307)%N || (responseCode =? 308)%N.

(** [options.maximumRedirects || 5] *)
Definition redirectLimit (options : Options) : nat :=
  natOr (maximumRedirects options) 5.

(** [_handleRedirects(url, options, redirectCount)], by recursion on the
    redirects still allowed, [remaining = limit - redirectCount]: the test
    [redirectCount >= limit] of the source is [remaining = 0]. *)
Fixpoint handleRedirectsWithin (fetch : Fetcher) (remaining : nat) (url : jsstring)
         (options : Options) (redirectCount : nat) : M World HTTPResponse :=
  try_catch
    (response <- external (fun t => fetch t url options) ;;
     let responseCode := getResponseCode response in
     if isRedirect responseCode then
       match remaining with
       | 0 =>
         throw (js "重定向次数过多 (" ++ decimal (N.of_nat redirectCount)
                ++ js "次)，可能陷入循环")
       | S remaining' =>
         match firstTruthy (getHeaders response (js "Location"))
                           (getHeaders response (js "location")) with
         | Some location =>
           log (LogLine (js "处理重定向: " ++ url ++ js " -> " ++ location ++ js " ("
                         ++ decimal responseCode ++ js ", 第"
                         ++ decimal (N.of_nat (redirectCount + 1)) ++ js "次)")) ;;
           handleRedirectsWithin fetch remaining' location options (redirectCount + 1)
         | None =>
           throw (js "HTTP " ++ decimal responseCode ++ js ": 重定向但没有Location头")
         end
       end
     else ret response)
    (fun error =>
       log (LogLine (js "网络请求失败: " ++ url ++ js ", 错误: " ++ error)) ;;
       throw error).

Definition _handleRedirects (fetch : Fetcher) (url : jsstring) (options : Options)
           (redirectCount : nat) : M World HTTPResponse :=
  handleRedirectsWithin fetch (redirectLimit options - redirectCount) url options
                        redirectCount.

Definition fetchWithRetry (fetch : Fetcher) (url : jsstring) (options : Options)
  : M World HTTPResponse :=
  _handleRedirects fetch url (configOf options) 0.

(** [{ ...options, headers: { 'Accept': accept, ...options.headers } }] *)
Definition accepting (accept : jsstring) (options : Options) : Options :=
  mkOptions (muteHttpExceptions options) (followRedirects options) (maxRedirects options)
            (maximumRedirects options) (timeout options) (method options)
            (payload options) (contentType options)
            (Some (withDefault (js "Accept") accept (headers options))).

Definition fetchXml (fetch : Fetcher) (url : jsstring) (options : Options)
  : M World jsstring :=
  try_catch
    (response <-
       fetchWithRetry
         fetch url
         (accepting (js "application/xml,text/xml,application/rss+xml,application/atom+xml")
                    options) ;;
     let responseCode := getResponseCode response in
     if negb (responseCode =? 200)%N then
       throw (js "HTTP " ++ decimal responseCode ++ js ": "
              ++ substring0 100 (getContentText response))
     else ret (getContentText response))
    (fun error =>
       log (LogLine (js "获取XML失败: " ++ url ++ js ", 错误: " ++ error)) ;;
       throw error).

Definition fetchHtml (fetch : Fetcher) (url : jsstring) (options : Options)
  : M World jsstring :=
  try_catch
    (response <-
       fetchWithRetry
         fetch url
         (accepting (js "text/html,application/xhtml+xml,application/xml;q=0.9,*/*;q=0.8")
                    options) ;;
     let responseCode := getResponseCode response in
     if negb (responseCode =? 200)%N then
       log (LogLine (js "获取HTML失败: HTTP " ++ decimal responseCode ++ js ", URL: "
                     ++ url)) ;;
       ret []
     else ret (getContentText response))
    (fun error =>
       log (LogLine (js "获取HTML失败: " ++ url ++ js ", 错误: " ++ error)) ;;
       ret []).

Definition fetchText (fetch : Fetcher) (url : jsstring) (options : Options)
  : M World jsstring :=
  try_catch
    (response <- fetchWithRetry fetch url options ;;
     let responseCode := getResponseCode response in
     if negb (responseCode =? 200)%N then
       log (LogLine (js "GET请求失败: HTTP " ++ decimal responseCode ++ js ", URL: "
                     ++ url)) ;;
       ret []
     else ret (getContentText response))
    (fun error =>
       log (LogLine (js "GET请求失败: " ++ url ++ js ", 错误: " ++ error)) ;;
       ret []).

(** [{ ...options, method: 'head' }] with the given timeout property. *)
Definition heading (timeout' : option N) (options : Options) : Options :=
  mkOptions (muteHttpExceptions options) (followRedirects options) (maxRedirects options)
            (maximumRedirects options) timeout' (Some (js "head"))
            (payload options) (contentType options) (headers options).

Definition checkUrlAccessible (fetch : Fetcher) (url : jsstring) (options : Options)
  : M World bool :=
  try_catch
    (response <-
       fetchWithRetry fetch url
                      (heading (Some (numOr (timeout options) 10000)) options) ;;
     let responseCode := getResponseCode response in
     ret ((200 <=? responseCode)%N && (responseCode <? 400)%N))
    (fun error =>
       log (LogLine (js "检查URL可访问性失败: " ++ url ++ js ", 错误: " ++ error)) ;;
       ret false).

Definition fetchHeaders (fetch : Fetcher) (url : jsstring) (options : Options)
  : M World Headers :=
  try_catch
    (response <- fetchWithRetry fetch url (heading (timeout options) options) ;;
     ret (getHeaders response))
    (fun error =>
       log (LogLine (js "获取响应头失败: " ++ url ++ js ", 错误: " ++ error)) ;;
       ret noHeaders).

(** A chain of redirects as the service answers it from instant [t] on:
    each hop is a redirect response naming the next address, and the last
    address answers [final], which is no redirect. *)
Fixpoint redirectsTo (fetch : Fetcher) (options : Options) (t : nat) (url : jsstring)
         (hops : list (N * jsstring)) (final : HTTPResponse) : Prop :=
  match hops with
  | [] => fetch t url options = Ok final /\ isRedirect (getResponseCode final) = false
  | (code, location) :: rest =>
    (exists response,
        fetch t url options = Ok response
        /\ getResponseCode response = code
        /\ firstTruthy (getHeaders response (js "Location"))
                       (getHeaders response (js "location")) = Some location)
    /\ isRedirect code = true
    /\ redirectsTo fetch options (S t) location rest final
  end.

(** The log lines of a followed chain. *)
Fixpoint redirectLines (url : jsstring) (hops : list (N * jsstring)) (redirectCount : nat)
  : list LogEntry :=
  match hops with
  | [] => []
  | (code, location) :: rest =>
    LogLine (js "处理重定向: " ++ url ++ js " -> " ++ location ++ js " ("
             ++ decimal code ++ js ", 第" ++ decimal (N.of_nat (redirectCount + 1))
             ++ js "次)")
    :: redirectLines location rest (redirectCount + 1)
  end.

End UtilsNetwork.

(** A service that answers every request with a redirect to one address. *)
Definition bouncing : UtilsNetwork.Fetcher :=
  fun _ _ _ =>
    Ok (UtilsNetwork.mkResponse
          302 []
          (fun k => if jseq k (js "Location") then Some (js "http://a.example/")
                    else None)).

(** A service moved once: the old address redirects to the new one, which
    serves a feed. *)
Definition movedOnce : UtilsNetwork.Fetcher :=
  fun _ url _ =>
    if jseq url (js "http://old.example/feed") then
      Ok (UtilsNetwork.mkResponse
            301 []
            (fun k => if jseq k (js "location") then Some (js "http://new.example/feed")
                      else None))
    else Ok (UtilsNetwork.mkResponse 200 (js "<rss/>") UtilsNetwork.noHeaders).

(* ===================================================================== *)
(** ** news_feed.js: NewsUtils.RSS, step by step *)
(* ===================================================================== *)

(** [RSS.fetchAndParse] above answers the whole reading of a feed by one
    call.  Here the steps of the source are followed one by one: the
    request through [UtilsNetwork.fetchXml], [XmlService.parse], the
    detection of the format and the walk of the document. *)
Module RSSDocument.

(** An element of a parsed document, as [XmlService] presents it: local
    name, namespace URI, attributes without namespace, own text and child
    elements in document order. *)
#[local] Set Warnings "-register-all".

Inductive Element : Type :=
| mkElement (getName : jsstring) (getNamespaceURI : jsstring)
            (attributes : list (jsstring * jsstring)) (getText : jsstring)
            (children : list Element).

Definition getName (e : Element) : jsstring :=
  match e with mkElement n _ _ _ _ => n end.

Definition getNamespaceURI (e : Element) : jsstring :=
  match e with mkElement _ u _ _ _ => u end.

Definition attributes (e : Element) : list (jsstring * jsstring) :=
  match e with mkElement _ _ a _ _ => a end.

Definition getText (e : Element) : jsstring :=
  match e with mkElement _ _ _ t _ => t end.

Definition children (e : Element) : list Element :=
  match e with mkElement _ _ _ _ c => c end.

Definition named (childName namespaceURI : jsstring) (e : Element) : bool :=
  jseq (getName e) childName && jseq (getNamespaceURI e) namespaceURI.

(** [parent.getChildren(childName, namespace)] *)
Definition getChildren (parent : Element) (childName namespaceURI : jsstring)
  : list Element :=
  filter (named childName namespaceURI) (children parent).

(** [parent.getChild(childName, namespace)]: the first such child, or [null] *)
Definition getChild (parent : Element) (childName namespaceURI : jsstring)
  : option Element :=
  find (named childName namespaceURI) (children parent).

(** [element.getAttribute(attrName)], then [getValue()] *)
Fixpoint getAttribute (attrs : list (jsstring * jsstring)) (attrName : jsstring)
  : option jsstring :=
  match attrs with
  | [] => None
  | (k, v) :: rest => if jseq k attrName then Some v else getAttribute rest attrName
  end.

Definition CONTENT_NS : jsstring := js "http://purl.org/rss/1.0/modules/content/".
Definition ATOM_NS : jsstring := js "http://www.w3.org/2005/Atom".

(** [getElementText(parent, childName, namespace = null)] *)
Definition getElementText (parent : Element) (childName : jsstring)
           (namespaceURI : option jsstring) : jsstring :=
  let child :=
      match namespaceURI with
      | Some uri => getChild parent childName uri
      | None => getChild parent childName (getNamespaceURI parent)
      end in
  match child with Some c => getText c | None => [] end.

(** [href ? href.getValue() : ''] *)
Definition hrefOf (link' : Element) : jsstring :=
  match getAttribute (attributes link') (js "href") with Some v => v | None => [] end.

(** [!rel || rel.getValue() === 'alternate'] *)
Definition preferred (link' : Element) : bool :=
  match getAttribute (attributes link') (js "rel") with
  | None => true
  | Some v => jseq v (js "alternate")
  end.

(** The [for ... of] loop of [getLink]: [Some] is its [return]. *)
Fixpoint firstPreferred (links : list Element) : option jsstring :=
  match links with
  | [] => None
  | link' :: rest => if preferred link' then Some (hrefOf link') else firstPreferred rest
  end.

Definition getLink (entry : Element) (atomNs : jsstring) : jsstring :=
  let links := getChildren entry (js "link") atomNs in
  match firstPreferred links with
  | Some href => href
  | None =>
    match links with
    | first :: _ => hrefOf first
    | [] => []
    end
  end.

(** The entry of one [item]; [pubDate] and [guid], which nothing reads,
    are left out. *)
Definition rssEntry (item : Element) : Entry :=
  mkEntry (getElementText item (js "title") None)
          (getElementText item (js "link") None)
          (getElementText item (js "description") None)
          (getElementText item (js "encoded") (Some CONTENT_NS))
          [] [].

Definition parseRSS (root : Element) : list Entry :=
  match getChild root (js "channel") (getNamespaceURI root) with
  | None => []
  | Some channel =>
    map rssEntry (getChildren channel (js "item") (getNamespaceURI channel))
  end.

(** The entry of one Atom [entry]; [published], [updated] and [id], which
    nothing reads, are left out. *)
Definition atomEntry (item : Element) : Entry :=
  mkEntry (getElementText item (js "title") (Some ATOM_NS))
          (getLink item ATOM_NS)
          []
          []
          (getElementText item (js "content") (Some ATOM_NS))
          (getElementText item (js "summary") (Some ATOM_NS)).

Definition parseAtom (root : Element) : list Entry :=
  map atomEntry (getChildren root (js "entry") ATOM_NS).

(** [feedType === 'atom' || rootName === 'feed' || namespaceUri.includes('atom')] *)
Definition looksAtom (feedType : FeedType) (root : Element) : bool :=
  match feedType with atom => true | rss => false end
  || jseq (getName root) (js "feed")
  || includes (getNamespaceURI root) (js "atom").

Definition entriesOf (feedType : FeedType) (root : Element) : list Entry :=
  if looksAtom feedType root then parseAtom root else parseRSS root.

(** [{ timeout: PERFORMANCE_CONFIG.requestTimeout, maxRedirects: 3 }] *)
Definition feedOptions : UtilsNetwork.Options :=
  UtilsNetwork.mkOptions None None (Some 3) None (Some 30000%N) None None None None.

(** [fetchAndParse(url, feedType)]; [parse] is [XmlService.parse] followed by
    [getRootElement], which throws on text that is no XML document. *)
Definition fetchAndParse (hasUtilsNetwork : bool) (fetch : UtilsNetwork.Fetcher)
           (parse : jsstring -> outcome Element) (url' : jsstring) (feedType : FeedType)
  : M World (list Entry) :=
  try_catch
    (if negb hasUtilsNetwork
     then throw (js "UtilsNetwork对象或fetchXml函数不可用，请确保已部署utils_network.js文件")
     else
       xmlText <- UtilsNetwork.fetchXml fetch url' feedOptions ;;
       root <- Content.liftOutcome (parse xmlText) ;;
       let entries := entriesOf feedType root in
       Utils.logAction (js "解析RSS内容") None ;;
       ret entries)
    (fun error =>
       Utils.logError error (js "获取或解析RSS: " ++ url') ;;
       ret []).

End RSSDocument.

(** [NewsUtils.Content.getContentSourceName(entry, contentSources, rawContent)];
    the source does not read [contentSources]. *)
Definition getContentSourceName (entry : Entry) (rawContent : jsstring) : jsstring :=
  if jseq rawContent (content_encoded entry) then js "content:encoded"
  else if jseq rawContent (content entry) then js "content"
  else if jseq rawContent (description entry) then js "description"
  else if jseq rawContent (summary entry) then js "summary"
  else js "unknown".

(** [Utils.hasExcludedChars(text, excludedArray)]; an absent array is [None]. *)
Definition hasExcludedChars (text : jsstring) (excludedArray : option (list jsstring))
  : bool :=
  match excludedArray with
  | None => false
  | Some chars =>
    if length chars =? 0 then false else existsb (fun char => includes text char) chars
  end.

(** An Atom entry with a self link before its alternate link. *)
Definition atomSample : RSSDocument.Element :=
  RSSDocument.mkElement
    (js "entry") RSSDocument.ATOM_NS [] []
    [RSSDocument.mkElement (js "link") RSSDocument.ATOM_NS
                           [(js "rel", js "self"); (js "href", js "http://a.example/self")]
                           [] [];
     RSSDocument.mkElement (js "link") RSSDocument.ATOM_NS
                           [(js "rel", js "alternate"); (js "href", js "http://a.example/post")]
                           [] []].

(* ===================================================================== *)
(** ** utils_google_drive.js: cleanFilesInFolder *)
(* ===================================================================== *)

Module FolderCleaning.




Inductive Filter : Type :=
| time (olderThan : option jsstring) (field : option jsstring)
| filename_pattern (pattern : option jsstring)
| exclude_chars (chars : option (list jsstring))
| no_extension
| has_extension (extensions : option (list jsstring))
| min_size (bytes : option N)
| max_size (bytes : option N)
| other (type' : jsstring).






(** [{ ...defaults, ...options }] *)
Record Config : Type := mkConfig {
  filters : list Filter;
  action : jsstring;
  maxFiles : nat;
  dryRun : bool;
  returnFileList : bool
}.

Definition defaults : Config := mkConfig [] (js "trash") 0 false false.
















End FolderCleaning.



(* ===================================================================== *)
(** ** The model at work *)
(* ===================================================================== *)

Example js_cjk : js "记者" = [35760; 32773]%N.
Proof. reflexivity. Qed.

Example trim_ex : trim (js "  1 , x  ") = js "1 , x".
Proof. reflexivity. Qed.

Example split_ex : split COMMA (js "a,,b,") = [js "a"; []; js "b"; []].
Proof. reflexivity. Qed.

Example strip_ex :
  stripPaired (js "<think>") (js "</think>") (js "a<THINK>zz</think>b<think>c")
  = js "ab<think>c".
Proof. reflexivity. Qed.

Example removeAll_ex : removeAll (js "(完)") (js "x(完)y(完)") = js "xy".
Proof. reflexivity. Qed.

Example classify_finance :
  fst (AI.classifyNewsByTitle (Scenario.answering (js "1,finance")) (js "Central bank cuts rates")
                              Scenario.w0)
  = Ok (mkClassification true (js "finance")).
Proof. vm_compute. reflexivity. Qed.

Example classify_think :
  fst (AI.classifyNewsByTitle
         (Scenario.answering (js "<think>hmm, 1 or 0</think>
0,体育新闻")) (js "t") Scenario.w0)
  = Ok (mkClassification false (js "体育新闻")).
Proof. vm_compute. reflexivity. Qed.

Example classify_maybe :
  AI.classifyNewsByTitle (Scenario.answering (js "maybe")) (js "t") Scenario.w0
  = (Ok AI.failedClassification,
     mkWorld 1 [LogError (js "AI分类标题: t...") (js "AI响应格式错误: maybe")] []).
Proof. vm_compute. reflexivity. Qed.

(* ===================================================================== *)
(** ** Facts about strings *)
(* ===================================================================== *)

Lemma jseq_true_iff (a b : jsstring) : jseq a b = true <-> a = b.
Proof.
  revert b; induction a as [|x a IH]; intros [|y b]; simpl; split; intro H;
    try reflexivity; try discriminate.
  - apply andb_true_iff in H as [Hx Hr]. apply N.eqb_eq in Hx.
    apply IH in Hr. now subst.
  - injection H as -> ->. rewrite N.eqb_refl. simpl. now apply IH.
Qed.

Lemma jseq_refl (a : jsstring) : jseq a a = true.
Proof. now apply jseq_true_iff. Qed.

Lemma trimStart_incl (s : jsstring) (c : N) : In c (trimStart s) -> In c s.
Proof.
  induction s as [|x s IH]; simpl; [tauto|].
  destruct (isWhiteSpace x); simpl; tauto.
Qed.

Lemma trim_incl (s : jsstring) (c : N) : In c (trim s) -> In c s.
Proof.
  unfold trim, trimEnd. intro H.
  apply in_rev in H. apply trimStart_incl in H. apply in_rev in H.
  now apply trimStart_incl.
Qed.

Lemma split_not_nil (sep : N) (s : jsstring) : split sep s <> [].
Proof.
  induction s as [|c s IH]; simpl; [discriminate|].
  destruct (c =? sep)%N; [discriminate|].
  destruct (split sep s); [contradiction|discriminate].
Qed.

Lemma split_segments_free (sep : N) (s : jsstring) :
  Forall (fun p => ~ In sep p) (split sep s).
Proof.
  induction s as [|c s IH]; simpl.
  - constructor; [tauto|constructor].
  - destruct (c =? sep)%N eqn:E.
    + constructor; [tauto|assumption].
    + pose proof (split_not_nil sep s) as Hne.
      destruct (split sep s) as [|h t]; [contradiction|].
      inversion IH; subst. constructor; [|assumption].
      simpl. intros [->|Hin]; [now rewrite N.eqb_refl in E|contradiction].
Qed.

Lemma cut_comma_free (p : jsstring) :
  ~ In COMMA p -> Spec.cutAtFirstComma p = None.
Proof.
  induction p as [|c p IH]; simpl; intro H; [reflexivity|].
  destruct (c =? COMMA)%N eqn:E.
  - apply N.eqb_eq in E. tauto.
  - rewrite IH; tauto.
Qed.

Lemma cut_at_comma (p rest : jsstring) :
  ~ In COMMA p -> Spec.cutAtFirstComma (p ++ COMMA :: rest) = Some (p, rest).
Proof.
  induction p as [|c p IH]; simpl; intro H.
  - reflexivity.
  - destruct (c =? COMMA)%N eqn:E.
    + apply N.eqb_eq in E. tauto.
    + rewrite IH; tauto.
Qed.

Lemma join_cons2 (sep p q : jsstring) (rest : list jsstring) :
  join sep (p :: q :: rest) = p ++ sep ++ join sep (q :: rest).
Proof. reflexivity. Qed.

(* ===================================================================== *)
(** ** The classifier and the summarizer *)
(* ===================================================================== *)

(** What [classifyNewsByTitle] does, by the outcome of the oracle call. *)
Lemma classify_run (env : Env) (title' : jsstring) (w : World) :
  AI.classifyNewsByTitle env title' w =
  let context := js "AI分类标题: " ++ substring0 50 title' ++ js "..." in
  match AI.callGroq env (AI_CLASSIFICATION_PROMPT ++ title') w with
  | (Throw e, w1) => (Ok AI.failedClassification, logged (LogError context e) w1)
  | (Ok raw, w1) =>
    let response := AI.cleanThinkingTags raw in
    match AI.responseParts response with
    | flag :: seg :: segs =>
      if jseq flag (js "0") || jseq flag (js "1") then
        (Ok (mkClassification (jseq flag (js "1")) (join [COMMA] (seg :: segs))),
         logged (LogAction (js "AI分类结果") (Some (shortTitle title'))) w1)
      else
        (Ok AI.failedClassification,
         logged (LogError context (js "AI响应中的保存标志无效: " ++ flag)) w1)
    | _ =>
      (Ok AI.failedClassification,
       logged (LogError context (js "AI响应格式错误: " ++ response)) w1)
    end
  end.
Proof.
  unfold AI.classifyNewsByTitle, try_catch, bind at 1.
  cbv zeta.
  destruct (AI.callGroq env (AI_CLASSIFICATION_PROMPT ++ title') w) as [[raw|e] w1];
    [|reflexivity].
  destruct (AI.responseParts (AI.cleanThinkingTags raw)) as [|flag [|seg segs]];
    try reflexivity.
  change (length (flag :: seg :: segs) <? 2) with false. cbv iota.
  change (hd [] (flag :: seg :: segs)) with flag.
  change (tl (flag :: seg :: segs)) with (seg :: segs).
  destruct (jseq flag (js "0")), (jseq flag (js "1")); reflexivity.
Qed.

Lemma summarize_run (env : Env) (content' : jsstring) (w : World) :
  AI.summarizeContent env content' w =
  match AI.callGroq env (AI_SUMMARIZATION_PROMPT ++ content') w with
  | (Throw e, w1) =>
    (Ok content', logged (LogError (js "AI内容总结失败，返回原内容") e) w1)
  | (Ok raw, w1) => (Ok (AI.cleanThinkingTags raw), w1)
  end.
Proof.
  unfold AI.summarizeContent, try_catch, bind.
  destruct (AI.callGroq env (AI_SUMMARIZATION_PROMPT ++ content') w) as [[raw|e] w1];
    reflexivity.
Qed.

(** The oracle call touches neither the log nor Drive. *)
Lemma callGroq_frame (env : Env) (prompt : jsstring) (w : World) :
  logs (snd (AI.callGroq env prompt w)) = logs w
  /\ drive (snd (AI.callGroq env prompt w)) = drive w.
Proof.
  unfold AI.callGroq. destruct (hasUtilsAI env); simpl; auto.
Qed.

Lemma join_split (sep : N) (s : jsstring) : join [sep] (split sep s) = s.
Proof.
  induction s as [|c s IH]; [reflexivity|].
  simpl split. pose proof (split_not_nil sep s) as Hne.
  destruct (c =? sep)%N eqn:E.
  - apply N.eqb_eq in E. subst c.
    destruct (split sep s) as [|h t]; [contradiction|].
    rewrite join_cons2. simpl. now rewrite <- IH.
  - destruct (split sep s) as [|h t]; [contradiction|].
    rewrite <- IH. destruct t; reflexivity.
Qed.

Lemma map_trim_fixed (parts : list jsstring) :
  Forall (fun p => trim p = p) parts -> map trim parts = parts.
Proof.
  induction 1 as [|p parts Hp _ IH]; simpl; [reflexivity|]. now rewrite Hp, IH.
Qed.

(** The source's parse of the trimmed segments is the specification's
    parse of the response once every segment is trimmed. *)
Lemma parse_of_trimmed_segments (response : jsstring) :
  Spec.parseClassification (join [COMMA] (map trim (split COMMA response))) =
  match map trim (split COMMA response) with
  | flag :: seg :: segs =>
    if jseq flag (js "0") || jseq flag (js "1")
    then mkClassification (jseq flag (js "1")) (join [COMMA] (seg :: segs))
    else AI.failedClassification
  | _ => AI.failedClassification
  end.
Proof.
  pose proof (split_segments_free COMMA response) as Hfree.
  pose proof (split_not_nil COMMA response) as Hne.
  destruct (split COMMA response) as [|p0 ps]; [contradiction|].
  inversion Hfree as [|? ? Hp0 _]; subst.
  assert (Hflag : ~ In COMMA (trim p0)) by (intro Hin; apply Hp0; now apply trim_incl).
  unfold Spec.parseClassification.
  destruct ps as [|q qs].
  - simpl map. simpl join. now rewrite cut_comma_free.
  - change (map trim (p0 :: q :: qs)) with (trim p0 :: trim q :: map trim qs).
    rewrite join_cons2. change ([COMMA] ++ ?x) with (COMMA :: x).
    rewrite cut_at_comma by assumption.
    destruct (jseq (trim p0) (js "0")), (jseq (trim p0) (js "1")); reflexivity.
Qed.

(** C3 (amended).  [classifyNewsByTitle] never throws.  When the oracle
    call fails it returns the failure classification.  When the oracle
    answers, the result is the specification's [flag,category] parse
    (flag exactly [0] or [1], category the remainder after the first
    comma, anything else the failure classification) applied to the
    tag-stripped answer after each comma-separated segment has been
    trimmed; it is the parse of the tag-stripped answer itself whenever no
    segment carries surrounding white space.  The three sample answers of
    the specification are parsed as it says. *)
Theorem classify_parses_trimmed_response (env : Env) (title' : jsstring) (w : World) :
  exists c w',
    AI.classifyNewsByTitle env title' w = (Ok c, w')
    /\ (forall e,
           fst (AI.callGroq env (AI_CLASSIFICATION_PROMPT ++ title') w) = Throw e ->
           c = mkClassification false CLASSIFICATION_FAILED)
    /\ (forall raw,
           fst (AI.callGroq env (AI_CLASSIFICATION_PROMPT ++ title') w) = Ok raw ->
           c = Spec.parseClassification
                 (join [COMMA] (map trim (split COMMA (AI.cleanThinkingTags raw))))
           /\ (Forall (fun p => trim p = p) (split COMMA (AI.cleanThinkingTags raw)) ->
               c = Spec.parseClassification (AI.cleanThinkingTags raw)))
    /\ (fst (AI.callGroq env (AI_CLASSIFICATION_PROMPT ++ title') w) = Ok (js "1,finance") ->
        c = mkClassification true (js "finance"))
    /\ (fst (AI.callGroq env (AI_CLASSIFICATION_PROMPT ++ title') w) = Ok (js "0,sports") ->
        c = mkClassification false (js "sports"))
    /\ (fst (AI.callGroq env (AI_CLASSIFICATION_PROMPT ++ title') w) = Ok (js "maybe") ->
        c = mkClassification false CLASSIFICATION_FAILED).
Proof.
  rewrite classify_run. cbv zeta.
  destruct (AI.callGroq env (AI_CLASSIFICATION_PROMPT ++ title') w) as [[raw|e] w1];
    cbn [fst].
  - assert (Hparse :
      exists w',
        match AI.responseParts (AI.cleanThinkingTags raw) with
        | flag :: seg :: segs =>
          if jseq flag (js "0") || jseq flag (js "1") then
            (Ok (mkClassification (jseq flag (js "1")) (join [COMMA] (seg :: segs))),
             logged (LogAction (js "AI分类结果") (Some (shortTitle title'))) w1)
          else
            (Ok AI.failedClassification,
             logged (LogError (js "AI分类标题: " ++ substring0 50 title' ++ js "...")
                              (js "AI响应中的保存标志无效: " ++ flag)) w1)
        | _ =>
          (Ok AI.failedClassification,
           logged (LogError (js "AI分类标题: " ++ substring0 50 title' ++ js "...")
                            (js "AI响应格式错误: " ++ AI.cleanThinkingTags raw)) w1)
        end
        = (Ok (Spec.parseClassification
                 (join [COMMA] (map trim (split COMMA (AI.cleanThinkingTags raw))))), w')).
    { rewrite parse_of_trimmed_segments. unfold AI.responseParts.
      destruct (map trim (split COMMA (AI.cleanThinkingTags raw))) as [|flag [|seg segs]];
        try (eexists; reflexivity).
      destruct (jseq flag (js "0") || jseq flag (js "1")); eexists; reflexivity. }
    destruct Hparse as [w' Hw']. rewrite Hw'.
    eexists. exists w'. split; [reflexivity|].
    split; [discriminate|].
    split.
    { intros raw' Hraw. injection Hraw as <-. split; [reflexivity|].
      intro Hfix. now rewrite (map_trim_fixed _ Hfix), join_split. }
    repeat split; intro Hraw; injection Hraw as ->; vm_compute; reflexivity.
  - eexists. eexists. split; [reflexivity|].
    split; [reflexivity|].
    split; [discriminate|].
    repeat split; discriminate.
Qed.

Lemma classify_parses_trimmed_response_witness :
  exists c w',
    AI.classifyNewsByTitle (Scenario.answering (js "1,finance")) (js "t") Scenario.w0
    = (Ok c, w')
    /\ c = mkClassification true (js "finance").
Proof.
  destruct (classify_parses_trimmed_response
              (Scenario.answering (js "1,finance")) (js "t") Scenario.w0)
    as (c & w' & Hrun & _ & _ & Hfinance & _).
  exists c, w'. split; [exact Hrun|]. apply Hfinance. reflexivity.
Defined.

(** C3 (counterexample).  On the answer [1,a, b] the classifier returns the
    category [a,b], while the remainder after the first comma is [a, b]:
    the result is not the specification's parse of the tag-stripped
    answer. *)
Lemma classify_category_is_not_the_remainder :
  fst (AI.classifyNewsByTitle (Scenario.answering (js "1,a, b")) (js "t") Scenario.w0)
  = Ok (mkClassification true (js "a,b"))
  /\ Spec.parseClassification (AI.cleanThinkingTags (js "1,a, b"))
     = mkClassification true (js "a, b")
  /\ fst (AI.classifyNewsByTitle (Scenario.answering (js "1,a, b")) (js "t") Scenario.w0)
     <> Ok (Spec.parseClassification (AI.cleanThinkingTags (js "1,a, b"))).
Proof.
  split; [vm_compute; reflexivity|].
  split; [vm_compute; reflexivity|].
  vm_compute. discriminate.
Qed.

(** C10.  The parser trims every comma-separated segment of the
    tag-stripped answer before reading it: the flag is the trimmed first
    segment, and the category is the trimmed remaining segments joined by
    bare commas.  So [ 1 , finance ] gives keep with category [finance],
    and in [1, a , b] the white space around the inner comma is dropped
    (category [a,b]). *)
Theorem classify_trims_every_segment (env : Env) (title' : jsstring) (w : World) :
  (forall raw flag seg segs,
      fst (AI.callGroq env (AI_CLASSIFICATION_PROMPT ++ title') w) = Ok raw ->
      split COMMA (AI.cleanThinkingTags raw) = flag :: seg :: segs ->
      trim flag = js "0" \/ trim flag = js "1" ->
      fst (AI.classifyNewsByTitle env title' w)
      = Ok (mkClassification (jseq (trim flag) (js "1"))
                             (join [COMMA] (map trim (seg :: segs)))))
  /\ (fst (AI.callGroq env (AI_CLASSIFICATION_PROMPT ++ title') w) = Ok (js " 1 , finance ") ->
      fst (AI.classifyNewsByTitle env title' w) = Ok (mkClassification true (js "finance")))
  /\ (fst (AI.callGroq env (AI_CLASSIFICATION_PROMPT ++ title') w) = Ok (js "1, a , b") ->
      fst (AI.classifyNewsByTitle env title' w) = Ok (mkClassification true (js "a,b"))).
Proof.
  rewrite classify_run. cbv zeta.
  destruct (AI.callGroq env (AI_CLASSIFICATION_PROMPT ++ title') w) as [[raw|e] w1];
    cbn [fst].
  - split; [|split].
    + intros raw' flag seg segs Hraw Hsplit Hflag. injection Hraw as <-.
      unfold AI.responseParts. rewrite Hsplit.
      change (map trim (flag :: seg :: segs)) with (trim flag :: map trim (seg :: segs)).
      change (map trim (seg :: segs)) with (trim seg :: map trim segs).
      destruct Hflag as [-> | ->]; reflexivity.
    + intro Hraw. injection Hraw as ->. vm_compute. reflexivity.
    + intro Hraw. injection Hraw as ->. vm_compute. reflexivity.
  - split; [|split]; discriminate.
Qed.

Lemma classify_trims_every_segment_witness :
  fst (AI.classifyNewsByTitle (Scenario.answering (js " 1 , finance ")) (js "t") Scenario.w0)
  = Ok (mkClassification true (js "finance"))
  /\ fst (AI.classifyNewsByTitle (Scenario.answering (js "0 , a ,b ")) (js "t") Scenario.w0)
     = Ok (mkClassification false (js "a,b")).
Proof.
  split.
  - apply (classify_trims_every_segment
             (Scenario.answering (js " 1 , finance ")) (js "t") Scenario.w0).
    reflexivity.
  - apply (proj1 (classify_trims_every_segment
                    (Scenario.answering (js "0 , a ,b ")) (js "t") Scenario.w0)
                 (js "0 , a ,b ") (js "0 ") (js " a ") [js "b"]).
    + reflexivity.
    + reflexivity.
    + left. reflexivity.
Defined.

(** C4 (amended).  Whenever the keep decision is true, the oracle answered,
    the trimmed first segment of its tag-stripped answer is [1], and the
    category returned is exactly the category text of that answer (the
    trimmed remaining segments joined by commas).  The category is not
    checked against the vocabulary, so it differs from the failure
    category unless the answer itself names it; the failure
    classification built by the classifier always has keep false. *)
Theorem keep_category_is_the_oracles (env : Env) (title' : jsstring) (w w' : World)
        (c : Classification) :
  AI.classifyNewsByTitle env title' w = (Ok c, w') ->
  shouldSave c = true ->
  shouldSave AI.failedClassification = false
  /\ exists raw seg segs,
      fst (AI.callGroq env (AI_CLASSIFICATION_PROMPT ++ title') w) = Ok raw
      /\ map trim (split COMMA (AI.cleanThinkingTags raw)) = js "1" :: seg :: segs
      /\ category c = join [COMMA] (seg :: segs)
      /\ (join [COMMA] (seg :: segs) <> CLASSIFICATION_FAILED ->
          category c <> CLASSIFICATION_FAILED).
Proof.
  rewrite classify_run. cbv zeta.
  destruct (AI.callGroq env (AI_CLASSIFICATION_PROMPT ++ title') w) as [[raw|e] w1];
    cbn [fst].
  - unfold AI.responseParts.
    destruct (map trim (split COMMA (AI.cleanThinkingTags raw)))
      as [|flag [|seg segs]] eqn:Hparts.
    + intros H; injection H as <- _. discriminate.
    + intros H; injection H as <- _. discriminate.
    + destruct (jseq flag (js "0") || jseq flag (js "1")).
      * intros H Hkeep. injection H as <- _. cbn [shouldSave] in Hkeep.
        apply jseq_true_iff in Hkeep. subst flag.
        split; [reflexivity|].
        exists raw, seg, segs. cbn [category]. repeat split; auto.
      * intros H; injection H as <- _. discriminate.
  - intros H; injection H as <- _. discriminate.
Qed.

Lemma keep_category_is_the_oracles_witness :
  exists raw seg segs,
    fst (AI.callGroq (Scenario.answering (js "1,finance"))
                     (AI_CLASSIFICATION_PROMPT ++ js "t") Scenario.w0) = Ok raw
    /\ map trim (split COMMA (AI.cleanThinkingTags raw)) = js "1" :: seg :: segs
    /\ js "finance" = join [COMMA] (seg :: segs).
Proof.
  destruct (@keep_category_is_the_oracles
              (Scenario.answering (js "1,finance")) (js "t") Scenario.w0
              (mkWorld 1 [LogAction (js "AI分类结果") (Some (js "t"))] [])
              (mkClassification true (js "finance")))
    as (_ & raw & seg & segs & Hraw & Hparts & Hcat & _).
  - vm_compute. reflexivity.
  - reflexivity.
  - exists raw, seg, segs. repeat split; assumption.
Defined.

(** C4 (counterexample).  The oracle may answer [1,分类失败]: the classifier
    then returns keep = true together with the failure category. *)
Lemma keep_true_with_failure_category :
  exists c w',
    AI.classifyNewsByTitle (Scenario.answering (js "1,分类失败")) (js "t") Scenario.w0
    = (Ok c, w')
    /\ shouldSave c = true
    /\ category c = CLASSIFICATION_FAILED.
Proof.
  eexists. eexists. split; [vm_compute; reflexivity|].
  split; reflexivity.
Qed.

(** C7.  When the summarization oracle call throws, [summarizeContent]
    returns its argument unchanged and does not throw (only a log line is
    added); when the classification oracle call throws, the classifier
    instead returns the failure classification, which discards the item. *)
Theorem summarize_fails_open (env : Env) (content' : jsstring) (w : World) (e : JsError) :
  fst (AI.callGroq env (AI_SUMMARIZATION_PROMPT ++ content') w) = Throw e ->
  (exists w',
      AI.summarizeContent env content' w = (Ok content', w')
      /\ drive w' = drive w
      /\ logs w' = logs w ++ [LogError (js "AI内容总结失败，返回原内容") e])
  /\ (forall title' e',
         fst (AI.callGroq env (AI_CLASSIFICATION_PROMPT ++ title') w) = Throw e' ->
         fst (AI.classifyNewsByTitle env title' w) = Ok (mkClassification false CLASSIFICATION_FAILED)).
Proof.
  intro Hthrow. split.
  - rewrite summarize_run.
    pose proof (callGroq_frame env (AI_SUMMARIZATION_PROMPT ++ content') w) as [Hl Hd].
    destruct (AI.callGroq env (AI_SUMMARIZATION_PROMPT ++ content') w) as [[raw|e0] w1];
      cbn [fst snd] in *; [discriminate|].
    injection Hthrow as ->.
    eexists. split; [reflexivity|]. unfold logged; cbn [drive logs].
    now rewrite Hl, Hd.
  - intros title' e' Hc. rewrite classify_run. cbv zeta.
    destruct (AI.callGroq env (AI_CLASSIFICATION_PROMPT ++ title') w) as [[raw|e0] w1];
      cbn [fst] in *; [discriminate|reflexivity].
Qed.

Lemma summarize_fails_open_witness :
  exists w',
    AI.summarizeContent Scenario.failing (js "a long article") Scenario.w0
    = (Ok (js "a long article"), w')
    /\ drive w' = drive Scenario.w0
    /\ logs w' = logs Scenario.w0
                 ++ [LogError (js "AI内容总结失败，返回原内容") (js "quota")].
Proof.
  apply (@summarize_fails_open Scenario.failing (js "a long article") Scenario.w0 (js "quota")).
  reflexivity.
Defined.

(* ===================================================================== *)
(** ** The footer scrubber *)
(* ===================================================================== *)

Lemma includes_true_iff (s pat : jsstring) :
  includes s pat = true <-> exists a b, s = a ++ pat ++ b.
Proof.
  assert (Hsw : forall p t, startsWith p t = true <-> exists b, t = p ++ b).
  { induction p as [|x p IH]; intros t; simpl.
    - split; [intros _; now exists t|reflexivity].
    - destruct t as [|c t].
      + split; [discriminate|intros [b Hb]; discriminate].
      + rewrite andb_true_iff, N.eqb_eq, IH. split.
        * intros [-> [b ->]]. now exists b.
        * intros [b Hb]. injection Hb as -> ->. split; [reflexivity|now exists b]. }
  induction s as [|c s IH]; simpl; rewrite orb_true_iff, Hsw.
  - split.
    + intros [[b Hb]|]; [|discriminate]. exists [], b. exact Hb.
    + intros (a & b & Hab). left. destruct a; [now exists b|discriminate].
  - rewrite IH. split.
    + intros [[b Hb]|(a & b & ->)]; [exists [], b; exact Hb|now exists (c :: a), b].
    + intros ([|x a] & b & Hab).
      * left. now exists b.
      * right. injection Hab as -> ->. now exists a, b.
Qed.








Lemma startIndexOf_eq (lines : list jsstring) :
  Content.startIndexOf lines = length lines - 11.
Proof. unfold Content.startIndexOf, Content.linesToCheck. lia. Qed.

(** The scrubber on a text that is not blank. *)
Lemma cleanFooter_run (content' : jsstring) :
  nonBlank content' = true ->
  Content.cleanFooterContent content' =
  let lines := split LF content' in
  trim (join [LF] (firstn (length lines - 11) lines
                   ++ Content.processLines (skipn (length lines - 11) lines))).
Proof.
  unfold nonBlank, Content.cleanFooterContent. intro Hnb.
  apply andb_true_iff in Hnb as [Hne Hlen].
  apply negb_true_iff in Hne. rewrite Hne. cbn [orb].
  destruct (length (trim content')) as [|n] eqn:Hl; [discriminate|].
  change (S n =? 0) with false. cbv iota zeta.
  pose proof (split_not_nil LF content') as Hsplit.
  rewrite startIndexOf_eq.
  destruct (split LF content') as [|l ls]; [contradiction|reflexivity].
Qed.

Lemma cleanFooter_blank (content' : jsstring) :
  nonBlank content' = false -> Content.cleanFooterContent content' = content'.
Proof.
  unfold nonBlank, Content.cleanFooterContent. intro Hnb.
  destruct (isEmpty content'); [reflexivity|]. cbn [negb andb orb] in *.
  destruct (length (trim content')); [reflexivity|discriminate].
Qed.

Lemma trimStart_has (s : jsstring) (c : N) :
  In c s -> isWhiteSpace c = false -> In c (trimStart s).
Proof.
  intros Hin Hc. induction s as [|x s IH]; [contradiction|].
  simpl. destruct (isWhiteSpace x) eqn:Hx.
  - destruct Hin as [->|Hin]; [congruence|now apply IH].
  - exact Hin.
Qed.

Lemma trim_has (s : jsstring) (c : N) :
  In c s -> isWhiteSpace c = false -> In c (trim s).
Proof.
  intros Hin Hc. unfold trim, trimEnd.
  apply in_rev. rewrite rev_involutive. apply trimStart_has; [|assumption].
  apply -> in_rev. now apply trimStart_has.
Qed.

Lemma nonBlank_of_unit (s : jsstring) (c : N) :
  In c s -> isWhiteSpace c = false -> nonBlank s = true.
Proof.
  intros Hin Hc. unfold nonBlank.
  pose proof (trim_has s c Hin Hc) as Ht.
  destruct s; [contradiction|]. destruct (trim (n :: s)); [contradiction|reflexivity].
Qed.





Example footer_scrub_sample :
  Content.cleanFooterContent sampleArticle
  = join [LF]
         [js "l1"; js "l2"; js "l3"; js "l4"; js "l5";
          js "新华社记者报道"; js "l7"; js "l8"; js "l9"; js "l10";
          js "l11"; js "l12"; js "l13"; js "l14"; js "l15";
          js "l17"; js "l18"; js "l19"; js "l20"].
Proof. vm_compute. reflexivity. Qed.


(** The window itself holds eleven lines, not ten: in an eleven-line text
    the first line, eleventh from the end, is scrubbed like the others. *)
Example footer_window_reaches_eleventh_line :
  Content.cleanFooterContent
    (join [LF] [js "记者 张三"; js "l2"; js "l3"; js "l4"; js "l5"; js "l6";
                js "l7"; js "l8"; js "l9"; js "l10"; js "l11"])
  = join [LF] [js "l2"; js "l3"; js "l4"; js "l5"; js "l6";
               js "l7"; js "l8"; js "l9"; js "l10"; js "l11"].
Proof. vm_compute. reflexivity. Qed.

(* ===================================================================== *)
(** ** The detail-page extractor: fallback to the body *)
(* ===================================================================== *)

Lemma bodyCapture_class (s g : jsstring) :
  Content.bodyCapture s = Some g -> Forall (fun c => Content.inBodyClass c = true) g.
Proof.
  revert g. induction s as [|c s IH]; intros g.
  - intro H. vm_compute in H. discriminate.
  - unfold Content.bodyCapture; fold Content.bodyCapture.
    destruct (startsWithCI (js "</body>") (c :: s)).
    + intros H; injection H as <-. constructor.
    + destruct (Content.inBodyClass c) eqn:Hc; [|discriminate].
      destruct (Content.bodyCapture s) as [g'|]; [|discriminate].
      intros H; injection H as <-. constructor; [assumption|now apply IH].
Qed.

Lemma afterBodyOpen_class (s g : jsstring) :
  Content.afterBodyOpen s = Some g -> Forall (fun c => Content.inBodyClass c = true) g.
Proof.
  induction s as [|c s IH]; simpl; [discriminate|].
  destruct (c =? 62)%N; [apply bodyCapture_class|exact IH].
Qed.

(** The body pattern only ever captures backslashes and the letter s. *)
Lemma bodyMatch_class (html g : jsstring) :
  Content.bodyMatch html = Some g -> Forall (fun c => Content.inBodyClass c = true) g.
Proof.
  induction html as [|c html IH].
  - simpl. discriminate.
  - unfold Content.bodyMatch; fold Content.bodyMatch.
    destruct (startsWithCI (js "<body") (c :: html)).
    + destruct (Content.afterBodyOpen (skipn 5 (c :: html))) as [g'|] eqn:Hopen.
      * intros H; injection H as <-. now apply afterBodyOpen_class in Hopen.
      * exact IH.
    + exact IH.
Qed.

(** C6 (the code at the failing input).  No selector is accepted on
    [samplePage] and the page has a body element, yet the body pattern
    does not match it: the content taken is the whole document, head
    included, and not the content of the body. *)
Theorem body_fallback_takes_whole_document :
  Content.selectContent servingSamplePage samplePage Content.defaultSelectors = Ok []
  /\ Content.bodyMatch samplePage = None
  /\ Content.fallbackContent samplePage = samplePage
  /\ Content.fallbackContent samplePage <> js "<p>hello world</p>"
  /\ fst (Content.fetchDetailPageContent servingSamplePage (js "https://example.com/a")
                                         None Scenario.w0)
     = Ok samplePage.
Proof.
  repeat split; try (vm_compute; reflexivity).
  vm_compute. discriminate.
Qed.

(** The pattern does match a body made of the letters of its class. *)
Example body_fallback_class_only :
  Content.fallbackContent (js "<html><BODY class=x>sSs\</body></html>") = js "sSs\".
Proof. vm_compute. reflexivity. Qed.

(* ===================================================================== *)
(** ** Persistence *)
(* ===================================================================== *)

Import UtilsGoogleDrive.

Lemma filesNamed_setFirst (key body : jsstring) (d : list DriveFile) :
  filesNamed key d <> [] ->
  exists old rest,
    filesNamed key d = old :: rest
    /\ filesNamed key (setFirst key body d) = mkFile (fileName old) body :: rest.
Proof.
  unfold filesNamed. induction d as [|f d IH]; simpl; [congruence|].
  destruct (jseq (fileName f) key) eqn:Hf.
  - intros _. exists f, (filter (fun f0 => jseq (fileName f0) key) d).
    split; [reflexivity|]. simpl. now rewrite Hf.
  - intro Hne. destruct (IH Hne) as (old & rest & Hold & Hnew).
    exists old, rest. split; [assumption|]. simpl. now rewrite Hf.
Qed.

Lemma filesNotNamed_setFirst (key body : jsstring) (d : list DriveFile) :
  filesNotNamed key (setFirst key body d) = filesNotNamed key d.
Proof.
  unfold filesNotNamed. induction d as [|f d IH]; simpl; [reflexivity|].
  destruct (jseq (fileName f) key) eqn:Hf; simpl; rewrite Hf; simpl.
  - reflexivity.
  - now rewrite IH.
Qed.


(** After a save went through, the key names at least one file, the first
    of them holds the body saved, no file of that name was added when one
    existed, and the files under other names are as before. *)
Lemma stored_spec (key body : jsstring) (d : list DriveFile) :
  (exists rest, filesNamed key (stored key body d) = mkFile key body :: rest)
  /\ length (filesNamed key (stored key body d)) = Nat.max 1 (length (filesNamed key d))
  /\ filesNotNamed key (stored key body d) = filesNotNamed key d.
Proof.
  unfold stored. destruct (filesNamed key d) as [|old rest] eqn:Hd.
  - unfold filesNamed, filesNotNamed in *. rewrite !filter_app, Hd. simpl.
    rewrite jseq_refl. simpl. repeat split.
    + now exists [].
    + now rewrite app_nil_r.
  - destruct (filesNamed_setFirst key body d) as (old' & rest' & Hold & Hnew);
      [now rewrite Hd|].
    rewrite Hd in Hold. injection Hold as <- <-.
    assert (Hname : fileName old = key).
    { assert (Hin : In old (filesNamed key d)) by (rewrite Hd; now left).
      unfold filesNamed in Hin. apply filter_In in Hin as [_ Hin].
      now apply jseq_true_iff. }
    rewrite Hnew, Hname. repeat split.
    + now exists rest.
    + apply filesNotNamed_setFirst.
Qed.

(** A [saveOrUpdateFile] that returns [true] has performed the
    update-or-create step, and nothing else, on the folder. *)
Lemma saveOrUpdateFile_true (env : Env) (folder key body : jsstring) (w w' : World) :
  saveOrUpdateFile env (Some folder) key body w = (Ok true, w') ->
  drive w' = stored key body (drive w).
Proof.
  unfold saveOrUpdateFile, stored, filesNamed.
  destruct (isEmpty key || (length (trim key) =? 0)).
  { cbv [try_catch bind log ret]. intro H. discriminate. }
  cbv [try_catch bind log ret getFilesByName setContent createFile getName driveCall
       advance setDrive logged tick drive logs].
  destruct w as [t l d]. cbv [tick drive logs].
  destruct (driveFails env t); [intro H; discriminate|].
  destruct (filter (fun f => jseq (fileName f) key) d) as [|f fs];
    destruct (driveFails env (S t)); try (intro H; discriminate);
      destruct (driveFails env (S (S t))); try (intro H; discriminate);
        intro H; injection H as <-; reflexivity.
Qed.

Lemma saveNewsToDrive_true (env : Env) (folder title' body : jsstring) (w w' : World) :
  Storage.saveNewsToDrive env (Some folder) title' body w = (Ok true, w') ->
  drive w' = stored (Storage.safeKey title') body (drive w).
Proof.
  unfold Storage.saveNewsToDrive.
  destruct (hasUtilsGoogleDrive env); cbn [negb];
    [|cbv [try_catch bind throw Utils.logError log ret]; intro H; discriminate].
  unfold try_catch at 1. unfold bind at 1. unfold bind at 1.
  destruct (saveOrUpdateFile env (Some folder) (Storage.safeKey title') body w)
    as [[success|e] w1] eqn:Hsave.
  - destruct success.
    + apply saveOrUpdateFile_true in Hsave.
      cbv [bind getName driveCall Utils.logAction Utils.logError log ret advance setDrive
           logged tick drive logs].
      destruct w1 as [t1 l1 d1]. cbv [drive] in Hsave.
      destruct (driveFails env t1); intro H; [discriminate|].
      injection H as <-. exact Hsave.
    + cbv [bind Utils.logError log ret]. intro H. discriminate.
  - cbv [bind Utils.logError log ret]. intro H. discriminate.
Qed.



(* ===================================================================== *)
(** ** What the classifier, the extractor and the summarizer leave alone *)
(* ===================================================================== *)

Lemma keepsDrive_ret {A} (a : A) : keepsDrive (ret a).
Proof. intro w. reflexivity. Qed.

Lemma keepsDrive_throw {A} (e : JsError) : keepsDrive (@throw World A e).
Proof. intro w. reflexivity. Qed.

Lemma keepsDrive_log (e : LogEntry) : keepsDrive (log e).
Proof. intro w. reflexivity. Qed.

Lemma keepsDrive_external {A} (answer : nat -> outcome A) : keepsDrive (external answer).
Proof. intro w. reflexivity. Qed.

Lemma keepsDrive_liftOutcome {A} (o : outcome A) : keepsDrive (Content.liftOutcome o).
Proof. intro w. reflexivity. Qed.

Lemma keepsDrive_bind {A B} (m : M World A) (k : A -> M World B) :
  keepsDrive m -> (forall a, keepsDrive (k a)) -> keepsDrive (bind m k).
Proof.
  intros Hm Hk w. unfold bind. specialize (Hm w).
  destruct (m w) as [[a|e] w1]; cbn [snd] in *.
  - now rewrite Hk.
  - exact Hm.
Qed.

Lemma keepsDrive_try {A} (body : M World A) (handler : JsError -> M World A) :
  keepsDrive body -> (forall e, keepsDrive (handler e)) -> keepsDrive (try_catch body handler).
Proof.
  intros Hm Hk w. unfold try_catch. specialize (Hm w).
  destruct (body w) as [[a|e] w1]; cbn [snd] in *.
  - exact Hm.
  - now rewrite Hk.
Qed.

Ltac frame_step :=
  first
    [ apply keepsDrive_ret
    | apply keepsDrive_throw
    | apply keepsDrive_log
    | apply keepsDrive_external
    | apply keepsDrive_liftOutcome
    | apply keepsDrive_bind; [|intro]
    | apply keepsDrive_try; [|intro]
    | match goal with
      | |- keepsDrive (if ?b then _ else _) => destruct b
      | |- keepsDrive (match ?x with _ => _ end) => destruct x
      | |- keepsDrive (let (_, _) := ?x in _) => destruct x
      end ].

Lemma classify_keepsDrive (env : Env) (title' : jsstring) :
  keepsDrive (AI.classifyNewsByTitle env title').
Proof.
  unfold AI.classifyNewsByTitle, AI.callGroq, Utils.logAction, Utils.logError.
  cbv zeta. repeat frame_step.
Qed.

Lemma summarize_keepsDrive (env : Env) (content' : jsstring) :
  keepsDrive (AI.summarizeContent env content').
Proof.
  unfold AI.summarizeContent, AI.callGroq, Utils.logError.
  cbv zeta. repeat frame_step.
Qed.

Lemma fetchDetailPage_keepsDrive (env : Env) (link' : jsstring)
      (config : option DetailPageConfig) :
  keepsDrive (Content.fetchDetailPageContent env link' config).
Proof.
  unfold Content.fetchDetailPageContent, Utils.logAction, Utils.logError.
  cbv zeta. repeat frame_step.
Qed.

Lemma extract_keepsDrive (env : Env) (entry : Entry) (feed : Feed) :
  keepsDrive (Content.extractNewsContent env entry feed).
Proof.
  unfold Content.extractNewsContent, Utils.logError.
  cbv zeta.
  apply keepsDrive_bind.
  - destruct (detailPageEnabled CONTENT_CONFIG && nonBlank (link entry)
              && Content.notDisabled (detailPageConfig feed)).
    + apply fetchDetailPage_keepsDrive.
    + apply keepsDrive_ret.
  - intro detailPageContent. repeat frame_step.
Qed.

(* ===================================================================== *)
(** ** The length gate *)
(* ===================================================================== *)

Lemma try_catch_returns {S A} (body : M S A) (handler : JsError -> M S A) :
  (forall e s, exists a s', handler e s = (Ok a, s')) ->
  forall s, exists a s', try_catch body handler s = (Ok a, s').
Proof.
  intros Hh s. unfold try_catch.
  destruct (body s) as [[a|e] s1]; [now exists a, s1|apply Hh].
Qed.

Lemma summarize_returns (env : Env) (content' : jsstring) (w : World) :
  exists final w', AI.summarizeContent env content' w = (Ok final, w').
Proof.
  rewrite summarize_run.
  destruct (AI.callGroq env (AI_SUMMARIZATION_PROMPT ++ content') w) as [[raw|e] w1];
    eexists; eexists; reflexivity.
Qed.

Lemma saveNewsToDrive_returns (env : Env) (folder : option jsstring)
      (title' body : jsstring) (w : World) :
  exists b w', Storage.saveNewsToDrive env folder title' body w = (Ok b, w').
Proof.
  unfold Storage.saveNewsToDrive. apply try_catch_returns.
  intros e s. eexists. eexists. reflexivity.
Qed.

Lemma persist_returns (env : Env) (folder : jsstring) (feed : Feed) (entry : Entry)
      (cls : Classification) (final : jsstring) (flag : bool) (s : RunState) :
  exists s', persist (NewsUtils env) folder feed entry cls final flag s = (Ok tt, s').
Proof.
  unfold persist. cbv [bind liftW NewsUtils saveNewsToDrive].
  destruct (saveNewsToDrive_returns env (Some folder) (title entry)
              (Storage.formatNewsContent (name feed) (category cls) (title entry) final flag)
              (world s)) as (b & w' & Hsave).
  rewrite Hsave. destruct b; eexists; reflexivity.
Qed.

(** The entry callback on a kept entry, up to the length gate. *)
Lemma processEntry_kept (env : Env) (folder : jsstring) (feed : Feed) (entry : Entry)
      (s : RunState) (cls : Classification) (w1 w2 : World) (body : jsstring) :
  validTitle entry = true ->
  AI.classifyNewsByTitle env (title entry) (world s) = (Ok cls, w1) ->
  shouldSave cls = true ->
  Content.extractNewsContent env entry feed w1 = (Ok body, w2) ->
  forall final flag s3,
    finalContentOf (NewsUtils env) body (counted s w2) = (Ok (final, flag), s3) ->
    processEntry (NewsUtils env) folder feed entry s =
    if length final <? minContentLength CONTENT_CONFIG then (Ok tt, s3)
    else persist (NewsUtils env) folder feed entry cls final flag s3.
Proof.
  intros Hvalid Hcls Hkeep Hbody final flag s3 Hfinal.
  unfold processEntry. rewrite Hvalid. cbn [negb].
  unfold entryBody.
  destruct s as [w p sv er].
  unfold counted in Hfinal. cbn [world totalProcessed totalSaved totalErrors] in *.
  cbv [bind try_catch liftW incProcessed NewsUtils classifyNewsByTitle extractNewsContent
       world totalProcessed totalSaved totalErrors].
  rewrite Hcls, Hkeep, Hbody.
  unfold NewsUtils in Hfinal. rewrite Hfinal.
  destruct (length final <? minContentLength CONTENT_CONFIG); [reflexivity|].
  destruct (persist_returns env folder feed entry cls final flag s3) as [s' Hs'].
  unfold NewsUtils in Hs'. rewrite Hs'. reflexivity.
Qed.

Lemma finalContentOf_run (env : Env) (body : jsstring) (s : RunState) :
  finalContentOf (NewsUtils env) body s =
  if maxContentLength CONTENT_CONFIG <? length body then
    match AI.summarizeContent env body (world s) with
    | (Ok final, w) => (Ok (final, true), mkRun w (totalProcessed s) (totalSaved s) (totalErrors s))
    | (Throw e, w) => (Throw e, mkRun w (totalProcessed s) (totalSaved s) (totalErrors s))
    end
  else (Ok (body, false), s).
Proof.
  unfold finalContentOf.
  destruct (maxContentLength CONTENT_CONFIG <? length body); [|reflexivity].
  cbv [bind liftW ret NewsUtils summarizeContent].
  destruct (AI.summarizeContent env body (world s)) as [[final|e] w]; reflexivity.
Qed.

(** C2.  An entry whose final content (the extracted one, or its summary
    when it was summarized) is shorter than [minContentLength] = 30 is left
    without a record: the callback returns normally, Drive is as it was
    before the entry, the saved and error counters are unchanged, and the
    log gains no line after the one the content was resolved at (so none
    reports an error); the entry is only counted as processed.  An entry
    the classifier does not keep is left without a record as well. *)
Theorem short_final_content_is_skipped (env : Env) (folder : jsstring) (feed : Feed)
        (entry : Entry) (s : RunState) (cls : Classification) (w1 : World) :
  validTitle entry = true ->
  AI.classifyNewsByTitle env (title entry) (world s) = (Ok cls, w1) ->
  (shouldSave cls = false ->
   processEntry (NewsUtils env) folder feed entry s
   = (Ok tt, counted s (logged (LogAction (js "跳过新闻") (Some (shortTitle (title entry)))) w1))
   /\ drive (logged (LogAction (js "跳过新闻") (Some (shortTitle (title entry)))) w1)
      = drive (world s))
  /\ (shouldSave cls = true ->
      forall body w2 final flag s3,
        Content.extractNewsContent env entry feed w1 = (Ok body, w2) ->
        finalContentOf (NewsUtils env) body (counted s w2) = (Ok (final, flag), s3) ->
        length final < minContentLength CONTENT_CONFIG ->
        processEntry (NewsUtils env) folder feed entry s = (Ok tt, s3)
        /\ drive (world s3) = drive (world s)
        /\ logs (world s3) = logs w2
        /\ totalProcessed s3 = S (totalProcessed s)
        /\ totalSaved s3 = totalSaved s
        /\ totalErrors s3 = totalErrors s).
Proof.
  intros Hvalid Hcls.
  assert (Hd1 : drive w1 = drive (world s)).
  { pose proof (classify_keepsDrive env (title entry) (world s)) as H.
    now rewrite Hcls in H. }
  split.
  - intro Hskip. split; [|exact Hd1].
    unfold processEntry. rewrite Hvalid. cbn [negb]. unfold entryBody.
    destruct s as [w p sv er].
    unfold counted. cbn [world totalProcessed totalSaved totalErrors] in *.
    cbv [bind try_catch liftW incProcessed NewsUtils classifyNewsByTitle
         world totalProcessed totalSaved totalErrors].
    rewrite Hcls, Hskip. reflexivity.
  - intros Hkeep body w2 final flag s3 Hbody Hfinal Hshort.
    rewrite (processEntry_kept env folder feed entry s cls w1 w2 body
               Hvalid Hcls Hkeep Hbody final flag s3 Hfinal).
    apply Nat.ltb_lt in Hshort. rewrite Hshort.
    split; [reflexivity|].
    assert (Hd2 : drive w2 = drive w1).
    { pose proof (extract_keepsDrive env entry feed w1) as H. now rewrite Hbody in H. }
    rewrite finalContentOf_run in Hfinal. unfold counted in Hfinal. cbn [world] in Hfinal.
    destruct (maxContentLength CONTENT_CONFIG <? length body) eqn:Hlong.
    + rewrite summarize_run in Hfinal.
      pose proof (callGroq_frame env (AI_SUMMARIZATION_PROMPT ++ body) w2) as [Hl Hd].
      destruct (AI.callGroq env (AI_SUMMARIZATION_PROMPT ++ body) w2) as [[raw|e] w3];
        cbn [snd] in Hl, Hd; injection Hfinal as <- <- <-.
      * cbn [world totalProcessed totalSaved totalErrors].
        repeat split; congruence.
      * apply Nat.ltb_lt in Hlong, Hshort. cbn in Hlong, Hshort. lia.
    + injection Hfinal as <- <- <-.
      cbn [world totalProcessed totalSaved totalErrors].
      repeat split; congruence.
Qed.

Lemma short_final_content_is_skipped_witness :
  exists s3,
    processEntry (NewsUtils summarizing) (js "text") plainFeed shortEntry s0 = (Ok tt, s3)
    /\ drive (world s3) = []
    /\ totalProcessed s3 = 1
    /\ totalSaved s3 = 0
    /\ totalErrors s3 = 0.
Proof.
  pose (w1 := snd (AI.classifyNewsByTitle summarizing (title shortEntry) (world s0))).
  pose (w2 := snd (Content.extractNewsContent summarizing shortEntry plainFeed w1)).
  destruct (short_final_content_is_skipped summarizing (js "text") plainFeed shortEntry s0
              (mkClassification true (js "finance")) w1)
    as [_ Hkept].
  - reflexivity.
  - vm_compute. reflexivity.
  - destruct (Hkept eq_refl (js "short note") w2 (js "short note") false (counted s0 w2))
      as (Hrun & Hdrive & _ & Hp & Hs & He).
    + vm_compute. reflexivity.
    + vm_compute. reflexivity.
    + vm_compute. lia.
    + exists (counted s0 w2). repeat split; assumption.
Defined.

Lemma format_marks_summary (source category' title' final : jsstring) :
  final <> [] ->
  exists header,
    Storage.formatNewsContent source category' title' final true
    = header ++ js "AI总结：" ++ [LF] ++ final.
Proof.
  intro Hne. unfold Storage.formatNewsContent. cbv zeta.
  assert (Hor : orElse final (js "【内容为空】") = final) by (destruct final; [contradiction|reflexivity]).
  rewrite Hor.
  exists (js "来源：" ++ orElse source (js "未知") ++ [LF]
          ++ js "分类：" ++ orElse category' (js "未分类") ++ [LF]
          ++ [LF] ++ orElse title' (js "【无标题】") ++ [LF] ++ [LF]).
  rewrite <- !app_assoc. reflexivity.
Qed.

(** C1.  For an entry the classifier keeps and whose extracted content is
    longer than [maxContentLength] = 500, the final content is what
    [summarizeContent] returns and the AI-summary flag is true: the content
    is the extracted one when the oracle call throws, and the tag-stripped
    answer when it returns.  The entry then goes through the length gate
    with that content, and whenever its record is saved, the file stored
    under the title's key is the record formatted with the flag set (its
    body carries the AI-summary marker) and the entry is counted as
    saved. *)
Theorem long_content_is_condensed (env : Env) (folder : jsstring) (feed : Feed)
        (entry : Entry) (s : RunState) (cls : Classification) (w1 w2 : World)
        (body : jsstring) :
  validTitle entry = true ->
  AI.classifyNewsByTitle env (title entry) (world s) = (Ok cls, w1) ->
  shouldSave cls = true ->
  Content.extractNewsContent env entry feed w1 = (Ok body, w2) ->
  maxContentLength CONTENT_CONFIG < length body ->
  exists final w3,
    AI.summarizeContent env body w2 = (Ok final, w3)
    /\ finalContentOf (NewsUtils env) body (counted s w2) = (Ok (final, true), counted s w3)
    /\ (forall e,
           fst (AI.callGroq env (AI_SUMMARIZATION_PROMPT ++ body) w2) = Throw e ->
           final = body)
    /\ (forall raw,
           fst (AI.callGroq env (AI_SUMMARIZATION_PROMPT ++ body) w2) = Ok raw ->
           final = AI.cleanThinkingTags raw)
    /\ processEntry (NewsUtils env) folder feed entry s
       = (if length final <? minContentLength CONTENT_CONFIG then (Ok tt, counted s w3)
          else persist (NewsUtils env) folder feed entry cls final true (counted s w3))
    /\ (forall w4,
           minContentLength CONTENT_CONFIG <= length final ->
           Storage.saveNewsToDrive
             env (Some folder) (title entry)
             (Storage.formatNewsContent (name feed) (category cls) (title entry) final true)
             w3 = (Ok true, w4) ->
           processEntry (NewsUtils env) folder feed entry s
           = (Ok tt, mkRun w4 (S (totalProcessed s)) (S (totalSaved s)) (totalErrors s))
           /\ (exists rest,
                  filesNamed (Storage.safeKey (title entry)) (drive w4)
                  = mkFile (Storage.safeKey (title entry))
                           (Storage.formatNewsContent (name feed) (category cls)
                                                      (title entry) final true)
                    :: rest)
           /\ (exists header,
                  Storage.formatNewsContent (name feed) (category cls) (title entry) final true
                  = header ++ js "AI总结：" ++ [LF] ++ final)).
Proof.
  intros Hvalid Hcls Hkeep Hbody Hlong.
  destruct (summarize_returns env body w2) as (final & w3 & Hsum).
  exists final, w3.
  assert (Hfinal : finalContentOf (NewsUtils env) body (counted s w2)
                   = (Ok (final, true), counted s w3)).
  { rewrite finalContentOf_run. apply Nat.ltb_lt in Hlong. rewrite Hlong.
    unfold counted. cbn [world totalProcessed totalSaved totalErrors].
    now rewrite Hsum. }
  assert (Hrun := processEntry_kept env folder feed entry s cls w1 w2 body
                    Hvalid Hcls Hkeep Hbody final true (counted s w3) Hfinal).
  split; [exact Hsum|]. split; [exact Hfinal|].
  rewrite summarize_run in Hsum.
  split; [|split; [|split; [exact Hrun|]]].
  - intros e He.
    destruct (AI.callGroq env (AI_SUMMARIZATION_PROMPT ++ body) w2) as [[raw|e0] w'];
      cbn [fst] in He; [discriminate|]. now injection Hsum as <- _.
  - intros raw Hraw.
    destruct (AI.callGroq env (AI_SUMMARIZATION_PROMPT ++ body) w2) as [[raw0|e0] w'];
      cbn [fst] in Hraw; [|discriminate].
    injection Hraw as ->. now injection Hsum as <- _.
  - intros w4 Hlen Hsave. split; [|split].
    + rewrite Hrun. apply Nat.ltb_ge in Hlen. rewrite Hlen.
      unfold persist, counted.
      cbv [bind liftW NewsUtils saveNewsToDrive incSaved
           world totalProcessed totalSaved totalErrors].
      rewrite Hsave. reflexivity.
    + apply saveNewsToDrive_true in Hsave. rewrite Hsave.
      apply stored_spec.
    + apply format_marks_summary. intros ->. cbn in Hlen. lia.
Qed.

Lemma long_content_is_condensed_witness :
  (exists s',
      processEntry (NewsUtils summarizing) (js "text") plainFeed longEntry s0 = (Ok tt, s')
      /\ totalSaved s' = 1
      /\ exists rest,
          filesNamed (js "Central bank cuts rates.txt") (drive (world s'))
          = mkFile (js "Central bank cuts rates.txt")
                   (Storage.formatNewsContent (js "Example") (js "finance")
                      (js "Central bank cuts rates")
                      (js "The central bank cut its policy rate.") true)
            :: rest)
  /\ (exists final w3,
         AI.summarizeContent summarizerDown (repeat (ch "a") 600)
           (snd (Content.extractNewsContent summarizerDown longEntry plainFeed
                   (snd (AI.classifyNewsByTitle summarizerDown (title longEntry) (world s0)))))
         = (Ok final, w3)
         /\ final = repeat (ch "a") 600).
Proof.
  split.
  - pose (w1 := snd (AI.classifyNewsByTitle summarizing (title longEntry) (world s0))).
    pose (w2 := snd (Content.extractNewsContent summarizing longEntry plainFeed w1)).
    destruct (long_content_is_condensed summarizing (js "text") plainFeed longEntry s0
                (mkClassification true (js "finance")) w1 w2 (repeat (ch "a") 600))
      as (final & w3 & Hsum & _ & _ & Hraw & _ & Hsaved).
    + reflexivity.
    + vm_compute. reflexivity.
    + reflexivity.
    + vm_compute. reflexivity.
    + vm_compute. lia.
    + assert (Hfinal : final = js "The central bank cut its policy rate.").
      { rewrite (Hraw (js "<think>condense</think>The central bank cut its policy rate."));
          [vm_compute; reflexivity|vm_compute; reflexivity]. }
      subst final.
      assert (Hw3 : w3 = snd (AI.summarizeContent summarizing (repeat (ch "a") 600) w2))
        by now rewrite Hsum.
      subst w3.
      destruct (Hsaved
                  (snd (Storage.saveNewsToDrive
                          summarizing (Some (js "text")) (title longEntry)
                          (Storage.formatNewsContent
                             (name plainFeed) (js "finance") (title longEntry)
                             (js "The central bank cut its policy rate.") true)
                          (snd (AI.summarizeContent summarizing (repeat (ch "a") 600) w2)))))
        as (Hrun & Hfile & _).
      * vm_compute. lia.
      * vm_compute. reflexivity.
      * eexists. split; [exact Hrun|]. split; [reflexivity|]. exact Hfile.
  - pose (w1 := snd (AI.classifyNewsByTitle summarizerDown (title longEntry) (world s0))).
    pose (w2 := snd (Content.extractNewsContent summarizerDown longEntry plainFeed w1)).
    destruct (long_content_is_condensed summarizerDown (js "text") plainFeed longEntry s0
                (mkClassification true (js "finance")) w1 w2 (repeat (ch "a") 600))
      as (final & w3 & Hsum & _ & Hfail & _).
    + reflexivity.
    + vm_compute. reflexivity.
    + reflexivity.
    + vm_compute. reflexivity.
    + vm_compute. lia.
    + exists final, w3. split; [exact Hsum|].
      apply (Hfail (js "quota")). vm_compute. reflexivity.
Defined.

(* ===================================================================== *)
(** ** Failure isolation in the main loop *)
(* ===================================================================== *)


Lemma forEach_returns {S A} (l : list A) (callback : A -> M S unit) :
  (forall x s, exists s', callback x s = (Ok tt, s')) ->
  forall s, exists s', forEach l callback s = (Ok tt, s').
Proof.
  intro Hcb. induction l as [|x l IH]; intro s.
  - now exists s.
  - simpl. unfold bind. destruct (Hcb x s) as [s1 ->]. apply IH.
Qed.


Lemma keepsProcessed_ret {A} (a : A) : keepsProcessed (ret a).
Proof. intro s. reflexivity. Qed.

Lemma keepsProcessed_liftW {A} (m : M World A) : keepsProcessed (liftW m).
Proof. intro s. unfold liftW. destruct (m (world s)). reflexivity. Qed.

Lemma keepsProcessed_incSaved : keepsProcessed incSaved.
Proof. intro s. reflexivity. Qed.

Lemma keepsProcessed_bind {A B} (m : M RunState A) (k : A -> M RunState B) :
  keepsProcessed m -> (forall a, keepsProcessed (k a)) -> keepsProcessed (bind m k).
Proof.
  intros Hm Hk s. unfold bind. specialize (Hm s).
  destruct (m s) as [[a|e] s1]; cbn [snd] in *.
  - now rewrite Hk.
  - exact Hm.
Qed.

Section Isolation.

Variable nu : Namespace.
Variable newsFolder : jsstring.

Lemma processEntry_run (feed : Feed) (entry : Entry) (s : RunState) :
  processEntry nu newsFolder feed entry s =
  if validTitle entry then
    match entryBody nu newsFolder feed entry (entered s) with
    | (Ok _, s1) => (Ok tt, s1)
    | (Throw e, s1) =>
      (Ok tt, caught (js "处理新闻: " ++ substring0 50 (title entry) ++ js "...") e s1)
    end
  else
    (Ok tt, mkRun (logged (LogAction (js "跳过无效标题") None) (world s))
                  (totalProcessed s) (totalSaved s) (totalErrors s)).
Proof.
  unfold processEntry. destruct (validTitle entry); cbn [negb].
  - unfold bind at 1. unfold incProcessed at 1. unfold try_catch. fold (entered s).
    destruct (entryBody nu newsFolder feed entry (entered s)) as [[[]|e] s1];
      reflexivity.
  - reflexivity.
Qed.

Lemma processEntry_returns (feed : Feed) (entry : Entry) (s : RunState) :
  exists s', processEntry nu newsFolder feed entry s = (Ok tt, s').
Proof.
  rewrite processEntry_run. destruct (validTitle entry); [|eexists; reflexivity].
  destruct (entryBody nu newsFolder feed entry (entered s)) as [[[]|e] s1];
    eexists; reflexivity.
Qed.

Lemma processFeed_run (feed : Feed) (s : RunState) :
  processFeed nu newsFolder feed s =
  match feedBody nu newsFolder feed s with
  | (Ok _, s1) => (Ok tt, s1)
  | (Throw e, s1) => (Ok tt, caught (js "处理RSS源: " ++ name feed) e s1)
  end.
Proof.
  unfold processFeed, try_catch.
  destruct (feedBody nu newsFolder feed s) as [[[]|e] s1]; reflexivity.
Qed.

Lemma processFeed_returns (feed : Feed) (s : RunState) :
  exists s', processFeed nu newsFolder feed s = (Ok tt, s').
Proof.
  rewrite processFeed_run.
  destruct (feedBody nu newsFolder feed s) as [[[]|e] s1]; eexists; reflexivity.
Qed.

(** Only the loop counts: whatever the namespace functions do, the body
    of the inner [try] leaves the number of processed entries alone. *)
Lemma entryBody_processed (feed : Feed) (entry : Entry) :
  keepsProcessed (entryBody nu newsFolder feed entry).
Proof.
  unfold entryBody, finalContentOf, persist. cbv zeta.
  repeat first
         [ apply keepsProcessed_ret
         | apply keepsProcessed_liftW
         | apply keepsProcessed_incSaved
         | apply keepsProcessed_bind; [|intro]
         | match goal with
           | |- keepsProcessed (if ?b then _ else _) => destruct b
           | |- keepsProcessed (let (_, _) := ?x in _) => destruct x
           end ].
Qed.

Lemma processEntry_processed (feed : Feed) (entry : Entry) (s : RunState) :
  totalProcessed (snd (processEntry nu newsFolder feed entry s))
  = totalProcessed s + (if validTitle entry then 1 else 0).
Proof.
  rewrite processEntry_run. destruct (validTitle entry).
  - pose proof (entryBody_processed feed entry (entered s)) as H.
    unfold keepsProcessed in H.
    destruct (entryBody nu newsFolder feed entry (entered s)) as [[[]|e] s1];
      cbn [snd totalProcessed caught entered] in *; lia.
  - cbn [snd totalProcessed]. lia.
Qed.

Lemma entries_all_processed (feed : Feed) (entries : list Entry) (s : RunState) :
  exists s',
    forEach entries (processEntry nu newsFolder feed) s = (Ok tt, s')
    /\ totalProcessed s' = totalProcessed s + length (filter validTitle entries).
Proof.
  revert s. induction entries as [|entry entries IH]; intro s.
  - exists s. split; [reflexivity|simpl; lia].
  - simpl forEach. unfold bind.
    pose proof (processEntry_processed feed entry s) as Hp.
    destruct (processEntry_returns feed entry s) as [s1 H1]. rewrite H1 in *.
    cbn [snd] in Hp.
    destruct (IH s1) as (s' & Hrun & Hcount). exists s'. split; [exact Hrun|].
    rewrite Hcount, Hp. simpl filter. destruct (validTitle entry); simpl; lia.
Qed.

End Isolation.

Lemma createNewsDateFolder_returns (env : Env) (rootFolder subFolder : jsstring) (w : World) :
  exists folder w', Storage.createNewsDateFolder env rootFolder subFolder w = (Ok folder, w').
Proof.
  unfold Storage.createNewsDateFolder. cbv zeta. apply try_catch_returns.
  intros e s. eexists. eexists. reflexivity.
Qed.




(** A run over the bad feed and then the good one: the bad feed costs one
    error, the entry [boom] another, the untitled entry is passed over, and
    the last entry is still saved. *)
Example group_run_survives :
  fst (processNewsFeedsByGroup (Scenario.answering []) brittle [badFeed; goodFeed] 1
                               Scenario.w0)
  = Ok (mkSummary 2 1 1 2).
Proof. vm_compute. reflexivity. Qed.

(** The end-to-end scenario of the specification: one feed with one item
    titled "Central bank cuts rates", whose link leads to a page of more
    than 500 units; the classifier answers [1,finance]. *)
Example end_to_end_condensed :
  let page := js "<article>" ++ repeat (ch "a") 600 ++ js "</article>" in
  let item := mkEntry (js "Central bank cuts rates") (js "https://example.com/a")
                      (js "teaser") [] [] [] in
  let env :=
      Scenario.envOf
        (fun t _ => if t =? 2 then Ok (js "1,finance")
                    else Ok (js "The central bank cut its policy rate."))
        (Ok (200%N, page)) (fun _ => false) (Ok [item]) in
  let run := processNewsFeedsByGroup env (NewsUtils env) [plainFeed] 1 Scenario.w0 in
  fst run = Ok (mkSummary 1 1 0 0)
  /\ drive (snd run)
     = [mkFile (js "Central bank cuts rates.txt")
               (Storage.formatNewsContent (js "Example") (js "finance")
                  (js "Central bank cuts rates")
                  (js "The central bank cut its policy rate.") true)].
Proof. vm_compute. split; reflexivity. Qed.

(** An item without a title leaves no trace but the line that reports
    it. *)
Example end_to_end_untitled :
  let env := Scenario.envOf (fun _ _ => Ok (js "1,finance")) (Throw (js "offline"))
                            (fun _ => false) (Ok [mkEntry (js "  ") [] [] [] [] []]) in
  let run := processNewsFeedsByGroup env (NewsUtils env) [plainFeed] 1 Scenario.w0 in
  fst run = Ok (mkSummary 0 0 0 0) /\ drive (snd run) = [].
Proof. vm_compute. split; reflexivity. Qed.

(* ===================================================================== *)
(** ** File names *)
(* ===================================================================== *)

Lemma trimStart_suffix (s : jsstring) : exists p, s = p ++ trimStart s.
Proof.
  induction s as [|c s [p Hp]]; [now exists []|].
  simpl. destruct (isWhiteSpace c).
  - exists (c :: p). simpl. now rewrite <- Hp.
  - now exists [].
Qed.

Lemma trimEnd_prefix (s : jsstring) : exists q, s = trimEnd s ++ q.
Proof.
  unfold trimEnd. destruct (trimStart_suffix (rev s)) as [p Hp].
  exists (rev p). rewrite <- rev_app_distr, <- Hp. now rewrite rev_involutive.
Qed.

Lemma trimStart_head (s : jsstring) :
  match trimStart s with [] => True | c :: _ => isWhiteSpace c = false end.
Proof.
  induction s as [|c s IH]; simpl; [exact I|].
  destruct (isWhiteSpace c) eqn:Hc; [exact IH|exact Hc].
Qed.

Lemma trimStart_fixed (s : jsstring) :
  match s with [] => True | c :: _ => isWhiteSpace c = false end -> trimStart s = s.
Proof. destruct s as [|c s]; simpl; [reflexivity|]. now intros ->. Qed.

Lemma trim_length (s : jsstring) : length (trim s) <= length s.
Proof.
  unfold trim. destruct (trimStart_suffix s) as [p Hp].
  destruct (trimEnd_prefix (trimStart s)) as [q Hq].
  rewrite Hp at 2. rewrite Hq at 2. rewrite !length_app. lia.
Qed.

Lemma trim_idempotent (s : jsstring) : trim (trim s) = trim s.
Proof.
  unfold trim. remember (trimStart s) as a eqn:Ea.
  assert (Ha : match a with [] => True | c :: _ => isWhiteSpace c = false end)
    by (subst a; apply trimStart_head).
  remember (trimEnd a) as b eqn:Eb.
  assert (Hb : match b with [] => True | c :: _ => isWhiteSpace c = false end).
  { destruct (trimEnd_prefix a) as [q Hq]. rewrite <- Eb in Hq.
    destruct b as [|c b']; [exact I|]. rewrite Hq in Ha. exact Ha. }
  rewrite (trimStart_fixed b Hb).
  rewrite Eb. unfold trimEnd. rewrite rev_involutive.
  rewrite (trimStart_fixed (trimStart (rev a))); [reflexivity|apply trimStart_head].
Qed.

Lemma filter_all {A} (f : A -> bool) (l : list A) :
  (forall x, In x l -> f x = true) -> filter f l = l.
Proof.
  induction l as [|x l IH]; intro H; simpl; [reflexivity|].
  rewrite (H x (or_introl eq_refl)). f_equal. apply IH. intros y Hy. apply H. now right.
Qed.

Lemma safeFileName_units (text : jsstring) (maxLength : nat) (c : N) :
  In c (Utils.safeFileName text maxLength) ->
  In c text /\ Utils.isIllegalFileNameUnit c = false.
Proof.
  unfold Utils.safeFileName. cbv zeta. intro H. apply trim_incl in H.
  assert (Hf : In c (filter (fun c => negb (Utils.isIllegalFileNameUnit c)) text)).
  { destruct (maxLength <? length (filter (fun c => negb (Utils.isIllegalFileNameUnit c)) text));
      [|exact H].
    unfold substring0 in H. rewrite <- (firstn_skipn maxLength). apply in_or_app. now left. }
  apply filter_In in Hf as [Hin Hc]. split; [exact Hin|]. now apply negb_true_iff.
Qed.

Lemma safeFileName_length (text : jsstring) (maxLength : nat) :
  length (Utils.safeFileName text maxLength) <= maxLength.
Proof.
  unfold Utils.safeFileName. cbv zeta.
  etransitivity; [apply trim_length|].
  destruct (maxLength <? length (filter (fun c => negb (Utils.isIllegalFileNameUnit c)) text))
           eqn:E.
  - unfold substring0. rewrite firstn_length_le; [lia|]. apply Nat.ltb_lt in E. lia.
  - apply Nat.ltb_ge in E. exact E.
Qed.

(** X1.  A safe file name holds none of the nine units illegal in file
    names, is made of units of the text only, is at most [maxLength] units
    long and carries no white space at either end. *)
Theorem safeFileName_is_safe (text : jsstring) (maxLength : nat) :
  (forall c, In c (Utils.safeFileName text maxLength) ->
             In c text /\ ~ In c Utils.illegalFileNameUnits)
  /\ length (Utils.safeFileName text maxLength) <= maxLength
  /\ trim (Utils.safeFileName text maxLength) = Utils.safeFileName text maxLength.
Proof.
  split; [|split].
  - intros c Hc. apply safeFileName_units in Hc as [Hin Hill]. split; [exact Hin|].
    intro Hbad. unfold Utils.isIllegalFileNameUnit in Hill.
    assert (existsb (N.eqb c) Utils.illegalFileNameUnits = true).
    { apply existsb_exists. exists c. split; [exact Hbad|apply N.eqb_refl]. }
    congruence.
  - apply safeFileName_length.
  - unfold Utils.safeFileName. cbv zeta. apply trim_idempotent.
Qed.

(** X2.  Making a name safe twice is making it safe once: a stored key is
    its own key. *)
Theorem safeFileName_idempotent (text : jsstring) (maxLength : nat) :
  Utils.safeFileName (Utils.safeFileName text maxLength) maxLength
  = Utils.safeFileName text maxLength.
Proof.
  set (r := Utils.safeFileName text maxLength).
  unfold Utils.safeFileName at 1. cbv zeta.
  rewrite filter_all.
  - pose proof (safeFileName_length text maxLength) as Hlen. fold r in Hlen.
    apply Nat.ltb_ge in Hlen. rewrite Hlen.
    unfold r, Utils.safeFileName. cbv zeta. apply trim_idempotent.
  - intros c Hc. apply safeFileName_units in Hc as [_ Hc]. now rewrite Hc.
Qed.

(* ===================================================================== *)
(** ** The record layout *)
(* ===================================================================== *)

Lemma split_app_sep (sep : N) (a b : jsstring) :
  ~ In sep a -> split sep (a ++ sep :: b) = a :: split sep b.
Proof.
  induction a as [|c a IH]; intro H; simpl.
  - now rewrite N.eqb_refl.
  - destruct (c =? sep)%N eqn:E.
    + apply N.eqb_eq in E. subst. exfalso. apply H. now left.
    + rewrite IH; [reflexivity|]. intro Hin. apply H. now right.
Qed.

Lemma orElse_free (sep : N) (a b : jsstring) :
  ~ In sep a -> ~ In sep b -> ~ In sep (orElse a b).
Proof. unfold orElse. destruct (isEmpty a); auto. Qed.

(** X3.  The record is laid out on lines: source, category, an empty line,
    the title, an empty line, the marker of the kind of body, and then the
    body.  When source, category and title hold no line break, splitting
    the record at line breaks gives back exactly these lines, so every
    field, the AI-summary flag included, can be read off the record. *)
Theorem record_layout (source category' title' content' : jsstring) (isAISummarized : bool) :
  ~ In LF source -> ~ In LF category' -> ~ In LF title' ->
  split LF (Storage.formatNewsContent source category' title' content' isAISummarized)
  = [js "来源：" ++ orElse source (js "未知");
     js "分类：" ++ orElse category' (js "未分类");
     [];
     orElse title' (js "【无标题】");
     [];
     if isAISummarized then js "AI总结：" else js "新闻原文："]
    ++ split LF (orElse content' (js "【内容为空】")).
Proof.
  intros Hs Hc Ht. unfold Storage.formatNewsContent. cbv zeta.
  assert (H1 : ~ In LF (js "来源：" ++ orElse source (js "未知"))).
  { intro H. apply in_app_or in H as [H|H].
    - vm_compute in H. intuition discriminate.
    - revert H. apply orElse_free; [exact Hs|]. vm_compute. intuition discriminate. }
  assert (H2 : ~ In LF (js "分类：" ++ orElse category' (js "未分类"))).
  { intro H. apply in_app_or in H as [H|H].
    - vm_compute in H. intuition discriminate.
    - revert H. apply orElse_free; [exact Hc|]. vm_compute. intuition discriminate. }
  assert (H3 : ~ In LF (orElse title' (js "【无标题】"))).
  { apply orElse_free; [exact Ht|]. vm_compute. intuition discriminate. }
  assert (H4 : ~ In LF (if isAISummarized then js "AI总结：" else js "新闻原文：")).
  { destruct isAISummarized; vm_compute; intuition discriminate. }
  replace (js "来源：" ++ orElse source (js "未知") ++ [LF] ++
           js "分类：" ++ orElse category' (js "未分类") ++ [LF] ++ [LF] ++
           orElse title' (js "【无标题】") ++ [LF] ++ [LF] ++
           (if isAISummarized then js "AI总结：" ++ [LF] else js "新闻原文：" ++ [LF]) ++
           orElse content' (js "【内容为空】"))
    with ((js "来源：" ++ orElse source (js "未知")) ++ LF ::
          (js "分类：" ++ orElse category' (js "未分类")) ++ LF ::
          [] ++ LF ::
          orElse title' (js "【无标题】") ++ LF ::
          [] ++ LF ::
          (if isAISummarized then js "AI总结：" else js "新闻原文：") ++ LF ::
          orElse content' (js "【内容为空】")).
  - rewrite (split_app_sep LF _ _ H1), (split_app_sep LF _ _ H2).
    rewrite (split_app_sep LF [] _ (fun H => H)), (split_app_sep LF _ _ H3).
    rewrite (split_app_sep LF [] _ (fun H => H)), (split_app_sep LF _ _ H4).
    reflexivity.
  - destruct isAISummarized; rewrite <- !app_assoc; reflexivity.
Qed.

Lemma record_layout_witness :
  split LF (Storage.formatNewsContent (js "Example") (js "finance")
              (js "Central bank cuts rates")
              (js "The central bank cut its policy rate.") true)
  = [js "来源：Example"; js "分类：finance"; []; js "Central bank cuts rates"; [];
     js "AI总结："; js "The central bank cut its policy rate."].
Proof.
  pose proof (record_layout (js "Example") (js "finance") (js "Central bank cuts rates")
                            (js "The central bank cut its policy rate.") true) as H.
  vm_compute in H. vm_compute. apply H; intuition discriminate.
Defined.

(* ===================================================================== *)
(** ** What a save can do to the folder *)
(* ===================================================================== *)

Lemma saveOrUpdateFile_drive (env : Env) (folder : option jsstring) (key body : jsstring)
      (w : World) :
  drive (snd (saveOrUpdateFile env folder key body w)) = drive w
  \/ drive (snd (saveOrUpdateFile env folder key body w)) = stored key body (drive w).
Proof.
  unfold saveOrUpdateFile, stored, filesNamed.
  destruct folder as [folder|]; [|left; reflexivity].
  destruct (isEmpty key || (length (trim key) =? 0)); [left; reflexivity|].
  cbv [try_catch bind log ret getFilesByName setContent createFile getName driveCall
       advance setDrive logged tick drive logs].
  destruct w as [t l d]. cbv [tick drive logs].
  destruct (driveFails env t); [left; reflexivity|].
  destruct (filter (fun f => jseq (fileName f) key) d) as [|f fs];
    destruct (driveFails env (S t)); try (left; reflexivity);
      destruct (driveFails env (S (S t))); right; reflexivity.
Qed.

Lemma saveNewsToDrive_drive_eq (env : Env) (folder : option jsstring) (title' body : jsstring)
      (w : World) :
  drive (snd (Storage.saveNewsToDrive env folder title' body w))
  = if hasUtilsGoogleDrive env
    then drive (snd (saveOrUpdateFile env folder (Storage.safeKey title') body w))
    else drive w.
Proof.
  unfold Storage.saveNewsToDrive.
  destruct (hasUtilsGoogleDrive env); cbn [negb]; [|reflexivity].
  unfold try_catch at 1. unfold bind at 1. unfold bind at 1.
  destruct (saveOrUpdateFile env folder (Storage.safeKey title') body w)
    as [[success|e] w1]; cbn [snd]; [|reflexivity].
  destruct success; [|reflexivity].
  destruct folder as [folder|]; [|reflexivity].
  unfold bind, getName, driveCall, Utils.logAction, Utils.logError, log, ret.
  destruct (driveFails env (tick w1)); reflexivity.
Qed.

Lemma saveNewsToDrive_drive (env : Env) (folder : option jsstring) (title' body : jsstring)
      (w : World) :
  drive (snd (Storage.saveNewsToDrive env folder title' body w)) = drive w
  \/ drive (snd (Storage.saveNewsToDrive env folder title' body w))
     = stored (Storage.safeKey title') body (drive w).
Proof.
  rewrite saveNewsToDrive_drive_eq.
  destruct (hasUtilsGoogleDrive env); [|now left].
  apply saveOrUpdateFile_drive.
Qed.

Lemma setFirst_names (key body : jsstring) (d : list DriveFile) :
  map fileName (setFirst key body d) = map fileName d.
Proof.
  induction d as [|f d IH]; simpl; [reflexivity|].
  destruct (jseq (fileName f) key); simpl; [reflexivity|now rewrite IH].
Qed.

Lemma stored_names_unique (key body : jsstring) (d : list DriveFile) :
  NoDup (map fileName d) -> NoDup (map fileName (stored key body d)).
Proof.
  intro Hnd. unfold stored. destruct (filesNamed key d) as [|f fs] eqn:Hn.
  - rewrite map_app. simpl.
    assert (Hfresh : ~ In key (map fileName d)).
    { intro Hin. apply in_map_iff in Hin as (f & Hf & Hin).
      assert (Hin' : In f (filesNamed key d)).
      { unfold filesNamed. apply filter_In. split; [exact Hin|]. subst. apply jseq_refl. }
      rewrite Hn in Hin'. contradiction. }
    apply NoDup_app; [exact Hnd|repeat constructor; intros []|].
    intros x Hx [<-|[]]. contradiction.
  - now rewrite setFirst_names.
Qed.

(** X4.  Whatever happens during a save (Drive failing at any call, a
    missing library, a [null] folder), the files under other names are
    left exactly as they were, no file is removed, and at most one file is
    added, and only when the key named no file.  A folder in which no two
    files share a name stays so. *)
Theorem save_confined_to_its_key (env : Env) (folder : option jsstring)
        (title' body : jsstring) (w : World) :
  let w' := snd (Storage.saveNewsToDrive env folder title' body w) in
  let key := Storage.safeKey title' in
  filesNotNamed key (drive w') = filesNotNamed key (drive w)
  /\ length (filesNamed key (drive w)) <= length (filesNamed key (drive w'))
  /\ length (filesNamed key (drive w')) <= Nat.max 1 (length (filesNamed key (drive w)))
  /\ (NoDup (map fileName (drive w)) -> NoDup (map fileName (drive w'))).
Proof.
  cbv zeta.
  destruct (saveNewsToDrive_drive env folder title' body w) as [-> | ->].
  - repeat split; [lia|lia|auto].
  - destruct (stored_spec (Storage.safeKey title') body (drive w)) as (_ & Hlen & Hother).
    repeat split; [exact Hother|lia|lia|apply stored_names_unique].
Qed.

Lemma save_confined_to_its_key_witness :
  NoDup (map fileName
             (drive (snd (Storage.saveNewsToDrive (Scenario.answering []) (Some (js "text"))
                            (js "Rates cut") (js "body") Scenario.w0)))).
Proof.
  apply (save_confined_to_its_key (Scenario.answering []) (Some (js "text"))
           (js "Rates cut") (js "body") Scenario.w0).
  constructor.
Defined.

(** X5.  [saveNewsToDrive] never throws.  When Drive fails at the first
    call of a save, or the Drive library is not deployed, the save returns
    [false] and the folder is unchanged. *)
Theorem failed_save_returns_false (env : Env) (folder : option jsstring)
        (title' body : jsstring) (w : World) :
  (exists b w', Storage.saveNewsToDrive env folder title' body w = (Ok b, w'))
  /\ (driveFails env (tick w) = true \/ hasUtilsGoogleDrive env = false ->
      exists w',
        Storage.saveNewsToDrive env folder title' body w = (Ok false, w')
        /\ drive w' = drive w).
Proof.
  split; [apply saveNewsToDrive_returns|].
  intros Hfail. unfold Storage.saveNewsToDrive.
  destruct (hasUtilsGoogleDrive env); cbn [negb]; [|eexists; split; reflexivity].
  destruct Hfail as [Hfail|Hfail]; [|discriminate].
  unfold saveOrUpdateFile.
  destruct folder as [folder|]; [|eexists; split; reflexivity].
  destruct (isEmpty (Storage.safeKey title') || (length (trim (Storage.safeKey title')) =? 0));
    [eexists; split; reflexivity|].
  cbv [try_catch bind log ret getFilesByName setContent createFile getName driveCall
       advance setDrive logged tick drive logs Utils.logError Utils.logAction].
  destruct w as [t l d]. cbv [tick] in Hfail. rewrite Hfail.
  eexists. split; reflexivity.
Qed.

Lemma failed_save_returns_false_witness :
  exists w',
    Storage.saveNewsToDrive
      (Scenario.envOf (fun _ _ => Ok []) (Throw []) (fun _ => true) (Ok []))
      (Some (js "text")) (js "Rates cut") (js "body") Scenario.w0 = (Ok false, w')
    /\ drive w' = drive Scenario.w0.
Proof.
  apply (failed_save_returns_false
           (Scenario.envOf (fun _ _ => Ok []) (Throw []) (fun _ => true) (Ok []))
           (Some (js "text")) (js "Rates cut") (js "body") Scenario.w0).
  left. reflexivity.
Defined.

(* ===================================================================== *)
(** ** Content resolution *)
(* ===================================================================== *)

Lemma fetchDetailPage_returns (env : Env) (link' : jsstring)
      (config : option DetailPageConfig) (w : World) :
  exists text w', Content.fetchDetailPageContent env link' config w = (Ok text, w').
Proof.
  unfold Content.fetchDetailPageContent.
  destruct (isEmpty link' || (length (trim link') =? 0)); [eexists; eexists; reflexivity|].
  apply try_catch_returns. intros e s. eexists. eexists. reflexivity.
Qed.

(** X6.  The detail-page extractor never throws.  A blank link gives the
    empty string without any request; a request that throws gives the
    empty string and one error line; a response whose code is not 200 gives
    the empty string. *)
Theorem detail_page_failures_give_empty (env : Env) (link' : jsstring)
        (config : option DetailPageConfig) (w : World) :
  (exists text w', Content.fetchDetailPageContent env link' config w = (Ok text, w'))
  /\ (nonBlank link' = false ->
      Content.fetchDetailPageContent env link' config w = (Ok [], w))
  /\ (forall e,
         nonBlank link' = true ->
         urlFetch env (tick w) link' = Throw e ->
         Content.fetchDetailPageContent env link' config w
         = (Ok [], logged (LogError (js "抓取详情页: " ++ link') e) (advance w)))
  /\ (forall code html,
         nonBlank link' = true ->
         urlFetch env (tick w) link' = Ok (code, html) ->
         code <> 200%N ->
         Content.fetchDetailPageContent env link' config w
         = (Ok [], logged (LogAction (js "详情页抓取失败") None) (advance w))).
Proof.
  split; [apply fetchDetailPage_returns|].
  unfold Content.fetchDetailPageContent, nonBlank.
  split; [|split].
  - intro Hb. destruct (isEmpty link'); [reflexivity|]. cbn [negb andb orb] in *.
    destruct (length (trim link')); [reflexivity|discriminate].
  - intros e Hb Hfetch. destruct (isEmpty link'); [discriminate|]. cbn [negb andb orb] in *.
    destruct (length (trim link')); [discriminate|]. cbn [Nat.eqb].
    unfold try_catch, bind, external. rewrite Hfetch. reflexivity.
  - intros code html Hb Hfetch Hcode. destruct (isEmpty link'); [discriminate|].
    cbn [negb andb orb] in *.
    destruct (length (trim link')); [discriminate|]. cbn [Nat.eqb].
    unfold try_catch, bind, external. rewrite Hfetch.
    apply N.eqb_neq in Hcode. rewrite Hcode. reflexivity.
Qed.

Lemma detail_page_failures_give_empty_witness :
  Content.fetchDetailPageContent Scenario.failing (js "https://example.com/a") None Scenario.w0
  = (Ok [], logged (LogError (js "抓取详情页: https://example.com/a") (js "offline"))
                   (advance Scenario.w0)).
Proof.
  pose proof (proj1 (proj2 (proj2 (detail_page_failures_give_empty
                                     Scenario.failing (js "https://example.com/a") None
                                     Scenario.w0)))) as H.
  vm_compute in H. vm_compute. apply H; reflexivity.
Defined.

(** X7.  The selector loop returns the fragment of the first selector, in
    the configured order, whose extracted fragment is longer than 100 units
    once trimmed: every selector before it was tried and gave a fragment of
    at most 100 units.  When it returns the empty string, every selector
    gave such a short fragment. *)
Theorem first_long_fragment_wins (env : Env) (html : jsstring) (selectors' : list jsstring)
        (fragment : jsstring) :
  Content.selectContent env html selectors' = Ok fragment ->
  (exists before selector after,
      selectors' = before ++ selector :: after
      /\ extractElement env html selector = Ok fragment
      /\ 100 < length (trim fragment)
      /\ Forall (fun s => exists short,
                     extractElement env html s = Ok short /\ length (trim short) <= 100)
                before)
  \/ (fragment = []
      /\ Forall (fun s => exists short,
                     extractElement env html s = Ok short /\ length (trim short) <= 100)
                selectors').
Proof.
  revert fragment. induction selectors' as [|selector rest IH]; intros fragment Hsel.
  - right. simpl in Hsel. injection Hsel as <-. split; [reflexivity|constructor].
  - simpl in Hsel. destruct (extractElement env html selector) as [extracted|e] eqn:Hex;
      [|discriminate].
    destruct (nonBlank extracted && (100 <? length (trim extracted))) eqn:Hacc.
    + injection Hsel as <-. left. exists [], selector, rest.
      apply andb_true_iff in Hacc as [_ Hlen]. apply Nat.ltb_lt in Hlen.
      repeat split; [exact Hex|exact Hlen|constructor].
    + assert (Hshort : length (trim extracted) <= 100).
      { apply andb_false_iff in Hacc as [Hnb|Hlen].
        - unfold nonBlank in Hnb. apply andb_false_iff in Hnb as [Hnb|Hnb].
          + destruct extracted; [simpl; lia|discriminate].
          + apply Nat.ltb_ge in Hnb. lia.
        - now apply Nat.ltb_ge in Hlen. }
      destruct (IH fragment Hsel) as [(before & sel & after & -> & Hs & Hl & Hb)|[-> Hall]].
      * left. exists (selector :: before), sel, after.
        repeat split; try assumption. constructor; [|exact Hb]. now exists extracted.
      * right. split; [reflexivity|]. constructor; [|exact Hall]. now exists extracted.
Qed.

Lemma first_long_fragment_wins_witness :
  exists before selector after,
    [js ".meta"; js ".body"; js "article"] = before ++ selector :: after
    /\ extractElement twoFragments [] selector = Ok (repeat (ch "b") 150)
    /\ 100 < length (trim (repeat (ch "b") 150)).
Proof.
  destruct (first_long_fragment_wins twoFragments [] [js ".meta"; js ".body"; js "article"]
              (repeat (ch "b") 150))
    as [(before & selector & after & Hs & Hex & Hlen & _)|[Hnil _]].
  - vm_compute. reflexivity.
  - now exists before, selector, after.
  - discriminate.
Defined.

Lemma orElse_nonempty (a b : jsstring) : b <> [] -> orElse a b <> [].
Proof. unfold orElse. destruct a; simpl; [auto|discriminate]. Qed.

(** X8.  Content resolution never throws and never returns the empty
    string: the body is cleaned text or one of the sentinel strings. *)
Theorem resolved_content_is_never_empty (env : Env) (entry : Entry) (feed : Feed) (w : World) :
  exists body w',
    Content.extractNewsContent env entry feed w = (Ok body, w') /\ body <> [].
Proof.
  unfold Content.extractNewsContent. cbv zeta. unfold bind at 1.
  assert (Hfetch :
    exists d w1,
      (if detailPageEnabled CONTENT_CONFIG && nonBlank (link entry)
          && Content.notDisabled (detailPageConfig feed)
       then Content.fetchDetailPageContent env (link entry) (detailPageConfig feed)
       else ret []) w = (Ok d, w1)).
  { destruct (detailPageEnabled CONTENT_CONFIG && nonBlank (link entry)
              && Content.notDisabled (detailPageConfig feed)).
    - apply fetchDetailPage_returns.
    - eexists. eexists. reflexivity. }
  destruct Hfetch as (d & w1 & ->).
  assert (Hsent : forall x, orElse (Content.cleanFooterContent x) (js "【内容为空】") <> [])
    by (intro x; apply orElse_nonempty; discriminate).
  destruct (isEmpty (if nonBlank d then d else [])).
  - destruct (find nonBlank
                   [content_encoded entry; content entry; description entry; summary entry])
      as [raw|].
    + unfold bind, try_catch, Content.liftOutcome, Utils.logError, log, ret.
      destruct (cleanHtmlContent env raw [js "p"; js "br"; js "strong"; js "em"])
        as [cleaned|e].
      * eexists. eexists. split; [reflexivity|apply Hsent].
      * destruct (nonBlank d); eexists; eexists;
          (split; [reflexivity|first [apply Hsent|discriminate]]).
    + destruct (nonBlank d); eexists; eexists;
        (split; [reflexivity|first [apply Hsent|discriminate]]).
  - eexists. eexists. split; [reflexivity|apply Hsent].
Qed.

(** X9.  When the entry has no usable link, or the feed disables detail
    pages, no request is made: the body comes from the first non-blank
    field among content:encoded, content, description and summary, in that
    order, cleaned and scrubbed.  Without such a field the result is the
    extraction-failure sentinel; when the cleaner throws it is the
    cleaning-failure sentinel. *)
Theorem feed_fields_in_priority_order (env : Env) (entry : Entry) (feed : Feed) (w : World) :
  nonBlank (link entry) = false \/ Content.notDisabled (detailPageConfig feed) = false ->
  tick (snd (Content.extractNewsContent env entry feed w)) = tick w
  /\ fst (Content.extractNewsContent env entry feed w)
     = Ok match find nonBlank [content_encoded entry; content entry;
                               description entry; summary entry] with
          | None => js "【内容提取失败】"
          | Some rawContent =>
            match cleanHtmlContent env rawContent [js "p"; js "br"; js "strong"; js "em"] with
            | Ok cleaned => orElse (Content.cleanFooterContent cleaned) (js "【内容为空】")
            | Throw _ => js "【内容清理失败】"
            end
          end.
Proof.
  intro Hoff. unfold Content.extractNewsContent. cbv zeta.
  assert (Hno : detailPageEnabled CONTENT_CONFIG && nonBlank (link entry)
                && Content.notDisabled (detailPageConfig feed) = false).
  { destruct Hoff as [-> | ->]; [now rewrite andb_false_r|now rewrite andb_false_r]. }
  rewrite Hno. unfold bind at 1. unfold ret at 1.
  change (nonBlank []) with false. cbn [isEmpty].
  destruct (find nonBlank
                 [content_encoded entry; content entry; description entry; summary entry])
    as [raw|]; [|split; reflexivity].
  unfold bind, try_catch, Content.liftOutcome, Utils.logError, log, ret.
  destruct (cleanHtmlContent env raw [js "p"; js "br"; js "strong"; js "em"]) as [cleaned|e];
    split; reflexivity.
Qed.

Lemma feed_fields_in_priority_order_witness :
  fst (Content.extractNewsContent Scenario.failing
         (mkEntry (js "t") [] (js "from description") [] (js "  ") (js "from summary"))
         plainFeed Scenario.w0)
  = Ok (js "from description").
Proof.
  apply (feed_fields_in_priority_order Scenario.failing
           (mkEntry (js "t") [] (js "from description") [] (js "  ") (js "from summary"))
           plainFeed Scenario.w0).
  left. reflexivity.
Defined.

(** X10.  When the detail page is tried and yields text that is not blank,
    that text, scrubbed, is the body, whatever the feed itself carried. *)
Theorem detail_page_comes_first (env : Env) (entry : Entry) (feed : Feed) (w w1 : World)
        (page : jsstring) :
  nonBlank (link entry) = true ->
  Content.notDisabled (detailPageConfig feed) = true ->
  Content.fetchDetailPageContent env (link entry) (detailPageConfig feed) w = (Ok page, w1) ->
  nonBlank page = true ->
  Content.extractNewsContent env entry feed w
  = (Ok (orElse (Content.cleanFooterContent page) (js "【内容为空】")), w1).
Proof.
  intros Hlink Hon Hfetch Hpage. unfold Content.extractNewsContent. cbv zeta.
  rewrite Hlink, Hon. cbn [detailPageEnabled CONTENT_CONFIG andb].
  unfold bind at 1. rewrite Hfetch, Hpage.
  assert (Hne : isEmpty page = false).
  { unfold nonBlank in Hpage. apply andb_true_iff in Hpage as [H _].
    now apply negb_true_iff in H. }
  rewrite Hne. reflexivity.
Qed.

Lemma detail_page_comes_first_witness :
  fst (Content.extractNewsContent servingSamplePage
         (mkEntry (js "t") (js "https://example.com/a") (js "teaser") [] [] [])
         plainFeed Scenario.w0)
  = Ok samplePage.
Proof.
  rewrite (detail_page_comes_first servingSamplePage
             (mkEntry (js "t") (js "https://example.com/a") (js "teaser") [] [] [])
             plainFeed Scenario.w0
             (snd (Content.fetchDetailPageContent servingSamplePage (js "https://example.com/a")
                     None Scenario.w0))
             samplePage).
  - vm_compute. reflexivity.
  - reflexivity.
  - reflexivity.
  - vm_compute. reflexivity.
  - reflexivity.
Defined.

(* ===================================================================== *)
(** ** More on the footer scrubber *)
(* ===================================================================== *)

Lemma removeAllFrom_length (pat : jsstring) (s : jsstring) (skip : nat) :
  length (removeAllFrom pat skip s) <= length s.
Proof.
  revert skip. induction s as [|c s IH]; intro skip; simpl; [lia|].
  destruct skip as [|k].
  - destruct (startsWith pat (c :: s)).
    + specialize (IH (length pat - 1)). lia.
    + simpl. specialize (IH 0). lia.
  - specialize (IH k). lia.
Qed.

Lemma processLine_length (line : jsstring) :
  length (Content.processLine line) <= length line.
Proof.
  unfold Content.processLine. cbv zeta.
  pose proof (trim_length line).
  destruct (includes (trim line) Content.END_MARK); [|assumption].
  pose proof (trim_length (removeAll Content.END_MARK (trim line))).
  pose proof (removeAllFrom_length Content.END_MARK (trim line) 0).
  unfold removeAll in *. lia.
Qed.

Lemma join_length (lines : list jsstring) :
  length (join [LF] lines) = list_sum (map (@length N) lines) + (length lines - 1).
Proof.
  induction lines as [|l [|l' rest] IH]; [reflexivity|simpl; lia|].
  rewrite join_cons2, !length_app, IH. simpl. lia.
Qed.

Lemma processLines_sizes (lines : list jsstring) :
  list_sum (map (@length N) (Content.processLines lines))
  <= list_sum (map (@length N) lines)
  /\ length (Content.processLines lines) <= length lines.
Proof.
  unfold Content.processLines.
  induction lines as [|l rest [IH1 IH2]]; [simpl; lia|].
  simpl map. simpl filter.
  pose proof (processLine_length l) as Hl.
  destruct (Content.keepLine (Content.processLine l)); simpl; lia.
Qed.

(** X11.  Scrubbing never lengthens a text. *)
Theorem scrubbing_never_lengthens (content' : jsstring) :
  length (Content.cleanFooterContent content') <= length content'.
Proof.
  destruct (nonBlank content') eqn:Hnb.
  - rewrite (cleanFooter_run content' Hnb). cbv zeta.
    etransitivity; [apply trim_length|].
    rewrite join_length.
    assert (Hc : length content'
                 = list_sum (map (@length N) (split LF content'))
                   + (length (split LF content') - 1)).
    { rewrite <- join_length. now rewrite join_split. }
    rewrite Hc.
    set (lines := split LF content').
    set (k := length lines - 11).
    pose proof (processLines_sizes (skipn k lines)) as [Hsum Hlen].
    assert (Hl : lines = firstn k lines ++ skipn k lines) by now rewrite firstn_skipn.
    assert (H1 : list_sum (map (@length N) lines)
                 = list_sum (map (@length N) (firstn k lines))
                   + list_sum (map (@length N) (skipn k lines))).
    { rewrite Hl at 1. now rewrite map_app, list_sum_app. }
    assert (H2 : length lines = length (firstn k lines) + length (skipn k lines)).
    { rewrite Hl at 1. now rewrite length_app. }
    rewrite !map_app, !list_sum_app, !length_app. unfold jsstring in *. lia.
  - rewrite (cleanFooter_blank content' Hnb). lia.
Qed.

Lemma trim_infix (s : jsstring) : exists p q, s = p ++ trim s ++ q.
Proof.
  unfold trim. destruct (trimStart_suffix s) as [p Hp].
  destruct (trimEnd_prefix (trimStart s)) as [q Hq].
  exists p, q. now rewrite <- Hq.
Qed.

Lemma includes_of_trim (s pat : jsstring) :
  includes (trim s) pat = true -> includes s pat = true.
Proof.
  intro H. apply includes_true_iff in H as (a & b & Hab).
  destruct (trim_infix s) as (p & q & Hs).
  apply includes_true_iff. exists (p ++ a), (b ++ q).
  rewrite Hs at 1. rewrite Hab. now rewrite <- !app_assoc.
Qed.

Lemma includes_join (keyword : jsstring) (lines : list jsstring) :
  keyword <> [] -> ~ In LF keyword ->
  includes (join [LF] lines) keyword = true ->
  exists line, In line lines /\ includes line keyword = true.
Proof.
  intros Hne Hlf. induction lines as [|l [|l' rest] IH]; intro Hinc.
  - apply includes_true_iff in Hinc as (a & b & Hab). simpl in Hab.
    destruct a; [destruct keyword; [contradiction|discriminate]|discriminate].
  - exists l. split; [now left|exact Hinc].
  - rewrite join_cons2 in Hinc. apply includes_true_iff in Hinc as (a & b & Hab).
    change ([LF] ++ join [LF] (l' :: rest)) with (LF :: join [LF] (l' :: rest)) in Hab.
    symmetry in Hab.
    apply app_eq_app in Hab as [m [[Ha Hm]|[Hl Hm]]].
    + (* the occurrence starts after the end of l *)
      destruct m as [|x m].
      * simpl in Hm. destruct keyword as [|k0 kw]; [contradiction|].
        injection Hm as <- _. exfalso. apply Hlf. now left.
      * injection Hm as _ Hr.
        destruct IH as (line & Hin & Hline).
        { apply includes_true_iff. now exists m, b. }
        exists line. split; [now right|exact Hline].
    + (* the occurrence starts inside l *)
      symmetry in Hm.
      apply app_eq_app in Hm as [n [[Hm' Hb]|[Hk Hn]]].
      * exists l. split; [now left|].
        apply includes_true_iff. exists a, n. now rewrite Hl, Hm'.
      * destruct n as [|x n].
        -- exists l. split; [now left|].
           apply includes_true_iff. exists a, []. rewrite app_nil_r in Hk.
           now rewrite Hl, <- Hk, app_nil_r.
        -- injection Hn as <- _. exfalso. apply Hlf. rewrite Hk.
           apply in_or_app. right. now left.
Qed.

(** X12.  A text of at most eleven lines comes out of the scrubber without
    any of the banned markers. *)
Theorem short_text_is_marker_free (content' keyword : jsstring) :
  length (split LF content') <= 11 ->
  In keyword Content.keywordsToRemove ->
  includes (Content.cleanFooterContent content') keyword = false.
Proof.
  intros Hshort Hkw.
  assert (Hne : keyword <> []).
  { intros ->. simpl in Hkw. repeat (destruct Hkw as [Hkw|Hkw]; [discriminate|]).
    contradiction. }
  assert (Hunit : exists c, In c keyword /\ isWhiteSpace c = false).
  { simpl in Hkw.
    repeat (destruct Hkw as [<-|Hkw]; [eexists; split; [left; reflexivity|reflexivity]|]).
    contradiction. }
  assert (Hlf : ~ In LF keyword).
  { simpl in Hkw.
    repeat (destruct Hkw as [<-|Hkw]; [vm_compute; intuition discriminate|]).
    contradiction. }
  destruct (includes (Content.cleanFooterContent content') keyword) eqn:Hinc; [|reflexivity].
  exfalso. destruct (nonBlank content') eqn:Hnb.
  - rewrite (cleanFooter_run content' Hnb) in Hinc. cbv zeta in Hinc.
    replace (length (split LF content') - 11) with 0 in Hinc by lia.
    cbn [firstn skipn app] in Hinc.
    apply includes_of_trim in Hinc.
    apply (includes_join keyword _ Hne Hlf) in Hinc as (line & Hin & Hline).
    unfold Content.processLines in Hin. apply filter_In in Hin as [_ Hkeep].
    unfold Content.keepLine in Hkeep. apply negb_true_iff in Hkeep.
    assert (Hex : existsb (fun kw => includes line kw) Content.keywordsToRemove = true).
    { apply existsb_exists. exists keyword. split; assumption. }
    congruence.
  - rewrite (cleanFooter_blank content' Hnb) in Hinc.
    apply includes_true_iff in Hinc as (a & b & ->).
    destruct Hunit as (c & Hc & Hws).
    assert (nonBlank (a ++ keyword ++ b) = true).
    { apply nonBlank_of_unit with (c := c); [|exact Hws].
      apply in_or_app. right. apply in_or_app. now left. }
    congruence.
Qed.

Lemma short_text_is_marker_free_witness :
  includes (Content.cleanFooterContent
              (join [LF] [js "第一段"; js "本报记者 张三"; js "责任编辑：李四 监制"]))
           (js "记者") = false.
Proof.
  apply short_text_is_marker_free.
  - vm_compute. lia.
  - left. reflexivity.
Defined.

(* ===================================================================== *)
(** ** Reasoning markup *)
(* ===================================================================== *)

Lemma eqCI_refl (p : N) : eqCI p p = true.
Proof. unfold eqCI. now rewrite N.eqb_refl. Qed.

Lemma startsWithCI_app (p s : jsstring) : startsWithCI p (p ++ s) = true.
Proof. induction p as [|c p IH]; simpl; [reflexivity|]. now rewrite eqCI_refl. Qed.

Lemma stripPairedFrom_skip (op cl p s : jsstring) :
  stripPairedFrom op cl (length p) (p ++ s) = stripPairedFrom op cl 0 s.
Proof. induction p as [|c p IH]; [reflexivity|exact IH]. Qed.

Lemma endOfFirstCI_after (cl x rest : jsstring) :
  (forall c s, In c x -> startsWithCI cl (c :: s) = false) ->
  endOfFirstCI cl (x ++ cl ++ rest) = Some (length x + length cl).
Proof.
  intro Hno. induction x as [|c x IH].
  - simpl app. destruct (cl ++ rest) as [|d r] eqn:E.
    + destruct cl; [reflexivity|discriminate].
    + assert (Hs : startsWithCI cl (d :: r) = true) by (rewrite <- E; apply startsWithCI_app).
      simpl. now rewrite Hs.
  - simpl app. simpl endOfFirstCI. rewrite (Hno c _ (or_introl eq_refl)).
    rewrite IH; [reflexivity|]. intros d s Hd. apply Hno. now right.
Qed.

(** X13.  A leading [<think>] block whose reasoning text holds no [<] is
    removed whole: the response is read as if the block were not there. *)
Theorem leading_think_block_is_dropped (reasoning rest : jsstring) :
  ~ In (ch "<") reasoning ->
  AI.cleanThinkingTags (js "<think>" ++ reasoning ++ js "</think>" ++ rest)
  = AI.cleanThinkingTags rest.
Proof.
  intro Hlt. unfold AI.cleanThinkingTags. f_equal. f_equal.
  unfold stripPaired.
  assert (Hclose : forall c s, In c reasoning -> startsWithCI (js "</think>") (c :: s) = false).
  { intros c s Hc. change (js "</think>") with (ch "<" :: js "/think>").
    cbn [startsWithCI]. apply andb_false_iff. left.
    unfold eqCI. apply orb_false_iff. split; [apply orb_false_iff; split|].
    - apply N.eqb_neq. intros <-. contradiction.
    - reflexivity.
    - reflexivity. }
  change (js "<think>" ++ reasoning ++ js "</think>" ++ rest)
    with (ch "<" :: js "think>" ++ reasoning ++ js "</think>" ++ rest).
  cbn [stripPairedFrom].
  change (ch "<" :: js "think>" ++ reasoning ++ js "</think>" ++ rest)
    with (js "<think>" ++ reasoning ++ js "</think>" ++ rest).
  rewrite startsWithCI_app.
  replace (skipn (length (js "<think>")) (js "<think>" ++ reasoning ++ js "</think>" ++ rest))
    with (reasoning ++ js "</think>" ++ rest) by reflexivity.
  rewrite (endOfFirstCI_after _ _ _ Hclose).
  replace (length (js "<think>") + (length reasoning + length (js "</think>")) - 1)
    with (length (js "think>" ++ reasoning ++ js "</think>"))
    by (rewrite !length_app; simpl; lia).
  replace (js "think>" ++ reasoning ++ js "</think>" ++ rest)
    with ((js "think>" ++ reasoning ++ js "</think>") ++ rest)
    by (now rewrite <- !app_assoc).
  apply stripPairedFrom_skip.
Qed.

Lemma leading_think_block_is_dropped_witness :
  AI.cleanThinkingTags (js "<think>" ++ js "sports? no, finance" ++ js "</think>" ++ js "
1,finance")
  = js "1,finance".
Proof.
  rewrite leading_think_block_is_dropped.
  - reflexivity.
  - vm_compute. intuition discriminate.
Defined.

(* ===================================================================== *)
(** ** The counters of a run *)
(* ===================================================================== *)

Lemma grows_refl (s : RunState) : grows s s.
Proof. unfold grows. lia. Qed.

Lemma grows_trans (s1 s2 s3 : RunState) : grows s1 s2 -> grows s2 s3 -> grows s1 s3.
Proof. unfold grows. lia. Qed.

Lemma grows_liftW {A} (m : M World A) (s : RunState) : grows s (snd (liftW m s)).
Proof. unfold liftW. destruct (m (world s)). unfold grows. simpl. lia. Qed.

Lemma grows_bind {A B} (m : M RunState A) (k : A -> M RunState B) :
  (forall s, grows s (snd (m s))) -> (forall a s, grows s (snd (k a s))) ->
  forall s, grows s (snd (bind m k s)).
Proof.
  intros Hm Hk s. unfold bind. specialize (Hm s).
  destruct (m s) as [[a|e] s1]; cbn [snd] in *; [|exact Hm].
  eapply grows_trans; [exact Hm|apply Hk].
Qed.

Lemma grows_try {A} (body : M RunState A) (handler : JsError -> M RunState A) :
  (forall s, grows s (snd (body s))) -> (forall e s, grows s (snd (handler e s))) ->
  forall s, grows s (snd (try_catch body handler s)).
Proof.
  intros Hm Hk s. unfold try_catch. specialize (Hm s).
  destruct (body s) as [[a|e] s1]; cbn [snd] in *; [exact Hm|].
  eapply grows_trans; [exact Hm|apply Hk].
Qed.

Lemma grows_forEach {A} (l : list A) (callback : A -> M RunState unit) :
  (forall x s, grows s (snd (callback x s))) ->
  forall s, grows s (snd (forEach l callback s)).
Proof.
  intro Hcb. induction l as [|x l IH]; intro s; [apply grows_refl|].
  simpl. apply grows_bind; [apply Hcb|intros _; exact IH].
Qed.

Section Counters.

Variable nu : Namespace.
Variable newsFolder : jsstring.

(** The body of the inner [try] changes no counter but [totalSaved], which
    it raises by one at most, and only when it does not throw. *)
Lemma entryBody_counters (feed : Feed) (entry : Entry) (s : RunState) :
  let r := entryBody nu newsFolder feed entry s in
  totalProcessed (snd r) = totalProcessed s
  /\ totalErrors (snd r) = totalErrors s
  /\ totalSaved s <= totalSaved (snd r) <= S (totalSaved s)
  /\ (forall e, fst r = Throw e -> totalSaved (snd r) = totalSaved s).
Proof.
  destruct s as [w p sv er].
  unfold entryBody, finalContentOf, persist.
  cbv [bind liftW ret incSaved Utils.logAction log world totalProcessed totalSaved totalErrors].
  destruct (classifyNewsByTitle nu (title entry) w) as [[cls|e] w1];
    [|cbn; repeat split; intros; lia].
  destruct (shouldSave cls); [|cbn; repeat split; intros; try lia; discriminate].
  destruct (extractNewsContent nu entry feed w1) as [[body|e] w2];
    [|cbn; repeat split; intros; lia].
  destruct (maxContentLength CONTENT_CONFIG <? length body).
  - destruct (summarizeContent nu body w2) as [[final|e] w3];
      [|cbn; repeat split; intros; lia].
    destruct (length final <? minContentLength CONTENT_CONFIG);
      [cbn; repeat split; intros; try lia; discriminate|].
    destruct (saveNewsToDrive nu (Some newsFolder) (title entry) _ w3) as [[[]|e] w4];
      cbn; repeat split; intros; try lia; discriminate.
  - destruct (length body <? minContentLength CONTENT_CONFIG);
      [cbn; repeat split; intros; try lia; discriminate|].
    destruct (saveNewsToDrive nu (Some newsFolder) (title entry) _ w2) as [[[]|e] w4];
      cbn; repeat split; intros; try lia; discriminate.
Qed.

Lemma processEntry_grows (feed : Feed) (entry : Entry) (s : RunState) :
  grows s (snd (processEntry nu newsFolder feed entry s)).
Proof.
  rewrite processEntry_run. destruct (validTitle entry).
  - pose proof (entryBody_counters feed entry (entered s)) as (Hp & He & Hs & _).
    cbv zeta in *.
    destruct (entryBody nu newsFolder feed entry (entered s)) as [[[]|e] s1];
      unfold grows, caught, entered in *; cbn [snd totalProcessed totalSaved totalErrors] in *;
        lia.
  - unfold grows. cbn. lia.
Qed.

Lemma feedBody_grows (feed : Feed) (s : RunState) :
  grows s (snd (feedBody nu newsFolder feed s)).
Proof.
  unfold feedBody. cbv zeta.
  apply grows_bind; [apply grows_liftW|intros _].
  apply grows_bind; [apply grows_liftW|intros entries].
  apply grows_bind; [apply grows_liftW|intros _].
  apply grows_forEach. intros entry s'. apply processEntry_grows.
Qed.

Lemma processFeed_grows (feed : Feed) (s : RunState) :
  grows s (snd (processFeed nu newsFolder feed s)).
Proof.
  unfold processFeed. apply grows_try; [apply feedBody_grows|].
  intros e s'. apply grows_bind; [apply grows_liftW|].
  intros _ s''. unfold grows, incErrors. cbn. lia.
Qed.

Lemma processFeeds_grows (feeds : list Feed) (s : RunState) :
  grows s (snd (processFeeds nu newsFolder feeds s)).
Proof. unfold processFeeds. apply grows_forEach. intros. apply processFeed_grows. Qed.

End Counters.

(** X14.  Throughout a run the counters only grow and the number of saved
    entries never exceeds the number of processed ones, whatever the
    functions of the namespace do; so in the summary of a group run the
    items seen are exactly the items saved plus the items skipped. *)
Theorem saved_never_exceeds_seen (nu : Namespace) (newsFolder : jsstring) :
  (forall feeds s,
      totalSaved s <= totalProcessed s ->
      let s' := snd (processFeeds nu newsFolder feeds s) in
      totalSaved s' <= totalProcessed s'
      /\ totalProcessed s <= totalProcessed s'
      /\ totalSaved s <= totalSaved s'
      /\ totalErrors s <= totalErrors s')
  /\ (forall env feeds groupNumber w,
         let r := fst (processNewsFeedsByGroup env nu feeds groupNumber w) in
         exists summary',
           r = Ok summary'
           /\ seen summary' = saved summary' + skipped summary').
Proof.
  split.
  - intros feeds s Hinv. cbv zeta.
    pose proof (processFeeds_grows nu newsFolder feeds s) as Hg. unfold grows in Hg. lia.
  - intros env feeds groupNumber w. cbv zeta.
    unfold processNewsFeedsByGroup.
    cbv [bind Utils.logStart Utils.logAction Utils.logError log ret].
    destruct (length (filter (fun feed => (processGroup feed =? groupNumber)%N) feeds) =? 0).
    + eexists. split; reflexivity.
    + destruct (createNewsDateFolder_returns
                  env STORAGE_rootFolder STORAGE_subFolder
                  (logged (LogAction (js "分组过滤") None)
                          (logged (LogStart (groupScriptName groupNumber)) w)))
        as (folder & w1 & Hfolder).
      rewrite Hfolder. destruct folder as [folder|]; [|eexists; split; reflexivity].
      pose proof (processFeeds_grows nu folder
                    (filter (fun feed => (processGroup feed =? groupNumber)%N) feeds)
                    (mkRun w1 0 0 0)) as Hg.
      destruct (forEach_returns
                  (filter (fun feed => (processGroup feed =? groupNumber)%N) feeds)
                  (processFeed nu folder) (processFeed_returns nu folder)
                  (mkRun w1 0 0 0)) as [s' Hs'].
      unfold processFeeds in *. rewrite Hs' in *. cbn [snd] in Hg.
      eexists. split; [reflexivity|].
      unfold summaryOf, grows in *. cbn [seen saved skipped totalProcessed totalSaved] in *.
      lia.
Qed.

Lemma saved_never_exceeds_seen_witness :
  let s' := snd (processFeeds brittle (js "text") [badFeed; goodFeed] s0) in
  totalSaved s' <= totalProcessed s'.
Proof.
  apply (proj1 (saved_never_exceeds_seen brittle (js "text")) [badFeed; goodFeed] s0).
  simpl. lia.
Defined.

(** X15.  One feed adds at most its entry cap to the number of processed
    entries, whatever the reader returns; the cap is the feed's own
    [maxEntriesPerFeed] when that is set and not zero, and 50 otherwise. *)
Theorem feed_cap_bounds_processed (nu : Namespace) (newsFolder : jsstring) (feed : Feed)
        (s : RunState) :
  totalProcessed (snd (processFeed nu newsFolder feed s))
  <= totalProcessed s + maxEntriesOf feed
  /\ 1 <= maxEntriesOf feed
  /\ (maxEntriesPerFeed feed = None \/ maxEntriesPerFeed feed = Some 0 ->
      maxEntriesOf feed = 50).
Proof.
  split; [|split].
  - rewrite processFeed_run. unfold feedBody. cbv zeta.
    unfold bind at 1. unfold liftW at 1. unfold Utils.logAction, log.
    unfold bind at 1. unfold liftW at 1.
    cbn [world totalProcessed totalSaved totalErrors].
    destruct (fetchAndParse nu (url feed) (type feed) _) as [[entries|e] w1];
      [|cbn; lia].
    unfold bind at 1. unfold liftW at 1. unfold Utils.logScanRange, log.
    cbn [world totalProcessed totalSaved totalErrors].
    match goal with
    | |- context [forEach ?l ?cb ?st] =>
      destruct (entries_all_processed nu newsFolder feed l st) as (s' & Hrun & Hcount)
    end.
    rewrite Hrun. cbn [snd totalProcessed] in *. rewrite Hcount.
    assert (Hf : length (filter validTitle (firstn (maxEntriesOf feed) entries))
                 <= maxEntriesOf feed).
    { etransitivity; [apply filter_length_le|]. apply firstn_le_length. }
    cbn [totalProcessed]. lia.
  - unfold maxEntriesOf. destruct (maxEntriesPerFeed feed) as [[|n]|]; simpl; lia.
  - intros [H|H]; unfold maxEntriesOf; rewrite H; reflexivity.
Qed.

Lemma feed_cap_bounds_processed_witness :
  maxEntriesOf plainFeed = 50
  /\ totalProcessed (snd (processFeed brittle (js "text") goodFeed s0)) <= 0 + 50.
Proof.
  split.
  - apply (feed_cap_bounds_processed brittle (js "text") plainFeed s0). left. reflexivity.
  - apply (feed_cap_bounds_processed brittle (js "text") goodFeed s0).
Defined.

Lemma filter_filter {A} (f : A -> bool) (l : list A) : filter f (filter f l) = filter f l.
Proof.
  induction l as [|x l IH]; simpl; [reflexivity|].
  destruct (f x) eqn:E; simpl; [rewrite E; now f_equal|exact IH].
Qed.

(** X16.  A group run only works on the feeds configured for its group.
    When no feed belongs to the group, it returns the empty summary after
    three log lines, without any call to a service or to the namespace;
    when the news folder cannot be obtained, it returns the empty summary
    without reading any feed. *)
Theorem group_run_selects_its_feeds (env : Env) (nu : Namespace) (feeds : list Feed)
        (groupNumber : N) (w : World) :
  processNewsFeedsByGroup env nu feeds groupNumber w
  = processNewsFeedsByGroup
      env nu (filter (fun feed => (processGroup feed =? groupNumber)%N) feeds) groupNumber w
  /\ (filter (fun feed => (processGroup feed =? groupNumber)%N) feeds = [] ->
      processNewsFeedsByGroup env nu feeds groupNumber w
      = (Ok (mkSummary 0 0 0 0),
         mkWorld (tick w)
                 (logs w ++ [LogStart (groupScriptName groupNumber);
                             LogAction (js "分组过滤") None;
                             LogEnd (groupScriptName groupNumber) (mkSummary 0 0 0 0)])
                 (drive w)))
  /\ (forall w1,
         filter (fun feed => (processGroup feed =? groupNumber)%N) feeds <> [] ->
         Storage.createNewsDateFolder
           env STORAGE_rootFolder STORAGE_subFolder
           (logged (LogAction (js "分组过滤") None)
                   (logged (LogStart (groupScriptName groupNumber)) w)) = (Ok None, w1) ->
         processNewsFeedsByGroup env nu feeds groupNumber w
         = (Ok (mkSummary 0 0 0 0),
            logged (LogError (js "processNewsFeedsGroup"
                              ++ js (NilEmpty.string_of_uint (N.to_uint groupNumber)))
                             (js "无法创建新闻文件夹")) w1)).
Proof.
  split; [|split].
  - unfold processNewsFeedsByGroup. now rewrite filter_filter.
  - intro Hnone. unfold processNewsFeedsByGroup. rewrite Hnone.
    cbv [bind Utils.logStart Utils.logAction log ret logged length Nat.eqb tick logs drive].
    destruct w as [t l d]. now rewrite <- !app_assoc.
  - intros w1 Hsome Hfolder. unfold processNewsFeedsByGroup.
    destruct (filter (fun feed => (processGroup feed =? groupNumber)%N) feeds) as [|f fs];
      [contradiction|].
    cbn [length Nat.eqb].
    unfold bind at 1. unfold Utils.logStart at 1. unfold log at 1.
    unfold bind at 1. unfold Utils.logAction at 1. unfold log at 1.
    unfold bind at 1. rewrite Hfolder. reflexivity.
Qed.

Lemma group_run_selects_its_feeds_witness :
  fst (processNewsFeedsByGroup (Scenario.answering []) brittle [badFeed; goodFeed] 7
                               Scenario.w0)
  = Ok (mkSummary 0 0 0 0).
Proof.
  rewrite (proj1 (proj2 (group_run_selects_its_feeds
                           (Scenario.answering []) brittle [badFeed; goodFeed] 7
                           Scenario.w0))); reflexivity.
Defined.

(** X17.  A save that returns [false] is not counted as an error: the
    entry is counted as processed only, so that it ends among the skipped
    items of the summary. *)
Theorem failed_save_is_not_an_error (nu : Namespace) (newsFolder : jsstring) (feed : Feed)
        (entry : Entry) (s : RunState) (cls : Classification) (w1 w2 w4 : World)
        (body final : jsstring) (flag : bool) (s3 : RunState) :
  validTitle entry = true ->
  classifyNewsByTitle nu (title entry) (world s) = (Ok cls, w1) ->
  shouldSave cls = true ->
  extractNewsContent nu entry feed w1 = (Ok body, w2) ->
  finalContentOf nu body (counted s w2) = (Ok (final, flag), s3) ->
  minContentLength CONTENT_CONFIG <= length final ->
  saveNewsToDrive nu (Some newsFolder) (title entry)
                  (Storage.formatNewsContent (name feed) (category cls) (title entry)
                                             final flag)
                  (world s3) = (Ok false, w4) ->
  processEntry nu newsFolder feed entry s
  = (Ok tt, mkRun w4 (totalProcessed s3) (totalSaved s3) (totalErrors s3))
  /\ totalProcessed s3 = S (totalProcessed s)
  /\ totalSaved s3 = totalSaved s
  /\ totalErrors s3 = totalErrors s.
Proof.
  intros Hvalid Hcls Hkeep Hbody Hfinal Hlen Hsave.
  assert (Hc : totalProcessed s3 = S (totalProcessed s)
               /\ totalSaved s3 = totalSaved s /\ totalErrors s3 = totalErrors s).
  { unfold finalContentOf in Hfinal.
    destruct (maxContentLength CONTENT_CONFIG <? length body).
    - unfold bind, liftW, ret, counted in Hfinal. cbn [world] in Hfinal.
      destruct (summarizeContent nu body w2) as [[x|e] w3]; [|discriminate].
      injection Hfinal as _ _ <-. cbn. auto.
    - unfold ret, counted in Hfinal. injection Hfinal as _ _ <-. cbn. auto. }
  split; [|exact Hc].
  rewrite processEntry_run, Hvalid. unfold entryBody.
  unfold bind at 1. unfold liftW at 1. unfold entered. cbn [world].
  rewrite Hcls, Hkeep.
  unfold bind at 1. unfold liftW at 1. cbn [world]. rewrite Hbody.
  cbn [totalProcessed totalSaved totalErrors].
  unfold bind at 1. fold (counted s w2). rewrite Hfinal.
  apply Nat.ltb_ge in Hlen. rewrite Hlen.
  unfold persist. unfold bind, liftW. rewrite Hsave. reflexivity.
Qed.

Lemma failed_save_is_not_an_error_witness :
  processEntry readOnly (js "text") goodFeed (mkEntry (js "fine") [] [] [] [] []) s0
  = (Ok tt, mkRun Scenario.w0 1 0 0).
Proof.
  apply (failed_save_is_not_an_error readOnly (js "text") goodFeed
           (mkEntry (js "fine") [] [] [] [] []) s0
           (mkClassification true (js "finance")) Scenario.w0 Scenario.w0 Scenario.w0
           (js "forty units of perfectly ordinary content")
           (js "forty units of perfectly ordinary content") false
           (mkRun Scenario.w0 1 0 0));
    try reflexivity.
  vm_compute. lia.
Defined.

Section NetworkFacts.

Import UtilsNetwork.

(** The recursion equation of [_handleRedirects], as the source writes it. *)
Lemma handleRedirects_eq (fetch : Fetcher) (url : jsstring) (options : Options)
      (redirectCount : nat) :
  _handleRedirects fetch url options redirectCount
  = try_catch
      (response <- external (fun t => fetch t url options) ;;
       let responseCode := getResponseCode response in
       if isRedirect responseCode then
         if redirectLimit options <=? redirectCount then
           throw (js "重定向次数过多 (" ++ decimal (N.of_nat redirectCount)
                  ++ js "次)，可能陷入循环")
         else
           match firstTruthy (getHeaders response (js "Location"))
                             (getHeaders response (js "location")) with
           | Some location =>
             log (LogLine (js "处理重定向: " ++ url ++ js " -> " ++ location ++ js " ("
                           ++ decimal responseCode ++ js ", 第"
                           ++ decimal (N.of_nat (redirectCount + 1)) ++ js "次)")) ;;
             _handleRedirects fetch location options (redirectCount + 1)
           | None =>
             throw (js "HTTP " ++ decimal responseCode ++ js ": 重定向但没有Location头")
           end
       else ret response)
      (fun error =>
         log (LogLine (js "网络请求失败: " ++ url ++ js ", 错误: " ++ error)) ;;
         throw error).
Proof.
  unfold _handleRedirects.
  destruct (redirectLimit options <=? redirectCount) eqn:E.
  - apply Nat.leb_le in E.
    replace (redirectLimit options - redirectCount) with 0 by lia. reflexivity.
  - apply Nat.leb_gt in E.
    replace (redirectLimit options - redirectCount)
      with (S (redirectLimit options - (redirectCount + 1))) by lia.
    reflexivity.
Qed.

Lemma handleRedirectsWithin_bounds (fetch : Fetcher) (options : Options) (remaining : nat) :
  forall url redirectCount w r w',
    handleRedirectsWithin fetch remaining url options redirectCount w = (r, w') ->
    tick w < tick w' <= tick w + remaining + 1
    /\ drive w' = drive w
    /\ (forall response, r = Ok response ->
                         isRedirect (getResponseCode response) = false).
Proof.
  induction remaining as [|remaining IH]; intros url redirectCount w r w' H.
  - cbn [handleRedirectsWithin] in H. unfold try_catch, bind, external in H.
    destruct (fetch (tick w) url options) as [response|e]; cbn in H.
    + destruct (isRedirect (getResponseCode response)) eqn:E; cbn in H;
        injection H as <- <-; cbn; repeat split; try lia; try discriminate.
      intros ? [= <-]. exact E.
    + injection H as <- <-. cbn. repeat split; try lia. discriminate.
  - cbn [handleRedirectsWithin] in H. unfold try_catch at 1 in H. unfold bind at 1 in H.
    unfold external at 1 in H.
    destruct (fetch (tick w) url options) as [response|e].
    + cbn zeta in H. destruct (isRedirect (getResponseCode response)) eqn:E.
      * destruct (firstTruthy _ _) as [location|].
        -- unfold bind at 1 in H. unfold log at 1 in H.
           destruct (handleRedirectsWithin fetch remaining location options
                                           (redirectCount + 1) _) as [[resp|e] w1] eqn:Hrec;
             apply IH in Hrec; cbn [logged advance tick drive] in Hrec;
               destruct Hrec as (Ht & Hd & Hr).
           ++ injection H as <- <-. repeat split; try lia; auto.
           ++ cbn in H. injection H as <- <-. cbn. repeat split; try lia; auto; discriminate.
        -- cbn in H. injection H as <- <-. cbn. repeat split; try lia. discriminate.
      * cbn in H. injection H as <- <-. cbn. repeat split; try lia.
        intros ? [= <-]. exact E.
    + cbn in H. injection H as <- <-. cbn. repeat split; try lia. discriminate.
Qed.

Lemma fetchWithRetry_frame (fetch : Fetcher) (url : jsstring) (options : Options)
      (w : World) (r : outcome HTTPResponse) (w' : World) :
  fetchWithRetry fetch url options w = (r, w') ->
  tick w < tick w' <= tick w + natOr (maxRedirects options) 5 + 1
  /\ drive w' = drive w
  /\ (forall response, r = Ok response -> isRedirect (getResponseCode response) = false).
Proof.
  unfold fetchWithRetry, _handleRedirects. intros H.
  apply handleRedirectsWithin_bounds in H.
  replace (redirectLimit (configOf options) - 0) with (natOr (maxRedirects options) 5) in H;
    [exact H|].
  rewrite Nat.sub_0_r. unfold redirectLimit, configOf. cbn [maximumRedirects].
  destruct (maxRedirects options) as [[|k]|]; reflexivity.
Qed.

Lemma fetchXml_frame (fetch : Fetcher) (url : jsstring) (options : Options)
      (w : World) (r : outcome jsstring) (w' : World) :
  fetchXml fetch url options w = (r, w') ->
  tick w' <= tick w + natOr (maxRedirects options) 5 + 1 /\ drive w' = drive w.
Proof.
  unfold fetchXml, try_catch. unfold bind at 1.
  destruct (fetchWithRetry fetch url _ w) as [[response|e] w1] eqn:H;
    apply fetchWithRetry_frame in H; cbn [accepting maxRedirects] in H;
      destruct H as (Ht & Hd & _).
  - cbn zeta. destruct (getResponseCode response =? 200)%N; cbn; intros [= <- <-]; cbn;
      split; (lia || assumption).
  - cbn. intros [= <- <-]. cbn. split; (lia || assumption).
Qed.

(** X18.  [fetchWithRetry] makes at least one request and at most one more
    than the redirect limit (its option [maxRedirects], or 5 when that is
    absent or zero), it leaves Drive alone, and a response it returns is
    never one of the redirects 301, 302, 307 or 308. *)
Theorem redirects_are_bounded (fetch : Fetcher) (url : jsstring) (options : Options)
        (w : World) :
  tick w < tick (snd (fetchWithRetry fetch url options w))
  /\ tick (snd (fetchWithRetry fetch url options w))
     <= tick w + match maxRedirects options with Some (S k) => S k | _ => 5 end + 1
  /\ drive (snd (fetchWithRetry fetch url options w)) = drive w
  /\ (forall response,
         fst (fetchWithRetry fetch url options w) = Ok response ->
         getResponseCode response <> 301%N /\ getResponseCode response <> 302%N
         /\ getResponseCode response <> 307%N /\ getResponseCode response <> 308%N).
Proof.
  destruct (fetchWithRetry fetch url options w) as [r w'] eqn:H.
  apply fetchWithRetry_frame in H. destruct H as ((Hlo & Hhi) & Hd & Hr).
  unfold natOr in Hhi. cbn [fst snd].
  repeat split; try assumption.
  all: intro Hc; specialize (Hr _ H); unfold isRedirect in Hr; rewrite Hc in Hr;
    discriminate.
Qed.

Lemma handleRedirectsWithin_follows (fetch : Fetcher) (options : Options)
      (final : HTTPResponse) (hops : list (N * jsstring)) :
  forall remaining url redirectCount w,
    length hops <= remaining ->
    redirectsTo fetch options (tick w) url hops final ->
    handleRedirectsWithin fetch remaining url options redirectCount w
    = (Ok final,
       mkWorld (tick w + length hops + 1)
               (logs w ++ redirectLines url hops redirectCount)
               (drive w)).
Proof.
  induction hops as [|[code location] rest IH]; intros remaining url redirectCount w Hlen H.
  - destruct H as [Hf Hn]. destruct w as [t l d]. cbn [tick] in Hf.
    destruct remaining; cbn [handleRedirectsWithin];
      unfold try_catch, bind, external; cbn [tick]; rewrite Hf; cbn zeta; rewrite Hn;
      cbn; rewrite app_nil_r; unfold advance; cbn [tick logs drive];
      replace (t + 0 + 1) with (S t) by lia; reflexivity.
  - destruct H as ((response & Hf & Hc & Hl) & Hred & Hrest).
    destruct remaining as [|remaining]; [cbn in Hlen; lia|].
    cbn [handleRedirectsWithin]. unfold try_catch at 1. unfold bind at 1.
    unfold external at 1. rewrite Hf. cbn zeta. rewrite Hc, Hred, Hl.
    unfold bind at 1. unfold log at 1.
    rewrite (IH remaining location (redirectCount + 1)).
    + destruct w as [t l d]. cbn [logged advance tick logs drive length redirectLines].
      rewrite <- app_assoc. cbn [app].
      replace (S t + length rest + 1) with (t + S (length rest) + 1) by lia. reflexivity.
    + cbn in Hlen. lia.
    + destruct w as [t l d]. exact Hrest.
Qed.

(** X19.  A chain of redirects no longer than the limit is followed to its
    end: [fetchWithRetry] returns the final response after one request per
    address, having logged one line per hop and nothing else. *)
Theorem redirect_chain_is_followed (fetch : Fetcher) (url : jsstring) (options : Options)
        (hops : list (N * jsstring)) (final : HTTPResponse) (w : World) :
  length hops <= match maxRedirects options with Some (S k) => S k | _ => 5 end ->
  redirectsTo fetch (configOf options) (tick w) url hops final ->
  fetchWithRetry fetch url options w
  = (Ok final,
     mkWorld (tick w + length hops + 1)
             (logs w ++ redirectLines url hops 0)
             (drive w)).
Proof.
  intros Hlen H. unfold fetchWithRetry, _handleRedirects.
  apply handleRedirectsWithin_follows; [|exact H].
  rewrite Nat.sub_0_r. unfold redirectLimit, configOf. cbn [maximumRedirects].
  destruct (maxRedirects options) as [[|k]|]; exact Hlen.
Qed.

Lemma redirect_chain_is_followed_witness :
  fst (fetchWithRetry movedOnce (js "http://old.example/feed") noOptions Scenario.w0)
  = Ok (mkResponse 200 (js "<rss/>") noHeaders).
Proof.
  assert (Hchain : redirectsTo movedOnce (configOf noOptions) (tick Scenario.w0)
                               (js "http://old.example/feed")
                               [(301%N, js "http://new.example/feed")]
                               (mkResponse 200 (js "<rss/>") noHeaders)).
  { vm_compute. split; [|split; [reflexivity|split; reflexivity]].
    eexists. split; [reflexivity|]. split; reflexivity. }
  assert (Hlen : length [(301%N, js "http://new.example/feed")]
                 <= match maxRedirects noOptions with Some (S k) => S k | _ => 5 end)
    by (cbn; lia).
  pose proof (f_equal fst (redirect_chain_is_followed
                             movedOnce (js "http://old.example/feed") noOptions
                             [(301%N, js "http://new.example/feed")]
                             (mkResponse 200 (js "<rss/>") noHeaders) Scenario.w0
                             Hlen Hchain)) as H.
  vm_compute in H. vm_compute. exact H.
Defined.

Lemma handleRedirectsWithin_loops (fetch : Fetcher) (options : Options) :
  (forall t u, exists response,
        fetch t u options = Ok response
        /\ isRedirect (getResponseCode response) = true
        /\ firstTruthy (getHeaders response (js "Location"))
                       (getHeaders response (js "location")) <> None) ->
  forall remaining url redirectCount w r w',
    handleRedirectsWithin fetch remaining url options redirectCount w = (r, w') ->
    r = Throw (js "重定向次数过多 (" ++ decimal (N.of_nat (redirectCount + remaining))
               ++ js "次)，可能陷入循环")
    /\ tick w' = tick w + remaining + 1.
Proof.
  intros Hloop. induction remaining as [|remaining IH]; intros url redirectCount w r w' H.
  - destruct (Hloop (tick w) url) as (response & Hf & Hred & _).
    cbn [handleRedirectsWithin] in H. unfold try_catch, bind, external in H.
    rewrite Hf in H. cbn zeta in H. rewrite Hred in H. cbn in H.
    injection H as <- <-. rewrite Nat.add_0_r. cbn. split; [reflexivity|lia].
  - destruct (Hloop (tick w) url) as (response & Hf & Hred & Hloc).
    cbn [handleRedirectsWithin] in H. unfold try_catch at 1 in H. unfold bind at 1 in H.
    unfold external at 1 in H. rewrite Hf in H. cbn zeta in H. rewrite Hred in H.
    destruct (firstTruthy _ _) as [location|]; [|congruence].
    unfold bind at 1 in H. unfold log at 1 in H.
    destruct (handleRedirectsWithin fetch remaining location options (redirectCount + 1) _)
      as [r1 w1] eqn:Hrec.
    apply IH in Hrec. destruct Hrec as [-> Ht]. cbn in H. injection H as <- <-.
    cbn in Ht. cbn. split.
    + replace (redirectCount + 1 + remaining) with (redirectCount + S remaining) by lia.
      reflexivity.
    + lia.
Qed.

(** X20.  A service that answers every request with a redirect cannot trap
    [fetchWithRetry]: it gives up with the error naming the limit, after
    exactly limit + 1 requests; the option [maxRedirects: 0] does not turn
    redirects off, it means the default 5. *)
Theorem redirect_loop_is_cut (fetch : Fetcher) (url : jsstring) (options : Options)
        (w : World) :
  (forall t u, exists response,
        fetch t u (configOf options) = Ok response
        /\ isRedirect (getResponseCode response) = true
        /\ firstTruthy (getHeaders response (js "Location"))
                       (getHeaders response (js "location")) <> None) ->
  let limit := match maxRedirects options with Some (S k) => S k | _ => 5 end in
  fst (fetchWithRetry fetch url options w)
  = Throw (js "重定向次数过多 (" ++ decimal (N.of_nat limit) ++ js "次)，可能陷入循环")
  /\ tick (snd (fetchWithRetry fetch url options w)) = tick w + limit + 1.
Proof.
  intros Hloop limit. unfold fetchWithRetry, _handleRedirects.
  assert (Hlim : redirectLimit (configOf options) - 0 = limit).
  { rewrite Nat.sub_0_r. unfold redirectLimit, configOf, limit. cbn [maximumRedirects].
    destruct (maxRedirects options) as [[|k]|]; reflexivity. }
  rewrite Hlim.
  destruct (handleRedirectsWithin fetch limit url (configOf options) 0 w) as [r w'] eqn:H.
  exact (handleRedirectsWithin_loops fetch (configOf options) Hloop limit url 0 w r w' H).
Qed.

Lemma redirect_loop_is_cut_witness :
  tick (snd (fetchWithRetry bouncing (js "http://a.example/")
                            (mkOptions None None (Some 0) None None None None None None)
                            Scenario.w0))
  = tick Scenario.w0 + 5 + 1.
Proof.
  apply (redirect_loop_is_cut
           bouncing (js "http://a.example/")
           (mkOptions None None (Some 0) None None None None None None) Scenario.w0).
  intros t u. eexists. split; [reflexivity|]. split; [reflexivity|].
  vm_compute. discriminate.
Defined.

(** X21.  [fetchHtml], [fetchText], [checkUrlAccessible] and [fetchHeaders]
    never throw.  A non-empty text from [fetchHtml] or [fetchText] is the
    content of the final response, whose code was 200; [checkUrlAccessible]
    answers [true] only for a final code from 200 to 399. *)
Theorem quiet_fetchers_never_throw (fetch : Fetcher) (url : jsstring) (options : Options)
        (w : World) :
  (exists text w',
      fetchHtml fetch url options w = (Ok text, w')
      /\ (text <> [] ->
          exists response w1,
            fetchWithRetry
              fetch url
              (accepting (js "text/html,application/xhtml+xml,application/xml;q=0.9,*/*;q=0.8")
                         options) w = (Ok response, w1)
            /\ getResponseCode response = 200%N /\ text = getContentText response))
  /\ (exists text w',
         fetchText fetch url options w = (Ok text, w')
         /\ (text <> [] ->
             exists response w1,
               fetchWithRetry fetch url options w = (Ok response, w1)
               /\ getResponseCode response = 200%N /\ text = getContentText response))
  /\ (exists accessible w',
         checkUrlAccessible fetch url options w = (Ok accessible, w')
         /\ (accessible = true ->
             exists response w1,
               fetchWithRetry
                 fetch url (heading (Some (numOr (timeout options) 10000)) options) w
               = (Ok response, w1)
               /\ (200 <= getResponseCode response < 400)%N))
  /\ (exists found w', fetchHeaders fetch url options w = (Ok found, w')).
Proof.
  split; [|split; [|split]].
  - unfold fetchHtml, try_catch. unfold bind at 1.
    destruct (fetchWithRetry fetch url _ w) as [[response|e] w1].
    + cbn zeta. destruct (getResponseCode response =? 200)%N eqn:E; cbn.
      * do 2 eexists. split; [reflexivity|]. intros _. do 2 eexists.
        split; [reflexivity|]. split; [now apply N.eqb_eq|reflexivity].
      * do 2 eexists. split; [reflexivity|]. intros H; now elim H.
    + cbn. do 2 eexists. split; [reflexivity|]. intros H; now elim H.
  - unfold fetchText, try_catch. unfold bind at 1.
    destruct (fetchWithRetry fetch url options w) as [[response|e] w1].
    + cbn zeta. destruct (getResponseCode response =? 200)%N eqn:E; cbn.
      * do 2 eexists. split; [reflexivity|]. intros _. do 2 eexists.
        split; [reflexivity|]. split; [now apply N.eqb_eq|reflexivity].
      * do 2 eexists. split; [reflexivity|]. intros H; now elim H.
    + cbn. do 2 eexists. split; [reflexivity|]. intros H; now elim H.
  - unfold checkUrlAccessible, try_catch. unfold bind at 1.
    destruct (fetchWithRetry fetch url _ w) as [[response|e] w1].
    + cbn. do 2 eexists. split; [reflexivity|]. intros H.
      apply andb_true_iff in H. destruct H as [H1 H2].
      apply N.leb_le in H1. apply N.ltb_lt in H2. do 2 eexists. split; [reflexivity|].
      split; assumption.
    + cbn. do 2 eexists. split; [reflexivity|]. discriminate.
  - unfold fetchHeaders, try_catch. unfold bind at 1.
    destruct (fetchWithRetry fetch url _ w) as [[response|e] w1]; cbn;
      do 2 eexists; reflexivity.
Qed.

(** X22.  [fetchXml] passes on only the content of a final response with
    code 200.  When it throws, the error is either the one of the request,
    handed on unchanged, or the error made from a final code other than 200
    (with the first hundred units of the content); in both cases the last
    line logged names that error. *)
Theorem fetchXml_demands_200 (fetch : Fetcher) (url : jsstring) (options : Options)
        (w : World) :
  let request :=
      fetchWithRetry
        fetch url
        (accepting (js "application/xml,text/xml,application/rss+xml,application/atom+xml")
                   options) w in
  match fetchXml fetch url options w with
  | (Ok text, w') =>
    exists response,
    request = (Ok response, w')
    /\ getResponseCode response = 200%N /\ text = getContentText response
  | (Throw error, w') =>
    w' = logged (LogLine (js "获取XML失败: " ++ url ++ js ", 错误: " ++ error)) (snd request)
    /\ (fst request = Throw error
        \/ exists response,
          fst request = Ok response
          /\ getResponseCode response <> 200%N
          /\ error = js "HTTP " ++ decimal (getResponseCode response) ++ js ": "
                     ++ firstn 100 (getContentText response))
  end.
Proof.
  cbn zeta. unfold fetchXml, try_catch. unfold bind at 1.
  destruct (fetchWithRetry fetch url _ w) as [[response|error] w1].
  - cbn zeta. destruct (getResponseCode response =? 200)%N eqn:E; cbn.
    + exists response. split; [reflexivity|]. split; [now apply N.eqb_eq|reflexivity].
    + split; [reflexivity|]. right. exists response. split; [reflexivity|].
      split; [now apply N.eqb_neq|reflexivity].
  - cbn. split; [reflexivity|]. now left.
Qed.

End NetworkFacts.

Section FeedDocumentFacts.

Import RSSDocument.

(** X23.  [getLink] returns the address of the first Atom link that has no
    [rel] attribute or whose [rel] is alternate, whatever precedes it; when
    no link qualifies it falls back to the first link, and without any Atom
    link it returns the empty string. *)
Theorem atom_link_prefers_alternate (entry : Element) :
  (forall earlier chosen later,
      getChildren entry (js "link") ATOM_NS = earlier ++ chosen :: later ->
      (forall l, In l earlier ->
                 exists v, getAttribute (attributes l) (js "rel") = Some v
                           /\ v <> js "alternate") ->
      (getAttribute (attributes chosen) (js "rel") = None
       \/ getAttribute (attributes chosen) (js "rel") = Some (js "alternate")) ->
      getLink entry ATOM_NS = hrefOf chosen)
  /\ (forall first rest,
         getChildren entry (js "link") ATOM_NS = first :: rest ->
         (forall l, In l (first :: rest) ->
                    exists v, getAttribute (attributes l) (js "rel") = Some v
                              /\ v <> js "alternate") ->
         getLink entry ATOM_NS = hrefOf first)
  /\ (getChildren entry (js "link") ATOM_NS = [] -> getLink entry ATOM_NS = []).
Proof.
  assert (Hskip : forall links,
             (forall l, In l links ->
                        exists v, getAttribute (attributes l) (js "rel") = Some v
                                  /\ v <> js "alternate") ->
             forall tail, firstPreferred (links ++ tail) = firstPreferred tail).
  { induction links as [|l links IH]; intros Hall tail; [reflexivity|].
    cbn [app firstPreferred].
    destruct (Hall l (or_introl eq_refl)) as (v & Hv & Hne).
    unfold preferred at 1. rewrite Hv.
    destruct (jseq v (js "alternate")) eqn:E.
    - apply jseq_true_iff in E. contradiction.
    - apply IH. intros l' Hl'. apply Hall. now right. }
  split; [|split].
  - intros earlier chosen later Hlinks Hearlier Hchosen. unfold getLink.
    rewrite Hlinks, (Hskip earlier Hearlier). cbn [firstPreferred].
    unfold preferred. destruct Hchosen as [-> | ->]; [reflexivity|].
    now rewrite jseq_refl.
  - intros first rest Hlinks Hall. unfold getLink. rewrite Hlinks.
    rewrite <- (app_nil_r (first :: rest)) at 1. rewrite (Hskip _ Hall).
    reflexivity.
  - intros Hlinks. unfold getLink. now rewrite Hlinks.
Qed.

Lemma atom_link_prefers_alternate_witness :
  getLink atomSample ATOM_NS = js "http://a.example/post".
Proof.
  pose proof (proj1 (atom_link_prefers_alternate atomSample)
                    [mkElement (js "link") ATOM_NS
                               [(js "rel", js "self"); (js "href", js "http://a.example/self")]
                               [] []]
                    (mkElement (js "link") ATOM_NS
                               [(js "rel", js "alternate");
                                (js "href", js "http://a.example/post")]
                               [] [])
                    []) as H.
  vm_compute in H. vm_compute. apply H.
  - reflexivity.
  - intros l [<- | []]. eexists. split; [reflexivity|discriminate].
  - right. reflexivity.
Defined.

(** X24.  Reading a feed never throws: a missing network library, a failed
    request, a final code other than 200 and text that is no XML document
    all give the empty list, after the error is logged.  It makes at most
    four requests and does not touch Drive. *)
Theorem reading_a_feed_never_throws (hasUtilsNetwork : bool) (fetch : UtilsNetwork.Fetcher)
        (parse : jsstring -> outcome Element) (url' : jsstring) (feedType : FeedType)
        (w : World) :
  exists entries w',
    fetchAndParse hasUtilsNetwork fetch parse url' feedType w = (Ok entries, w')
    /\ tick w' <= tick w + 4
    /\ drive w' = drive w
    /\ (hasUtilsNetwork = false -> entries = [] /\ tick w' = tick w)
    /\ (forall error w1,
           hasUtilsNetwork = true ->
           UtilsNetwork.fetchXml fetch url' feedOptions w = (Throw error, w1) ->
           entries = []
           /\ w' = logged (LogError (js "获取或解析RSS: " ++ url') error) w1)
    /\ (forall xmlText w1 error,
           hasUtilsNetwork = true ->
           UtilsNetwork.fetchXml fetch url' feedOptions w = (Ok xmlText, w1) ->
           parse xmlText = Throw error ->
           entries = []
           /\ w' = logged (LogError (js "获取或解析RSS: " ++ url') error) w1).
Proof.
  unfold fetchAndParse, try_catch. destruct hasUtilsNetwork; cbn [negb].
  - unfold bind at 1.
    destruct (UtilsNetwork.fetchXml fetch url' feedOptions w) as [[xmlText|e] w1] eqn:Hx;
      pose proof (fetchXml_frame _ _ _ _ _ _ Hx) as [Ht Hd];
      cbn [UtilsNetwork.maxRedirects feedOptions UtilsNetwork.natOr] in Ht.
    + unfold bind at 1. unfold Content.liftOutcome at 1.
      destruct (parse xmlText) as [root|e] eqn:Hp.
      * cbn. do 2 eexists. split; [reflexivity|]. cbn.
        repeat split; try lia; try assumption; try discriminate.
        all: intros; congruence.
      * cbn. do 2 eexists. split; [reflexivity|]. cbn.
        repeat split; try lia; try assumption; try discriminate.
        all: intros; congruence.
    + cbn. do 2 eexists. split; [reflexivity|]. cbn.
      repeat split; try lia; try assumption; try discriminate.
      all: intros; congruence.
  - cbn. do 2 eexists. split; [reflexivity|]. cbn.
    repeat split; try lia; discriminate.
Qed.

Lemma reading_a_feed_never_throws_witness :
  fst (fetchAndParse false movedOnce (fun _ => Throw (js "no document"))
                     (js "http://new.example/feed") rss Scenario.w0) = Ok [].
Proof.
  destruct (reading_a_feed_never_throws
              false movedOnce (fun _ => Throw (js "no document"))
              (js "http://new.example/feed") rss Scenario.w0)
    as (entries & w' & Heq & _ & _ & Hmissing & _).
  rewrite Heq. cbn [fst]. now destruct (Hmissing eq_refl) as [-> _].
Defined.

(** X25.  The configured feed type only matters for documents that do not
    look like Atom: a root element named feed, or a root namespace whose URI
    contains atom, is read as Atom whatever the configuration says.  Entries
    read as RSS carry no [content] or [summary], entries read as Atom no
    [description] or [content:encoded]. *)
Theorem format_is_detected (root : Element) (feedType : FeedType) :
  (getName root = js "feed"
   \/ (exists a b, getNamespaceURI root = a ++ js "atom" ++ b) ->
   entriesOf feedType root = parseAtom root)
  /\ entriesOf atom root = parseAtom root
  /\ (forall entry, In entry (parseRSS root) -> content entry = [] /\ summary entry = [])
  /\ (forall entry, In entry (parseAtom root) ->
                    description entry = [] /\ content_encoded entry = []).
Proof.
  split; [|split; [|split]].
  - intros H. unfold entriesOf, looksAtom. destruct H as [H | H].
    + rewrite H, jseq_refl, orb_true_r. reflexivity.
    + apply includes_true_iff in H. rewrite H, orb_true_r. reflexivity.
  - reflexivity.
  - intros entry. unfold parseRSS.
    destruct (getChild root (js "channel") (getNamespaceURI root)) as [channel|];
      [|intros []].
    intros H. apply in_map_iff in H. destruct H as (item & <- & _). split; reflexivity.
  - intros entry H. unfold parseAtom in H. apply in_map_iff in H.
    destruct H as (item & <- & _). split; reflexivity.
Qed.

Lemma format_is_detected_witness :
  entriesOf rss (mkElement (js "feed") ATOM_NS [] [] [atomSample])
  = parseAtom (mkElement (js "feed") ATOM_NS [] [] [atomSample]).
Proof.
  apply (proj1 (format_is_detected (mkElement (js "feed") ATOM_NS [] [] [atomSample]) rss)).
  left. reflexivity.
Defined.

(** X26.  For the content [extractNewsContent] picks from the feed fields
    (the first one that is not blank), [getContentSourceName] never answers
    unknown: it names a field that holds exactly that content. *)
Theorem content_source_is_named (entry : Entry) (rawContent : jsstring) :
  find nonBlank [content_encoded entry; content entry; description entry; summary entry]
  = Some rawContent ->
  getContentSourceName entry rawContent <> js "unknown"
  /\ ((getContentSourceName entry rawContent = js "content:encoded"
       /\ content_encoded entry = rawContent)
      \/ (getContentSourceName entry rawContent = js "content"
          /\ content entry = rawContent)
      \/ (getContentSourceName entry rawContent = js "description"
          /\ description entry = rawContent)
      \/ (getContentSourceName entry rawContent = js "summary"
          /\ summary entry = rawContent)).
Proof.
  intros H. apply find_some in H. destruct H as [Hin _].
  unfold getContentSourceName.
  destruct (jseq rawContent (content_encoded entry)) eqn:E1.
  { apply jseq_true_iff in E1. split; [discriminate|]. left. now split. }
  destruct (jseq rawContent (content entry)) eqn:E2.
  { apply jseq_true_iff in E2. split; [discriminate|]. right; left. now split. }
  destruct (jseq rawContent (description entry)) eqn:E3.
  { apply jseq_true_iff in E3. split; [discriminate|]. right; right; left. now split. }
  destruct (jseq rawContent (summary entry)) eqn:E4.
  { apply jseq_true_iff in E4. split; [discriminate|]. right; right; right. now split. }
  exfalso. destruct Hin as [<- | [<- | [<- | [<- | []]]]];
    rewrite jseq_refl in *; discriminate.
Qed.

Lemma content_source_is_named_witness :
  getContentSourceName (mkEntry (js "t") [] (js "body") [] [] (js "short")) (js "body")
  <> js "unknown".
Proof.
  apply (content_source_is_named
           (mkEntry (js "t") [] (js "body") [] [] (js "short")) (js "body")).
  reflexivity.
Defined.

(** X27.  [hasExcludedChars] answers [true] exactly when one of the listed
    strings occurs in the text; an absent or empty list excludes nothing,
    and a list that holds the empty string excludes every text. *)
Theorem excluded_chars_are_substrings (text : jsstring)
        (excludedArray : option (list jsstring)) :
  (hasExcludedChars text excludedArray = true
   <-> exists chars char a b,
      excludedArray = Some chars /\ In char chars /\ text = a ++ char ++ b)
  /\ (forall chars, excludedArray = Some chars -> In [] chars ->
                    hasExcludedChars text excludedArray = true).
Proof.
  assert (Hiff : hasExcludedChars text excludedArray = true
                 <-> exists chars char a b,
                   excludedArray = Some chars /\ In char chars /\ text = a ++ char ++ b).
  { unfold hasExcludedChars. destruct excludedArray as [chars|].
    - destruct chars as [|c chars]; cbn [length Nat.eqb].
      + split; [discriminate|]. intros (chars & char & a & b & [= <-] & [] & _).
      + rewrite existsb_exists. split.
        * intros (char & Hin & Hinc). apply includes_true_iff in Hinc.
          destruct Hinc as (a & b & ->). now exists (c :: chars), char, a, b.
        * intros (chars' & char & a & b & [= <-] & Hin & ->).
          exists char. split; [exact Hin|]. apply includes_true_iff. now exists a, b.
    - split; [discriminate|]. intros (chars & char & a & b & H & _). discriminate. }
  split; [exact Hiff|].
  intros chars -> Hin. apply Hiff. exists chars, [], [], text. now repeat split.
Qed.

Lemma excluded_chars_are_substrings_witness :
  hasExcludedChars (js "report.txt") (Some [js "pinned"; []]) = true.
Proof.
  apply (proj2 (excluded_chars_are_substrings (js "report.txt") (Some [js "pinned"; []]))
               [js "pinned"; []] eq_refl).
  right. left. reflexivity.
Defined.

End FeedDocumentFacts.

Section CleaningFacts.

Import FolderCleaning.














End CleaningFacts.
